(** * Actor kinematics and solid collision of [js/actors.js]

    A shallow embedding of the [Box] geometry and of the [Actor] methods
    [processInput], [ambientAcceleration], [move], [stayInWorld],
    [dampVelocity], [moveOutside], [startFalling], [stopFalling],
    [standingOn], [collideSolid] and [_collideSolidBox].

    JavaScript numbers are abstracted by the interface [Number]: the methods
    are written once over it, run on rationals ([QNumber]) and are reasoned
    about over the reals ([RNumber]) wherever a property needs the laws of
    arithmetic or the square root.  Rounding, overflow and NaN of IEEE
    doubles are outside the model.  A method that mutates [this] becomes a
    function from the actor to the updated actor (paired with the returned
    value when the method returns one). *)

From Stdlib Require Import Bool List String ZArith QArith Qabs Qminmax.
From Stdlib Require Import Reals Lra Lia.
Import ListNotations.

Set Implicit Arguments.

(** ** Numbers *)

Declare Scope num_scope.
Delimit Scope num_scope with num.

(** The operations the modelled methods apply to JavaScript numbers.
    [ofZ] injects the integer literals of the source; [sqrt], [abs], [max]
    and [min] stand for [Math.sqrt], [Math.abs], [Math.max], [Math.min]. *)
Class Number (N : Type) : Type := {
  ofZ : Z -> N;
  add : N -> N -> N;
  sub : N -> N -> N;
  mul : N -> N -> N;
  div : N -> N -> N;
  neg : N -> N;
  abs : N -> N;
  max : N -> N -> N;
  min : N -> N -> N;
  sqrt : N -> N;
  eqb : N -> N -> bool;
  ltb : N -> N -> bool;
  leb : N -> N -> bool
}.

Notation "a + b" := (add a b) : num_scope.
Notation "a - b" := (sub a b) : num_scope.
Notation "a * b" := (mul a b) : num_scope.
Notation "a / b" := (div a b) : num_scope.
Notation "- a" := (neg a) : num_scope.
Notation "a =? b" := (eqb a b) (at level 70) : num_scope.
Notation "a <? b" := (ltb a b) (at level 70) : num_scope.
Notation "a <=? b" := (leb a b) (at level 70) : num_scope.
Notation "a >? b" := (ltb b a) (at level 70) : num_scope.
Notation "a >=? b" := (leb b a) (at level 70) : num_scope.
Notation "a !=? b" := (negb (eqb a b)) (at level 70) : num_scope.

(** Square root on rationals, rounded down to the grid of the argument's
    denominator: exact on [n/d] whenever [n*d] is a perfect square. *)
Definition Qsqrt (q : Q) : Q :=
  Z.sqrt (Qnum q * Zpos (Qden q)) # Qden q.

Definition Qlt_bool (a b : Q) : bool := negb (Qle_bool b a).

#[export] Instance QNumber : Number Q := {
  ofZ := inject_Z;
  add := Qplus;
  sub := Qminus;
  mul := Qmult;
  div := Qdiv;
  neg := Qopp;
  abs := Qabs;
  max := Qmax;
  min := Qmin;
  sqrt := Qsqrt;
  eqb := Qeq_bool;
  ltb := Qlt_bool;
  leb := Qle_bool
}.

Definition Reqb (a b : R) : bool := if Req_dec_T a b then true else false.
Definition Rltb (a b : R) : bool := if Rlt_dec a b then true else false.
Definition Rleb (a b : R) : bool := if Rle_dec a b then true else false.

#[export] Instance RNumber : Number R := {
  ofZ := IZR;
  add := Rplus;
  sub := Rminus;
  mul := Rmult;
  div := Rdiv;
  neg := Ropp;
  abs := Rabs;
  max := Rmax;
  min := Rmin;
  sqrt := R_sqrt.sqrt;
  eqb := Reqb;
  ltb := Rltb;
  leb := Rleb
}.

(** ** App.Utils *)

Section Utils.
Context {N : Type} `{Number N}.
Local Open Scope num_scope.

(** Modelled from the spec: [App.Utils.almostEqual(a, b, e)] is not part
    of this file; the spec uses it as the tolerance test [|a - b| <= e]. *)
Definition almostEqual (a b e : N) : bool := abs (a - b) <=? e.

(** Modelled from the spec: [App.Utils.anyIn(search, target)] is not part
    of this file; it tells whether some element of [search] occurs in
    [target] (the given directions contain one of the bound keys). *)
Definition anyIn (search target : list string) : bool :=
  existsb (fun k => existsb (String.eqb k) target) search.
End Utils.

(** ** Box geometry *)

Module Box.
Record t (N : Type) : Type := mk {
  x : N;
  y : N;
  width : N;
  height : N
}.
Arguments mk {N}.
Arguments x {N}.
Arguments y {N}.
Arguments width {N}.
Arguments height {N}.

Section Geometry.
Context {N : Type} `{Number N}.
Local Open Scope num_scope.

Definition xC (b : t N) : N := x b + width b / ofZ 2.
Definition yC (b : t N) : N := y b + height b / ofZ 2.

Definition overlapsX (this otherBox : t N) : bool :=
  (x this + width this >=? x otherBox) &&
  (x otherBox + width otherBox >=? x this).

Definition overlapsY (this otherBox : t N) : bool :=
  (y this + height this >=? y otherBox) &&
  (y otherBox + height otherBox >=? y this).

Definition overlaps (this otherBox : t N) : bool :=
  overlapsX this otherBox && overlapsY this otherBox.
End Geometry.
End Box.

(** ** Collections, tile maps and the world *)

(** What [collideSolid] and [standingOn] accept: a [Box], a [Collection]
    (its [items] array) or a [TileMap] (its [grid], [None] for an empty
    cell). *)
Inductive Obstacles (N : Type) : Type :=
| OneBox (b : Box.t N)
| Collection (items : list (Box.t N))
| TileMap (grid : list (list (option (Box.t N)))).
Arguments OneBox {N}.
Arguments Collection {N}.
Arguments TileMap {N}.

(** [TileMap#getAll]: every outer array is scanned up to the length of the
    first one and the cells that are not [null] are collected in order.
    This is the list of the Boxes of the array.  For an outer array
    shorter than the first one the array of the source also holds an
    [undefined] for each missing cell, on which [collides] and
    [collideSolid] throw: [TileMap_getAll_entries] below is the array
    entry by entry, and [allDefined] tells that it holds Boxes only. *)
Definition TileMap_getAll {N : Type} (grid : list (list (option (Box.t N))))
  : list (Box.t N) :=
  let h := match grid with [] => O | r :: _ => List.length r end in
  flat_map
    (fun r => flat_map (fun c => match c with Some b => [b] | None => [] end)
                       (firstn h r))
    grid.

Module World.
Record t (N : Type) : Type := mk { width : N; height : N }.
Arguments mk {N}.
Arguments width {N}.
Arguments height {N}.
End World.

(** The global [keys] object: for each logical direction, the key names
    bound to it. *)
Module Keys.
Record t : Type := mk {
  up : list string;
  down : list string;
  left : list string;
  right : list string
}.
End Keys.

(** The globals an Actor method reads: [keys] ([None] when the variable was
    deleted), [world], [App.physicsTimeElapsed] and [App.physicsDelta]. *)
Record Env (N : Type) : Type := {
  keys : option Keys.t;
  world : World.t N;
  physicsTimeElapsed : N;
  physicsDelta : N
}.
Arguments keys {N}.
Arguments world {N}.
Arguments physicsTimeElapsed {N}.
Arguments physicsDelta {N}.

(** ** Actor state *)

Module JumpDirection.
Record t : Type := mk { right : bool; left : bool }.
End JumpDirection.

Record Actor (N : Type) : Type := {
  x : N;
  y : N;
  width : N;
  height : N;
  lastX : N;
  lastY : N;
  MOVEAMOUNT : N;
  GRAVITY : bool;
  G_CONST : N;
  JUMP_VEL : N;
  JUMP_DELAY : N;
  AIR_CONTROL : N;
  JUMP_RELEASE : bool;
  MULTI_JUMP : Z;
  CONTINUOUS_MOVEMENT : bool;
  STAY_IN_WORLD : bool;
  DAMPING_FACTOR : option N;
  lastLooked : list string;
  xVelocity : N;
  yVelocity : N;
  xAcceleration : N;
  yAcceleration : N;
  lastJump : N;
  lastDirection : list string;
  jumpDirection : JumpDirection.t;
  jumpKeyDown : bool;
  numJumps : nat;
  inAir : bool;
  fallLeft : option bool
}.

(** Field updates: [set_f v a] is the Actor after [this.f = v]. *)
Section Setters.
Context {N : Type}.

Definition set_x (v : N) (a : Actor N) : Actor N :=
  Build_Actor v (y a) (width a) (height a) (lastX a) (lastY a) (MOVEAMOUNT
    a) (GRAVITY a) (G_CONST a) (JUMP_VEL a) (JUMP_DELAY a) (AIR_CONTROL a)
    (JUMP_RELEASE a) (MULTI_JUMP a) (CONTINUOUS_MOVEMENT a) (STAY_IN_WORLD a)
    (DAMPING_FACTOR a) (lastLooked a) (xVelocity a) (yVelocity a)
    (xAcceleration a) (yAcceleration a) (lastJump a) (lastDirection a)
    (jumpDirection a) (jumpKeyDown a) (numJumps a) (inAir a) (fallLeft a).

Definition set_y (v : N) (a : Actor N) : Actor N :=
  Build_Actor (x a) v (width a) (height a) (lastX a) (lastY a) (MOVEAMOUNT
    a) (GRAVITY a) (G_CONST a) (JUMP_VEL a) (JUMP_DELAY a) (AIR_CONTROL a)
    (JUMP_RELEASE a) (MULTI_JUMP a) (CONTINUOUS_MOVEMENT a) (STAY_IN_WORLD a)
    (DAMPING_FACTOR a) (lastLooked a) (xVelocity a) (yVelocity a)
    (xAcceleration a) (yAcceleration a) (lastJump a) (lastDirection a)
    (jumpDirection a) (jumpKeyDown a) (numJumps a) (inAir a) (fallLeft a).

Definition set_xVelocity (v : N) (a : Actor N) : Actor N :=
  Build_Actor (x a) (y a) (width a) (height a) (lastX a) (lastY a)
    (MOVEAMOUNT a) (GRAVITY a) (G_CONST a) (JUMP_VEL a) (JUMP_DELAY a)
    (AIR_CONTROL a) (JUMP_RELEASE a) (MULTI_JUMP a) (CONTINUOUS_MOVEMENT a)
    (STAY_IN_WORLD a) (DAMPING_FACTOR a) (lastLooked a) v (yVelocity a)
    (xAcceleration a) (yAcceleration a) (lastJump a) (lastDirection a)
    (jumpDirection a) (jumpKeyDown a) (numJumps a) (inAir a) (fallLeft a).

Definition set_yVelocity (v : N) (a : Actor N) : Actor N :=
  Build_Actor (x a) (y a) (width a) (height a) (lastX a) (lastY a)
    (MOVEAMOUNT a) (GRAVITY a) (G_CONST a) (JUMP_VEL a) (JUMP_DELAY a)
    (AIR_CONTROL a) (JUMP_RELEASE a) (MULTI_JUMP a) (CONTINUOUS_MOVEMENT a)
    (STAY_IN_WORLD a) (DAMPING_FACTOR a) (lastLooked a) (xVelocity a) v
    (xAcceleration a) (yAcceleration a) (lastJump a) (lastDirection a)
    (jumpDirection a) (jumpKeyDown a) (numJumps a) (inAir a) (fallLeft a).

Definition set_xAcceleration (v : N) (a : Actor N) : Actor N :=
  Build_Actor (x a) (y a) (width a) (height a) (lastX a) (lastY a)
    (MOVEAMOUNT a) (GRAVITY a) (G_CONST a) (JUMP_VEL a) (JUMP_DELAY a)
    (AIR_CONTROL a) (JUMP_RELEASE a) (MULTI_JUMP a) (CONTINUOUS_MOVEMENT a)
    (STAY_IN_WORLD a) (DAMPING_FACTOR a) (lastLooked a) (xVelocity a)
    (yVelocity a) v (yAcceleration a) (lastJump a) (lastDirection a)
    (jumpDirection a) (jumpKeyDown a) (numJumps a) (inAir a) (fallLeft a).

Definition set_yAcceleration (v : N) (a : Actor N) : Actor N :=
  Build_Actor (x a) (y a) (width a) (height a) (lastX a) (lastY a)
    (MOVEAMOUNT a) (GRAVITY a) (G_CONST a) (JUMP_VEL a) (JUMP_DELAY a)
    (AIR_CONTROL a) (JUMP_RELEASE a) (MULTI_JUMP a) (CONTINUOUS_MOVEMENT a)
    (STAY_IN_WORLD a) (DAMPING_FACTOR a) (lastLooked a) (xVelocity a)
    (yVelocity a) (xAcceleration a) v (lastJump a) (lastDirection a)
    (jumpDirection a) (jumpKeyDown a) (numJumps a) (inAir a) (fallLeft a).

Definition set_lastJump (v : N) (a : Actor N) : Actor N :=
  Build_Actor (x a) (y a) (width a) (height a) (lastX a) (lastY a)
    (MOVEAMOUNT a) (GRAVITY a) (G_CONST a) (JUMP_VEL a) (JUMP_DELAY a)
    (AIR_CONTROL a) (JUMP_RELEASE a) (MULTI_JUMP a) (CONTINUOUS_MOVEMENT a)
    (STAY_IN_WORLD a) (DAMPING_FACTOR a) (lastLooked a) (xVelocity a)
    (yVelocity a) (xAcceleration a) (yAcceleration a) v (lastDirection a)
    (jumpDirection a) (jumpKeyDown a) (numJumps a) (inAir a) (fallLeft a).

Definition set_lastDirection (v : list string) (a : Actor N) : Actor N :=
  Build_Actor (x a) (y a) (width a) (height a) (lastX a) (lastY a)
    (MOVEAMOUNT a) (GRAVITY a) (G_CONST a) (JUMP_VEL a) (JUMP_DELAY a)
    (AIR_CONTROL a) (JUMP_RELEASE a) (MULTI_JUMP a) (CONTINUOUS_MOVEMENT a)
    (STAY_IN_WORLD a) (DAMPING_FACTOR a) (lastLooked a) (xVelocity a)
    (yVelocity a) (xAcceleration a) (yAcceleration a) (lastJump a) v
    (jumpDirection a) (jumpKeyDown a) (numJumps a) (inAir a) (fallLeft a).

Definition set_lastLooked (v : list string) (a : Actor N) : Actor N :=
  Build_Actor (x a) (y a) (width a) (height a) (lastX a) (lastY a)
    (MOVEAMOUNT a) (GRAVITY a) (G_CONST a) (JUMP_VEL a) (JUMP_DELAY a)
    (AIR_CONTROL a) (JUMP_RELEASE a) (MULTI_JUMP a) (CONTINUOUS_MOVEMENT a)
    (STAY_IN_WORLD a) (DAMPING_FACTOR a) v (xVelocity a) (yVelocity a)
    (xAcceleration a) (yAcceleration a) (lastJump a) (lastDirection a)
    (jumpDirection a) (jumpKeyDown a) (numJumps a) (inAir a) (fallLeft a).

Definition set_jumpDirection (v : JumpDirection.t) (a : Actor N) : Actor N :=
  Build_Actor (x a) (y a) (width a) (height a) (lastX a) (lastY a)
    (MOVEAMOUNT a) (GRAVITY a) (G_CONST a) (JUMP_VEL a) (JUMP_DELAY a)
    (AIR_CONTROL a) (JUMP_RELEASE a) (MULTI_JUMP a) (CONTINUOUS_MOVEMENT a)
    (STAY_IN_WORLD a) (DAMPING_FACTOR a) (lastLooked a) (xVelocity a)
    (yVelocity a) (xAcceleration a) (yAcceleration a) (lastJump a)
    (lastDirection a) v (jumpKeyDown a) (numJumps a) (inAir a) (fallLeft a).

Definition set_jumpKeyDown (v : bool) (a : Actor N) : Actor N :=
  Build_Actor (x a) (y a) (width a) (height a) (lastX a) (lastY a)
    (MOVEAMOUNT a) (GRAVITY a) (G_CONST a) (JUMP_VEL a) (JUMP_DELAY a)
    (AIR_CONTROL a) (JUMP_RELEASE a) (MULTI_JUMP a) (CONTINUOUS_MOVEMENT a)
    (STAY_IN_WORLD a) (DAMPING_FACTOR a) (lastLooked a) (xVelocity a)
    (yVelocity a) (xAcceleration a) (yAcceleration a) (lastJump a)
    (lastDirection a) (jumpDirection a) v (numJumps a) (inAir a) (fallLeft a).

Definition set_numJumps (v : nat) (a : Actor N) : Actor N :=
  Build_Actor (x a) (y a) (width a) (height a) (lastX a) (lastY a)
    (MOVEAMOUNT a) (GRAVITY a) (G_CONST a) (JUMP_VEL a) (JUMP_DELAY a)
    (AIR_CONTROL a) (JUMP_RELEASE a) (MULTI_JUMP a) (CONTINUOUS_MOVEMENT a)
    (STAY_IN_WORLD a) (DAMPING_FACTOR a) (lastLooked a) (xVelocity a)
    (yVelocity a) (xAcceleration a) (yAcceleration a) (lastJump a)
    (lastDirection a) (jumpDirection a) (jumpKeyDown a) v (inAir a) (fallLeft
    a).

Definition set_inAir (v : bool) (a : Actor N) : Actor N :=
  Build_Actor (x a) (y a) (width a) (height a) (lastX a) (lastY a)
    (MOVEAMOUNT a) (GRAVITY a) (G_CONST a) (JUMP_VEL a) (JUMP_DELAY a)
    (AIR_CONTROL a) (JUMP_RELEASE a) (MULTI_JUMP a) (CONTINUOUS_MOVEMENT a)
    (STAY_IN_WORLD a) (DAMPING_FACTOR a) (lastLooked a) (xVelocity a)
    (yVelocity a) (xAcceleration a) (yAcceleration a) (lastJump a)
    (lastDirection a) (jumpDirection a) (jumpKeyDown a) (numJumps a) v
    (fallLeft a).

Definition set_fallLeft (v : option bool) (a : Actor N) : Actor N :=
  Build_Actor (x a) (y a) (width a) (height a) (lastX a) (lastY a)
    (MOVEAMOUNT a) (GRAVITY a) (G_CONST a) (JUMP_VEL a) (JUMP_DELAY a)
    (AIR_CONTROL a) (JUMP_RELEASE a) (MULTI_JUMP a) (CONTINUOUS_MOVEMENT a)
    (STAY_IN_WORLD a) (DAMPING_FACTOR a) (lastLooked a) (xVelocity a)
    (yVelocity a) (xAcceleration a) (yAcceleration a) (lastJump a)
    (lastDirection a) (jumpDirection a) (jumpKeyDown a) (numJumps a) (inAir a)
    v.

Definition set_MULTI_JUMP (v : Z) (a : Actor N) : Actor N :=
  Build_Actor (x a) (y a) (width a) (height a) (lastX a) (lastY a)
    (MOVEAMOUNT a) (GRAVITY a) (G_CONST a) (JUMP_VEL a) (JUMP_DELAY a)
    (AIR_CONTROL a) (JUMP_RELEASE a) v (CONTINUOUS_MOVEMENT a) (STAY_IN_WORLD
    a) (DAMPING_FACTOR a) (lastLooked a) (xVelocity a) (yVelocity a)
    (xAcceleration a) (yAcceleration a) (lastJump a) (lastDirection a)
    (jumpDirection a) (jumpKeyDown a) (numJumps a) (inAir a) (fallLeft a).

Definition set_lastX (v : N) (a : Actor N) : Actor N :=
  Build_Actor (x a) (y a) (width a) (height a) v (lastY a) (MOVEAMOUNT a)
  (GRAVITY a) (G_CONST a) (JUMP_VEL a) (JUMP_DELAY a) (AIR_CONTROL a)
  (JUMP_RELEASE a) (MULTI_JUMP a) (CONTINUOUS_MOVEMENT a) (STAY_IN_WORLD a)
  (DAMPING_FACTOR a) (lastLooked a) (xVelocity a) (yVelocity a)
  (xAcceleration a) (yAcceleration a) (lastJump a) (lastDirection a)
  (jumpDirection a) (jumpKeyDown a) (numJumps a) (inAir a) (fallLeft a).

Definition set_lastY (v : N) (a : Actor N) : Actor N :=
  Build_Actor (x a) (y a) (width a) (height a) (lastX a) v (MOVEAMOUNT a)
  (GRAVITY a) (G_CONST a) (JUMP_VEL a) (JUMP_DELAY a) (AIR_CONTROL a)
  (JUMP_RELEASE a) (MULTI_JUMP a) (CONTINUOUS_MOVEMENT a) (STAY_IN_WORLD a)
  (DAMPING_FACTOR a) (lastLooked a) (xVelocity a) (yVelocity a)
  (xAcceleration a) (yAcceleration a) (lastJump a) (lastDirection a)
  (jumpDirection a) (jumpKeyDown a) (numJumps a) (inAir a) (fallLeft a).

Definition set_GRAVITY (v : bool) (a : Actor N) : Actor N :=
  Build_Actor (x a) (y a) (width a) (height a) (lastX a) (lastY a)
  (MOVEAMOUNT a) v (G_CONST a) (JUMP_VEL a) (JUMP_DELAY a) (AIR_CONTROL a)
  (JUMP_RELEASE a) (MULTI_JUMP a) (CONTINUOUS_MOVEMENT a) (STAY_IN_WORLD a)
  (DAMPING_FACTOR a) (lastLooked a) (xVelocity a) (yVelocity a)
  (xAcceleration a) (yAcceleration a) (lastJump a) (lastDirection a)
  (jumpDirection a) (jumpKeyDown a) (numJumps a) (inAir a) (fallLeft a).

Definition set_STAY_IN_WORLD (v : bool) (a : Actor N) : Actor N :=
  Build_Actor (x a) (y a) (width a) (height a) (lastX a) (lastY a)
  (MOVEAMOUNT a) (GRAVITY a) (G_CONST a) (JUMP_VEL a) (JUMP_DELAY a)
  (AIR_CONTROL a) (JUMP_RELEASE a) (MULTI_JUMP a) (CONTINUOUS_MOVEMENT a) v
  (DAMPING_FACTOR a) (lastLooked a) (xVelocity a) (yVelocity a)
  (xAcceleration a) (yAcceleration a) (lastJump a) (lastDirection a)
  (jumpDirection a) (jumpKeyDown a) (numJumps a) (inAir a) (fallLeft a).

Definition set_DAMPING_FACTOR (v : option N) (a : Actor N) : Actor N :=
  Build_Actor (x a) (y a) (width a) (height a) (lastX a) (lastY a)
  (MOVEAMOUNT a) (GRAVITY a) (G_CONST a) (JUMP_VEL a) (JUMP_DELAY a)
  (AIR_CONTROL a) (JUMP_RELEASE a) (MULTI_JUMP a) (CONTINUOUS_MOVEMENT a)
  (STAY_IN_WORLD a) v (lastLooked a) (xVelocity a) (yVelocity a)
  (xAcceleration a) (yAcceleration a) (lastJump a) (lastDirection a)
  (jumpDirection a) (jumpKeyDown a) (numJumps a) (inAir a) (fallLeft a).

Definition set_JUMP_RELEASE (v : bool) (a : Actor N) : Actor N :=
  Build_Actor (x a) (y a) (width a) (height a) (lastX a) (lastY a)
  (MOVEAMOUNT a) (GRAVITY a) (G_CONST a) (JUMP_VEL a) (JUMP_DELAY a)
  (AIR_CONTROL a) v (MULTI_JUMP a) (CONTINUOUS_MOVEMENT a) (STAY_IN_WORLD a)
  (DAMPING_FACTOR a) (lastLooked a) (xVelocity a) (yVelocity a)
  (xAcceleration a) (yAcceleration a) (lastJump a) (lastDirection a)
  (jumpDirection a) (jumpKeyDown a) (numJumps a) (inAir a) (fallLeft a).
End Setters.

(** ** Actor methods *)

(** The object returned by [moveOutside]. *)
Module Moved.
Record t (N : Type) : Type := mk { x : N; y : N }.
Arguments mk {N}.
Arguments x {N}.
Arguments y {N}.
End Moved.

(** The object returned by [_collideSolidBox]. *)
Module Collision.
Record t : Type := mk { falling : bool; collided : bool }.
End Collision.

Section Methods.
Context {N : Type} `{Number N}.
Local Open Scope num_scope.

(** An Actor is a Box: the geometry inherited methods look at. *)
Definition boxOf (a : Actor N) : Box.t N :=
  Box.mk (x a) (y a) (width a) (height a).

Definition stopFalling (a : Actor N) : Actor N :=
  let a := if yAcceleration a >? ofZ 0 then set_yAcceleration (ofZ 0) a else a in
  let a := if yVelocity a >? ofZ 0 then set_yVelocity (ofZ 0) a else a in
  let a := set_numJumps 0 a in
  set_inAir false a.

Definition startFalling (a : Actor N) : Actor N :=
  let a :=
    match negb (inAir a), fallLeft a with
    | true, Some fl => set_jumpDirection (JumpDirection.mk (negb fl) fl) a
    | _, _ => a
    end in
  set_inAir true a.

Definition isInAir (a : Actor N) : bool := inAir a.

Definition isJumping (a : Actor N) : bool := Nat.ltb 0 (numJumps a).

Definition isFalling (a : Actor N) : bool :=
  isInAir a && Nat.eqb (numJumps a) 0.

Definition hasAirMomentum (a : Actor N) : bool :=
  match fallLeft a with Some _ => true | None => false end
  || JumpDirection.left (jumpDirection a)
  || JumpDirection.right (jumpDirection a).

(** *** processInput *)

(** The "Move left" / "Move right" block; returns the actor and the local
    variables [left], [right] and [looked]. *)
Definition processHorizontal (keys : Keys.t) (direction : list string)
    (a : Actor N) : Actor N * (bool * bool * bool) :=
  let jd := jumpDirection a in
  if anyIn (Keys.left keys) direction then
    let a := set_fallLeft (Some true) a in
    let a :=
      if GRAVITY a && isInAir a then
        if JumpDirection.right jd || negb (JumpDirection.left jd) then
          let a := set_xVelocity (- MOVEAMOUNT a * AIR_CONTROL a) a in
          set_jumpDirection (JumpDirection.mk false false) a
        else a
      else set_xVelocity (- MOVEAMOUNT a) a in
    (a, (true, false, true))
  else if anyIn (Keys.right keys) direction then
    let a := set_fallLeft (Some false) a in
    let a :=
      if GRAVITY a && isInAir a then
        if JumpDirection.left jd || negb (JumpDirection.right jd) then
          let a := set_xVelocity (MOVEAMOUNT a * AIR_CONTROL a) a in
          set_jumpDirection (JumpDirection.mk false false) a
        else a
      else set_xVelocity (MOVEAMOUNT a) a in
    (a, (false, true, true))
  else (a, (false, false, false)).

(** The guard of the jump: the Actor may jump at all (first test of the
    source) and may jump now (second test). *)
Definition mayJump (a : Actor N) : bool :=
  negb (isInAir a)
  || (MULTI_JUMP a >? Z.of_nat (numJumps a))%Z
  || (MULTI_JUMP a =? -1)%Z.

Definition mayJumpNow (env : Env N) (a : Actor N) : bool :=
  (physicsTimeElapsed env - lastJump a >? JUMP_DELAY a)
  && (negb (JUMP_RELEASE a) || negb (jumpKeyDown a)).

(** The "Move up / jump" and "Move down" block; returns the actor and the
    local variable [looked]. *)
Definition processVertical (env : Env N) (keys : Keys.t)
    (direction : list string) (left right looked : bool) (a : Actor N)
    : Actor N * bool :=
  if anyIn (Keys.up keys) direction then
    let '(a, looked) :=
      if negb (GRAVITY a) then (set_yVelocity (- MOVEAMOUNT a) a, true)
      else if mayJump a then
        let now := physicsTimeElapsed env in
        if mayJumpNow env a then
          let a := set_yVelocity (- JUMP_VEL a) a in
          let a := set_lastJump now a in
          let a := set_jumpDirection (JumpDirection.mk right left) a in
          let a := set_numJumps (S (numJumps a)) a in
          (set_inAir true a, looked)
        else (a, looked)
      else (a, looked) in
    (set_jumpKeyDown true a, looked)
  else if anyIn (Keys.down keys) direction then
    if negb (isInAir a) || negb (GRAVITY a) then
      (set_yVelocity (MOVEAMOUNT a) a, true)
    else (a, looked)
  else (a, looked).

(** The last block: remember where the Actor looks; with gravity only the
    left and right keys are kept. *)
Definition processLooked (keys : Keys.t) (direction : list string)
    (looked : bool) (a : Actor N) : Actor N :=
  if looked then
    let isKey (ks : list string) (d : string) := existsb (String.eqb d) ks in
    let kept :=
      if GRAVITY a then
        filter (fun d => isKey (Keys.left keys) d || isKey (Keys.right keys) d)
               direction
      else direction in
    set_lastLooked kept a
  else a.

(** The directions [processInput] works with: the given ones, or the last
    looked ones under [CONTINUOUS_MOVEMENT] when none is given ([None]
    stands for an [undefined] argument); [None] when the method returns
    early. *)
Definition directionsUsed (direction : option (list string)) (a : Actor N)
    : option (list string) :=
  match direction with
  | Some (d :: ds) => Some (d :: ds)
  | _ => if CONTINUOUS_MOVEMENT a then Some (lastLooked a) else None
  end.

Definition processInput (env : Env N) (direction : option (list string))
    (a : Actor N) : Actor N :=
  match keys env with
  | None => a
  | Some keys =>
    match directionsUsed direction a with
    | None => a
    | Some direction =>
      let a := set_lastDirection direction a in
      let '(a, flags) := processHorizontal keys direction a in
      let left := fst (fst flags) in
      let right := snd (fst flags) in
      let looked := snd flags in
      let '(a, looked) :=
        processVertical env keys direction left right looked a in
      processLooked keys direction looked a
    end
  end.

(** *** ambientAcceleration, move, stayInWorld, dampVelocity *)

Definition ambientAcceleration (a : Actor N) : Actor N :=
  if GRAVITY a then
    if isInAir a then
      let a := set_yAcceleration (yAcceleration a + G_CONST a) a in
      if JumpDirection.left (jumpDirection a) then
        set_xVelocity (- MOVEAMOUNT a) a
      else if JumpDirection.right (jumpDirection a) then
        set_xVelocity (MOVEAMOUNT a) a
      else a
    else stopFalling a
  else a.

Definition stayInWorld (env : Env N) (a : Actor N) : Actor N :=
  if STAY_IN_WORLD a then
    let a :=
      if x a <? ofZ 0 then set_x (ofZ 0) a
      else if x a + width a >? World.width (world env) then
        set_x (World.width (world env) - width a) a
      else a in
    if y a <? ofZ 0 then set_y (ofZ 0) a
    else if y a + height a >? World.height (world env) then
      let a := set_y (World.height (world env) - height a) a in
      stopFalling a
    else a
  else a.

(** "Apply half acceleration": both halves of the midpoint formula. *)
Definition applyHalfAcceleration (env : Env N) (a : Actor N) : Actor N :=
  let d2 := physicsDelta env / ofZ 2 in
  let a := set_xVelocity (xVelocity a + xAcceleration a * d2) a in
  set_yVelocity (yVelocity a + yAcceleration a * d2) a.

(** The test guarding the diagonal rescale, and the divisor [origMag]. *)
Definition movesDiagonally (a : Actor N) : bool :=
  (xVelocity a !=? ofZ 0) && (yVelocity a !=? ofZ 0) && negb (GRAVITY a).

Definition origMag (a : Actor N) : N :=
  sqrt (xVelocity a * xVelocity a + yVelocity a * yVelocity a).

(** "Don't let diagonal movement be faster than axial movement". *)
Definition capDiagonalSpeed (a : Actor N) : Actor N :=
  if movesDiagonally a then
    let magnitude := max (abs (xVelocity a)) (abs (yVelocity a)) in
    let scale := magnitude / origMag a in
    let a := set_xVelocity (xVelocity a * scale) a in
    set_yVelocity (yVelocity a * scale) a
  else a.

(** "Apply thrust". *)
Definition applyThrust (env : Env N) (a : Actor N) : Actor N :=
  let a := set_x (x a + xVelocity a * physicsDelta env) a in
  set_y (y a + yVelocity a * physicsDelta env) a.

Definition move (env : Env N) (a : Actor N) : Actor N :=
  let a := applyHalfAcceleration env a in
  let a := capDiagonalSpeed a in
  let a := applyThrust env a in
  let a := applyHalfAcceleration env a in
  stayInWorld env a.

(** The tolerance [0.0001] of [dampVelocity]. *)
Definition dampTolerance : N := ofZ 1 / ofZ 10000.

Definition dampVelocity (env : Env N) (a : Actor N) : Actor N :=
  let zeroed :=
    let a := set_xVelocity (ofZ 0) a in
    if negb (GRAVITY a) then set_yVelocity (ofZ 0) a else a in
  match DAMPING_FACTOR a with
  | Some damping =>
    if negb (almostEqual (xVelocity a) (ofZ 0) dampTolerance) then
      let a :=
        set_xVelocity (xVelocity a * (ofZ 1 - damping * physicsDelta env)) a in
      if negb (GRAVITY a)
         && negb (almostEqual (yVelocity a) (ofZ 0) dampTolerance) then
        set_yVelocity (yVelocity a * (ofZ 1 - damping * physicsDelta env)) a
      else a
    else zeroed
  | None => zeroed
  end.
End Methods.

(** ** Solid collision *)

Section Collide.
Context {N : Type} `{Number N}.
Local Open Scope num_scope.

Definition moveOutsideX (a : Actor N) (other : Box.t N) : Actor N * N :=
  if Box.overlaps (boxOf a) other then
    if x a + width a / ofZ 2 <? Box.x other + Box.width other / ofZ 2 then
      let movedTo := Box.x other - width a - ofZ 1 in
      (set_x movedTo a, movedTo - x a)
    else
      let movedTo := Box.x other + Box.width other + ofZ 1 in
      (set_x movedTo a, movedTo - x a)
  else (a, ofZ 0).

Definition moveOutsideY (a : Actor N) (other : Box.t N) : Actor N * N :=
  if Box.overlaps (boxOf a) other then
    if y a + height a / ofZ 2 <=? Box.y other + Box.height other / ofZ 2 then
      let movedTo := Box.y other - height a - ofZ 1 in
      (set_y movedTo a, movedTo - y a)
    else
      let movedTo := Box.y other + Box.height other + ofZ 1 in
      (set_y movedTo a, movedTo - y a)
  else (a, ofZ 0).

(** The two penetration depths [moveOutside] compares. *)
Definition overlapsX (a : Actor N) (other : Box.t N) : N :=
  min (x a + width a - Box.x other) (Box.x other + Box.width other - x a).

Definition overlapsY (a : Actor N) (other : Box.t N) : N :=
  min (y a + height a - Box.y other) (Box.y other + Box.height other - y a).

Definition moveOutside (a : Actor N) (other : Box.t N)
    : Actor N * Moved.t N :=
  if overlapsX a other <=? overlapsY a other then
    let '(a, mx) := moveOutsideX a other in
    let '(a, my) := moveOutsideY a other in
    (a, Moved.mk mx my)
  else
    let '(a, my) := moveOutsideY a other in
    let '(a, mx) := moveOutsideX a other in
    (a, Moved.mk mx my).

(** [standingOn] for a single Box. *)
Definition standingOnBox (a : Actor N) (box : Box.t N) : bool :=
  Box.overlapsX (boxOf a) box
  && almostEqual (y a + height a) (Box.y box) (ofZ 1).

Definition getAll (obstacles : Obstacles N) : list (Box.t N) :=
  match obstacles with
  | OneBox b => [b]
  | Collection items => items
  | TileMap grid => TileMap_getAll grid
  end.

Definition standingOn (a : Actor N) (box : Obstacles N) : bool :=
  match box with
  | OneBox b => standingOnBox a b
  | _ => existsb (standingOnBox a) (getAll box)
  end.

(** "If we're in the air and we hit something, stop the momentum." *)
Definition stopMomentum (a : Actor N) (collideWith : Box.t N) : Actor N :=
  if almostEqual (y a) (Box.y collideWith + Box.height collideWith) (ofZ 1)
  then
    let a :=
      if yAcceleration a <? ofZ 0 then set_yAcceleration (ofZ 0) a else a in
    if yVelocity a <? ofZ 0 then set_yVelocity (ofZ 0) a else a
  else set_jumpDirection (JumpDirection.mk false false) a.

(** The Actor once "backed out" of a solid it intersects. *)
Definition backedOut (a : Actor N) (collideWith : Box.t N) : Actor N :=
  if Box.overlaps (boxOf a) collideWith then fst (moveOutside a collideWith)
  else a.

Definition _collideSolidBox (a : Actor N) (collideWith : Box.t N)
    : Actor N * Collision.t :=
  let collided := Box.overlaps (boxOf a) collideWith in
  let a := backedOut a collideWith in
  if GRAVITY a then
    let x0 := x a in
    let a := set_x (lastX a) a in
    let standing := standingOnBox a collideWith in
    let a := if standing then stopFalling a else a in
    let falling := negb standing in
    let a := set_x x0 a in
    let a := if falling && collided then stopMomentum a collideWith else a in
    (a, Collision.mk falling collided)
  else (a, Collision.mk true collided).

(** The loop of [collideSolid] over the items of a Collection or TileMap,
    carrying the Actor and the variables [falling] and [collided]. *)
Definition collideStep (s : Actor N * bool * bool) (item : Box.t N)
    : Actor N * bool * bool :=
  let '(a, falling, collided) := s in
  let '(a, result) := _collideSolidBox a item in
  (a,
   if negb (Collision.falling result) then false else falling,
   if Collision.collided result then true else collided).

Definition collideItems (items : list (Box.t N)) (s : Actor N * bool * bool)
    : Actor N * bool * bool :=
  fold_left collideStep items s.

(** The initial value of [falling] in [collideSolid]. *)
Definition fallingSeed (env : Env N) (a : Actor N) : bool :=
  GRAVITY a
  && ((y a + height a !=? World.height (world env))
      || negb (STAY_IN_WORLD a)).

Definition collideSolid (env : Env N) (a : Actor N)
    (collideWith : Obstacles N) : Actor N * bool :=
  let falling := fallingSeed env a in
  let '(a, falling, collided) :=
    match collideWith with
    | OneBox b =>
      let '(a, result) := _collideSolidBox a b in
      (a, Collision.falling result, Collision.collided result)
    | _ => collideItems (getAll collideWith) (a, falling, false)
    end in
  let a := if falling then startFalling a else a in
  (a, collided).
End Collide.

(** ** The rest of the file: sets of Boxes, the world, the frame update *)

(** What [Actor#update] reads besides the fields above: the Actor's
    [isBeingDragged] flag, [Mouse.coords] and the viewport offsets
    [world.xOffset] and [world.yOffset]. *)
Record Pointer (N : Type) : Type := {
  isBeingDragged : bool;
  mouseX : N;
  mouseY : N;
  xOffset : N;
  yOffset : N
}.
Arguments isBeingDragged {N}.
Arguments mouseX {N}.
Arguments mouseY {N}.
Arguments xOffset {N}.
Arguments yOffset {N}.

(** [Collection.prototype], on the [items] array.  A method that changes
    [this.items] returns the new array (with the returned value, if any). *)
Module Items.
Section Methods.
Context {N : Type} `{Number N}.

(** [Collection#overlaps]: some item overlaps the Box. *)
Fixpoint overlaps (items : list (Box.t N)) (box : Box.t N) : bool :=
  match items with
  | [] => false
  | item :: rest => if Box.overlaps item box then true else overlaps rest box
  end.

(** [items.splice(i, 1)]. *)
Definition splice1 (i : nat) (items : list (Box.t N)) : list (Box.t N) :=
  firstn i items ++ skipn (S i) items.

(** The iterations [i = n - 1, ..., 0] of [Collection#forEach] for a
    callback [f] without effects: an item for which [f] is truthy is
    spliced out.  ([items[i]] is always defined: [i] is below the length.) *)
Fixpoint forEachFrom (f : Box.t N -> bool) (n : nat) (items : list (Box.t N))
    : list (Box.t N) :=
  match n with
  | O => items
  | S i =>
    let items :=
      match nth_error items i with
      | Some item => if f item then splice1 i items else items
      | None => items
      end in
    forEachFrom f i items
  end.

Definition forEach (f : Box.t N -> bool) (items : list (Box.t N))
    : list (Box.t N) :=
  forEachFrom f (List.length items) items.

(** [Collection#add] returns the new number of items. *)
Definition add (item : Box.t N) (items : list (Box.t N))
    : list (Box.t N) * nat :=
  (items ++ [item], S (List.length items)).

(** [Collection#removeLast]: [Array#pop]; [None] for [undefined]. *)
Definition removeLast (items : list (Box.t N))
    : list (Box.t N) * option (Box.t N) :=
  match rev items with
  | [] => ([], None)
  | item :: front => (rev front, Some item)
  end.

Definition count (items : list (Box.t N)) : nat := List.length items.
End Methods.
End Items.

(** The cell methods of [TileMap], on its [grid].  Rows and columns are
    integers; a lookup out of the array is [undefined] ([None]), a blank
    cell is [null] ([Some None]). *)
Module Tiles.
Section Methods.
Context {N : Type}.

Definition index {A : Type} (l : list A) (i : Z) : option A :=
  if (i <? 0)%Z then None else nth_error l (Z.to_nat i).

(** [l[i] = v] for an index inside the array. *)
Fixpoint assign {A : Type} (l : list A) (i : nat) (v : A) : list A :=
  match l, i with
  | [], _ => []
  | _ :: rest, O => v :: rest
  | c :: rest, S j => c :: assign rest j v
  end.

Definition getCell (grid : list (list (option (Box.t N)))) (row col : Z)
    : option (option (Box.t N)) :=
  match index grid row with
  | Some r => index r col
  | None => None
  end.

Definition setCell (grid : list (list (option (Box.t N)))) (row col : Z)
    (obj : option (Box.t N)) : list (list (option (Box.t N))) :=
  match index grid row with
  | Some r =>
    match index r col with
    | Some _ =>
      assign grid (Z.to_nat row) (assign r (Z.to_nat col) obj)
    | None => grid
    end
  | None => grid
  end.

Definition clearCell (grid : list (list (option (Box.t N)))) (row col : Z)
    : list (list (option (Box.t N))) :=
  setCell grid row col None.

Definition getRows (grid : list (list (option (Box.t N)))) : nat :=
  List.length grid.

Definition getCols (grid : list (list (option (Box.t N)))) : nat :=
  match grid with
  | [] => O
  | r :: _ => List.length r
  end.
End Methods.
End Tiles.

Section Rest.
Context {N : Type} `{Number N}.
Local Open Scope num_scope.

(** [Box#collides]: the first item that overlaps, [None] for [false]. *)
Fixpoint firstOverlap (this : Box.t N) (items : list (Box.t N))
    : option (Box.t N) :=
  match items with
  | [] => None
  | item :: rest =>
    if Box.overlaps this item then Some item else firstOverlap this rest
  end.

Definition collides (this : Box.t N) (collideWith : Obstacles N)
    : option (Box.t N) :=
  match collideWith with
  | OneBox b => if Box.overlaps this b then Some b else None
  | _ => firstOverlap this (getAll collideWith)
  end.

(** [World#isInWorld]. *)
Definition isInWorld (w : World.t N) (box : Box.t N) (partial : bool)
    : bool :=
  if partial then
    (Box.x box + Box.width box >=? ofZ 0) && (Box.x box <=? World.width w)
    && (Box.y box + Box.height box >=? ofZ 0)
    && (Box.y box <=? World.height w)
  else
    (Box.x box >=? ofZ 0) && (Box.x box + Box.width box <=? World.width w)
    && (Box.y box >=? ofZ 0)
    && (Box.y box + Box.height box <=? World.height w).

(** [Actor#release]. *)
Definition release (env : Env N) (releasedDirections : list string)
    (a : Actor N) : Actor N :=
  match keys env with
  | Some keys =>
    if GRAVITY a && anyIn (Keys.up keys) releasedDirections
    then set_jumpKeyDown false a
    else a
  | None => a
  end.

(** The tolerance [0.000001] of [update]. *)
Definition stillTolerance : N := ofZ 1 / ofZ 1000000.

(** [Actor#update].  ([updateAnimation], called before the damping, only
    switches the sequence of the sprite: see [updateAnimation] below.) *)
Definition update (env : Env N) (p : Pointer N)
    (direction : option (list string)) (a : Actor N) : Actor N :=
  let a := set_lastX (x a) a in
  let a := set_lastY (y a) a in
  let a :=
    if isBeingDragged p then
      let a := set_x (mouseX p + xOffset p - width a / ofZ 2) a in
      set_y (mouseY p + yOffset p - height a / ofZ 2) a
    else
      let a := processInput env direction a in
      let a := ambientAcceleration a in
      let a := move env a in
      if almostEqual (lastX a) (x a) stillTolerance
      then set_fallLeft None a
      else a in
  dampVelocity env a.

(** [Actor#useAnimation]: the first of the names that the SpriteMap
    defines ([maps] lists the names it defines), [None] for [false]. *)
Fixpoint useAnimation (maps : list string) (names : list string)
    : option string :=
  match names with
  | [] => None
  | name :: rest =>
    if existsb (String.eqb name) maps then Some name
    else useAnimation maps rest
  end.

Local Open Scope string_scope.

(** [Actor#updateAnimation] for an Actor whose [src] is a SpriteMap: the
    names it passes to [useAnimation].  [shoot] is [keys.shoot]. *)
Definition updateAnimation (env : Env N) (shoot : option (list string))
    (p : Pointer N) (a : Actor N) : list string :=
  let given (pick : Keys.t -> list string) (dirs : list string) :=
    match keys env with
    | Some ks => anyIn (pick ks) dirs
    | None => false
    end in
  let lastDirection :=
    match keys env, shoot with
    | Some _, Some shootKeys =>
      if anyIn shootKeys (lastDirection a) then lastLooked a
      else lastDirection a
    | _, _ => lastDirection a
    end in
  let sideways (right left straight : string) :=
    if ltb (lastX a) (x a) then [right; "stand"]
    else if ltb (x a) (lastX a) then [left; "stand"]
    else [straight; "stand"] in
  let looking (right left straight : string) :=
    if given Keys.right lastDirection then [right; "stand"]
    else if given Keys.left lastDirection then [left; "stand"]
    else [straight; "stand"] in
  (if isBeingDragged p then ["drag"; "stand"]
   else if isInAir a then
     if ltb (lastX a) (x a) then ["jumpRight"; "lookRight"; "stand"]
     else if ltb (x a) (lastX a) then ["jumpLeft"; "lookLeft"; "stand"]
     else if isJumping a then ["jump"; "stand"]
     else ["fall"; "stand"]
   else if ltb (lastY a) (y a) then sideways "downRight" "downLeft" "down"
   else if ltb (y a) (lastY a) then sideways "upRight" "upLeft" "up"
   else if ltb (lastX a) (x a) then ["right"; "stand"]
   else if ltb (x a) (lastX a) then ["left"; "stand"]
   else if given Keys.up lastDirection then
     looking "lookUpRight" "lookUpLeft" "lookUp"
   else if given Keys.down lastDirection then
     looking "lookDownRight" "lookDownLeft" "lookDown"
   else if given Keys.right lastDirection then ["lookRight"; "stand"]
   else if given Keys.left lastDirection then ["lookLeft"; "stand"]
   else ["stand"]).
End Rest.

(** ** Vocabulary of the properties *)

(** What a method that scans the array of [getAll] does: it returns, or it
    throws the TypeError of reading a property of [undefined]. *)
Inductive Outcome (A : Type) : Type :=
| Returns (v : A)
| Throws.
Arguments Returns {A}.
Arguments Throws {A}.

Section Vocabulary.
Context {N : Type} `{Number N}.
Local Open Scope num_scope.

(** The local variables [left] and [right] of [processInput]. *)
Definition leftGiven (ks : Keys.t) (dirs : list string) : bool :=
  anyIn (Keys.left ks) dirs.

Definition rightGiven (ks : Keys.t) (dirs : list string) : bool :=
  negb (anyIn (Keys.left ks) dirs) && anyIn (Keys.right ks) dirs.

(** The eligibility rule as the specification words it. *)
Definition jumpAccepted (env : Env N) (a : Actor N) : bool :=
  (negb (inAir a)
   || (Z.of_nat (numJumps a) <? MULTI_JUMP a)%Z
   || (MULTI_JUMP a =? -1)%Z)
  && (physicsTimeElapsed env - lastJump a >? JUMP_DELAY a)
  && (negb (JUMP_RELEASE a) || negb (jumpKeyDown a)).

(** [Actor#init] after [Box#init], the four arguments given and truthy
    (not 0): the fields take the defaults of the prototype. *)
Definition init (x y w h : N) : Actor N := {|
  x := x; y := y; width := w; height := h;
  lastX := x; lastY := y;
  MOVEAMOUNT := ofZ 400;
  GRAVITY := false;
  G_CONST := ofZ 21;
  JUMP_VEL := ofZ 500;
  JUMP_DELAY := ofZ 1 / ofZ 4;
  AIR_CONTROL := ofZ 1 / ofZ 4;
  JUMP_RELEASE := false;
  MULTI_JUMP := 0;
  CONTINUOUS_MOVEMENT := false;
  STAY_IN_WORLD := true;
  DAMPING_FACTOR := None;
  lastLooked := [];
  xVelocity := ofZ 0; yVelocity := ofZ 0;
  xAcceleration := ofZ 0; yAcceleration := ofZ 0;
  lastJump := ofZ 0;
  lastDirection := [];
  jumpDirection := JumpDirection.mk false false;
  jumpKeyDown := false;
  numJumps := 0;
  inAir := false;
  fallLeft := None
|}.

(** Sample globals: the arrow keys, a 1000 x 500 world, ten seconds of
    physics time elapsed and the given frame time. *)
Definition arrowKeys : Keys.t :=
  Keys.mk ["up"%string] ["down"%string] ["left"%string] ["right"%string].

Definition sampleEnv (delta : N) : Env N := {|
  keys := Some arrowKeys;
  world := World.mk (ofZ 1000) (ofZ 500);
  physicsTimeElapsed := ofZ 10;
  physicsDelta := delta
|}.





(** "The Actor rests exactly on the world floor with STAY_IN_WORLD". *)
Definition restsOnWorldFloor (env : Env N) (a : Actor N) : bool :=
  (y a + height a =? World.height (world env)) && STAY_IN_WORLD a.

(** Where the resolution of an axis puts the Actor, as the specification
    words it: left of the other Box when the centre of the Actor is less
    than the centre of the Box and right of it otherwise; above the Box
    when the centre is less than or equal to the centre of the Box and
    below it otherwise. *)
Definition sideX (a : Actor N) (other : Box.t N) : N :=
  if Box.xC (boxOf a) <? Box.xC other
  then Box.x other - width a - ofZ 1
  else Box.x other + Box.width other + ofZ 1.

Definition sideY (a : Actor N) (other : Box.t N) : N :=
  if Box.yC (boxOf a) <=? Box.yC other
  then Box.y other - height a - ofZ 1
  else Box.y other + Box.height other + ofZ 1.

(** The array that [TileMap#getAll] builds, entry by entry: for every outer
    array [grid[i]] and every [j] below the length of the first one,
    [grid[i][j]] is pushed unless it is [null].  [None] is an [undefined]:
    the cell that an outer array shorter than the first one lacks. *)
Definition TileMap_getAll_entries (grid : list (list (option (Box.t N))))
    : list (option (Box.t N)) :=
  let h := Tiles.getCols grid in
  flat_map
    (fun r =>
       flat_map (fun j => match nth_error r j with
                          | Some (Some b) => [Some b]
                          | Some None => []
                          | None => [None]
                          end)
                (seq 0 h))
    grid.


(** No outer array is shorter than the first one. *)
Definition noShortRow (grid : list (list (option (Box.t N)))) : bool :=
  forallb (fun r => Nat.leb (Tiles.getCols grid) (List.length r)) grid.

(** What [getAll] returns holds no [undefined]: always so for a Box or a
    Collection of Boxes, and for a TileMap when no outer array is shorter
    than the first one. *)
Definition allDefined (obstacles : Obstacles N) : bool :=
  match obstacles with
  | TileMap grid => noShortRow grid
  | _ => true
  end.

(** The array of [getAll] for each kind of obstacles; a Collection holds
    Boxes. *)
Definition getAll_entries (obstacles : Obstacles N)
    : list (option (Box.t N)) :=
  match obstacles with
  | OneBox b => [Some b]
  | Collection items => map Some items
  | TileMap grid => TileMap_getAll_entries grid
  end.



(** The loop of [collideSolid] on the array: [_collideSolidBox(items[i])]
    starts with [this.overlaps(items[i])]. *)
Fixpoint collideItems_entries (entries : list (option (Box.t N)))
    (s : Actor N * bool * bool) : Outcome (Actor N * bool * bool) :=
  match entries with
  | [] => Returns s
  | None :: _ => Throws
  | Some item :: rest => collideItems_entries rest (collideStep s item)
  end.

Definition collideSolid_entries (env : Env N) (a : Actor N)
    (collideWith : Obstacles N) : Outcome (Actor N * bool) :=
  let falling := fallingSeed env a in
  let scanned :=
    match collideWith with
    | OneBox b =>
      let '(a, result) := _collideSolidBox a b in
      Returns (a, Collision.falling result, Collision.collided result)
    | _ => collideItems_entries (getAll_entries collideWith)
                                (a, falling, false)
    end in
  match scanned with
  | Returns (a, falling, collided) =>
    Returns (if falling then startFalling a else a, collided)
  | Throws => Throws
  end.

(** The Actor in [move] just before the clip ([stayInWorld]). *)
Definition beforeClip (env : Env N) (a : Actor N) : Actor N :=
  let a := applyHalfAcceleration env a in
  let a := capDiagonalSpeed a in
  let a := applyThrust env a in
  applyHalfAcceleration env a.
End Vocabulary.

(** "Standing" as the specification words it, over the reals: the
    horizontal ranges overlap and the bottom of the Actor is within one
    pixel of the top of the Box. *)
Definition standsOn (a : Actor R) (box : Box.t R) : Prop :=
  ((x a + width a >= Box.x box)%R /\
   (Box.x box + Box.width box >= x a)%R) /\
  (Rabs (y a + height a - Box.y box) <= 1)%R.

(** ** Vocabulary of the further properties *)

Section Vocabulary2.
Context {N : Type}.

(** On the ground no jump is counted. *)
Definition groundedHasNoJumps (a : Actor N) : Prop :=
  inAir a = false -> numJumps a = O.

(** At most max(1, MULTI_JUMP) jumps are counted, unless MULTI_JUMP is -1. *)
Definition jumpsBounded (a : Actor N) : Prop :=
  MULTI_JUMP a = (-1)%Z \/
  (Z.of_nat (numJumps a) <= Z.max 1 (MULTI_JUMP a))%Z.

(** How a method other than a jump may change the airborne state: the
    jump counter is reset ([stopFalling]) or kept, and when it is kept the
    Actor stays where it is or leaves the ground ([startFalling]). *)
Definition airStep (a a' : Actor N) : Prop :=
  MULTI_JUMP a' = MULTI_JUMP a /\
  (numJumps a' = O \/
   (numJumps a' = numJumps a /\ (inAir a' = inAir a \/ inAir a' = true))).

(** How [processInput] may change the airborne state: not at all, or by a
    jump that the first guard allows. *)
Definition jumpStep (a a' : Actor N) : Prop :=
  MULTI_JUMP a' = MULTI_JUMP a /\
  ((inAir a' = inAir a /\ numJumps a' = numJumps a) \/
   (mayJump a = true /\ inAir a' = true /\ numJumps a' = S (numJumps a))).

(** What no step of a frame writes: the look-back position, the size and
    the settings. *)
Definition sameSetup (a a' : Actor N) : Prop :=
  lastX a' = lastX a /\ lastY a' = lastY a /\
  width a' = width a /\ height a' = height a /\
  GRAVITY a' = GRAVITY a /\ DAMPING_FACTOR a' = DAMPING_FACTOR a /\
  STAY_IN_WORLD a' = STAY_IN_WORLD a /\ MOVEAMOUNT a' = MOVEAMOUNT a /\
  MULTI_JUMP a' = MULTI_JUMP a /\
  CONTINUOUS_MOVEMENT a' = CONTINUOUS_MOVEMENT a /\
  JUMP_RELEASE a' = JUMP_RELEASE a.

(** A key bound to "left" or to "right". *)
Definition isSideKey (ks : Keys.t) (d : string) : bool :=
  existsb (String.eqb d) (Keys.left ks)
  || existsb (String.eqb d) (Keys.right ks).
End Vocabulary2.

(** An Actor at rest on top of a Box, over the reals: under GRAVITY, on the
    ground, without velocity, acceleration or remembered motion, where it
    was a frame ago, standing on the Box without touching it (the gap of
    one pixel that [moveOutside] leaves) and inside the world. *)
Definition atRestOn (env : Env R) (a : Actor R) (box : Box.t R) : Prop :=
  GRAVITY a = true /\ CONTINUOUS_MOVEMENT a = false /\
  inAir a = false /\ numJumps a = O /\ fallLeft a = None /\
  xVelocity a = 0%R /\ yVelocity a = 0%R /\
  xAcceleration a = 0%R /\ yAcceleration a = 0%R /\
  lastX a = x a /\ lastY a = y a /\
  standsOn a box /\ (y a + height a < Box.y box)%R /\
  isInWorld (world env) (boxOf a) false = true.

(** One frame of a game loop for an Actor that is not dragged and is given
    no direction: [update], then [collideSolid] with the solids. *)
Definition frame (env : Env R) (solids : Obstacles R) (a : Actor R)
    : Actor R :=
  let p := {| isBeingDragged := false; mouseX := 0%R; mouseY := 0%R;
              xOffset := 0%R; yOffset := 0%R |} in
  fst (collideSolid env (update env p None a) solids).

(** * Properties *)

(** ** Jumping *)

Section JumpFacts.
Context {N : Type} `{Number N}.
Local Open Scope num_scope.

Lemma jumpAccepted_guards (env : Env N) (a : Actor N) :
  jumpAccepted env a = mayJump a && mayJumpNow env a.
Proof.
  unfold jumpAccepted, mayJump, mayJumpNow, isInAir.
  rewrite Z.gtb_ltb, andb_assoc. reflexivity.
Qed.

(** The horizontal block leaves alone everything the jump looks at. *)
Lemma processHorizontal_frame (ks : Keys.t) (dirs : list string)
    (a : Actor N) :
  let a1 := fst (processHorizontal ks dirs a) in
  GRAVITY a1 = GRAVITY a /\ inAir a1 = inAir a /\
  numJumps a1 = numJumps a /\ MULTI_JUMP a1 = MULTI_JUMP a /\
  lastJump a1 = lastJump a /\ JUMP_DELAY a1 = JUMP_DELAY a /\
  JUMP_RELEASE a1 = JUMP_RELEASE a /\ jumpKeyDown a1 = jumpKeyDown a /\
  yVelocity a1 = yVelocity a /\ JUMP_VEL a1 = JUMP_VEL a.
Proof.
  unfold processHorizontal, isInAir.
  destruct (anyIn (Keys.left ks) dirs), (anyIn (Keys.right ks) dirs),
    (GRAVITY a) eqn:Eg, (inAir a) eqn:Ei,
    (JumpDirection.right (jumpDirection a)),
    (JumpDirection.left (jumpDirection a));
    cbn; rewrite ?Eg, ?Ei; cbn; repeat split; assumption || reflexivity.
Qed.

Lemma processHorizontal_flags (ks : Keys.t) (dirs : list string)
    (a : Actor N) :
  snd (processHorizontal ks dirs a)
  = (leftGiven ks dirs, rightGiven ks dirs,
     leftGiven ks dirs || rightGiven ks dirs).
Proof.
  unfold processHorizontal, leftGiven, rightGiven.
  destruct (anyIn (Keys.left ks) dirs), (anyIn (Keys.right ks) dirs);
    reflexivity.
Qed.

(** [processLooked] only writes [lastLooked]. *)
Lemma processLooked_frame (ks : Keys.t) (dirs : list string) (looked : bool)
    (a : Actor N) :
  let a1 := processLooked ks dirs looked a in
  yVelocity a1 = yVelocity a /\ lastJump a1 = lastJump a /\
  numJumps a1 = numJumps a /\ inAir a1 = inAir a /\
  jumpDirection a1 = jumpDirection a.
Proof.
  unfold processLooked. destruct looked; cbn; repeat split; reflexivity.
Qed.
End JumpFacts.

Section Jump.
Context {N : Type} `{Number N}.
Local Open Scope num_scope.

(** What [processInput] does with an "up" key under gravity, in terms of
    the two guards of the source. *)
Lemma processInput_up (env : Env N) (ks : Keys.t)
    (direction : option (list string)) (dirs : list string) (a : Actor N) :
  keys env = Some ks ->
  directionsUsed direction a = Some dirs ->
  anyIn (Keys.up ks) dirs = true ->
  GRAVITY a = true ->
  let a' := processInput env direction a in
  if mayJump a && mayJumpNow env a then
    yVelocity a' = - JUMP_VEL a /\
    lastJump a' = physicsTimeElapsed env /\
    numJumps a' = S (numJumps a) /\
    inAir a' = true /\
    jumpDirection a'
    = JumpDirection.mk (rightGiven ks dirs) (leftGiven ks dirs)
  else
    yVelocity a' = yVelocity a /\
    lastJump a' = lastJump a /\
    numJumps a' = numJumps a.
Proof.
  intros Hk Hd Hup Hg a'. subst a'. unfold processInput.
  rewrite Hk, Hd.
  pose proof (processHorizontal_frame ks dirs (set_lastDirection dirs a)) as F.
  pose proof (processHorizontal_flags ks dirs (set_lastDirection dirs a)) as G.
  destruct (processHorizontal ks dirs (set_lastDirection dirs a)) as [a1 fl].
  cbn [fst snd] in F, G. subst fl. cbn [fst snd].
  destruct F as (F1 & F2 & F3 & F4 & F5 & F6 & F7 & F8 & F9 & F10).
  cbn in F1, F2, F3, F4, F5, F6, F7, F8, F9, F10.
  assert (Hj : mayJump a1 = mayJump a)
    by (unfold mayJump, isInAir; rewrite F2, F3, F4; reflexivity).
  assert (Hn : mayJumpNow env a1 = mayJumpNow env a)
    by (unfold mayJumpNow; rewrite F5, F6, F7, F8; reflexivity).
  unfold processVertical. rewrite Hup, F1, Hg. cbn [negb].
  rewrite Hj, Hn.
  destruct (mayJump a); cbn [andb].
  - destruct (mayJumpNow env a).
    + match goal with
      | |- context [processLooked ks dirs ?l ?b] =>
          destruct (processLooked_frame ks dirs l b) as (L1 & L2 & L3 & L4 & L5)
      end.
      rewrite L1, L2, L3, L4, L5. cbn. rewrite F10, F3. auto.
    + match goal with
      | |- context [processLooked ks dirs ?l ?b] =>
          destruct (processLooked_frame ks dirs l b) as (L1 & L2 & L3 & L4 & L5)
      end.
      rewrite L1, L2, L3. cbn. auto.
  - match goal with
    | |- context [processLooked ks dirs ?l ?b] =>
        destruct (processLooked_frame ks dirs l b) as (L1 & L2 & L3 & L4 & L5)
    end.
    rewrite L1, L2, L3. cbn. auto.
Qed.

(** C1: with GRAVITY enabled an "up" input is accepted (the jump counter
    goes up) if and only if (the Actor is not in the air, or numJumps <
    MULTI_JUMP, or MULTI_JUMP = -1) and the physics time elapsed since
    lastJump exceeds JUMP_DELAY and (JUMP_RELEASE is off or the jump key is
    up).  On acceptance yVelocity is -JUMP_VEL, lastJump is the current
    time, numJumps is incremented, inAir is set and jumpDirection records
    the horizontal input; on rejection yVelocity and lastJump are
    unchanged. *)
Theorem jump_accepted_iff (env : Env N) (ks : Keys.t)
    (direction : option (list string)) (dirs : list string) (a : Actor N) :
  keys env = Some ks ->
  directionsUsed direction a = Some dirs ->
  anyIn (Keys.up ks) dirs = true ->
  GRAVITY a = true ->
  let a' := processInput env direction a in
  (numJumps a' = S (numJumps a) <-> jumpAccepted env a = true) /\
  (jumpAccepted env a = true ->
     yVelocity a' = - JUMP_VEL a /\
     lastJump a' = physicsTimeElapsed env /\
     numJumps a' = S (numJumps a) /\
     inAir a' = true /\
     JumpDirection.left (jumpDirection a') = leftGiven ks dirs /\
     JumpDirection.right (jumpDirection a') = rightGiven ks dirs) /\
  (jumpAccepted env a = false ->
     yVelocity a' = yVelocity a /\ lastJump a' = lastJump a).
Proof.
  intros Hk Hd Hup Hg a'.
  pose proof (processInput_up env direction a Hk Hd Hup Hg) as P.
  fold a' in P. cbv zeta in P.
  rewrite jumpAccepted_guards.
  destruct (mayJump a && mayJumpNow env a).
  - destruct P as (P1 & P2 & P3 & P4 & P5).
    repeat split; auto; try discriminate; rewrite P5; reflexivity.
  - destruct P as (P1 & P2 & P3).
    repeat split; auto; try discriminate.
    rewrite P3. intros E. exfalso. clear - E. induction (numJumps a).
    + discriminate.
    + injection E as E. auto.
Qed.
End Jump.

(** A second press of "up" in the air with MULTI_JUMP = 1 and one jump
    already made changes neither the vertical velocity nor lastJump. *)
Lemma jump_accepted_iff_witness :
  let a : Actor Q :=
    set_yVelocity (-(120)) (set_lastJump 9 (set_numJumps 1 (set_inAir true
      (set_MULTI_JUMP 1 (set_GRAVITY true (init 5 5 10 10)))))) in
  let a' := processInput (sampleEnv (1 # 60)) (Some ["up"%string]) a in
  jumpAccepted (sampleEnv (1 # 60)) a = false /\
  yVelocity a' = yVelocity a /\ lastJump a' = lastJump a.
Proof.
  intros a a'. split; [reflexivity|].
  apply (jump_accepted_iff (sampleEnv (1 # 60)) (ks := arrowKeys)
           (Some ["up"%string]) (dirs := ["up"%string]) a);
    reflexivity.
Defined.

(** ** Walking off a ledge *)

Section Ledge.
Context {N : Type} `{Number N}.
Local Open Scope num_scope.

Lemma ambientAcceleration_xVelocity (b : Actor N) :
  GRAVITY b = true -> inAir b = true ->
  xVelocity (ambientAcceleration b)
  = if JumpDirection.left (jumpDirection b) then - MOVEAMOUNT b
    else if JumpDirection.right (jumpDirection b) then MOVEAMOUNT b
    else xVelocity b.
Proof.
  intros Hg Hi. unfold ambientAcceleration, isInAir. rewrite Hg, Hi. cbn.
  destruct (JumpDirection.left (jumpDirection b)),
    (JumpDirection.right (jumpDirection b)); reflexivity.
Qed.

(** Without directions (and without CONTINUOUS_MOVEMENT) the input step
    does nothing. *)
Lemma processInput_no_direction (env : Env N) (a : Actor N) :
  CONTINUOUS_MOVEMENT a = false -> processInput env None a = a.
Proof.
  intros Hc. unfold processInput, directionsUsed. rewrite Hc.
  destruct (keys env); reflexivity.
Qed.

(** C6: when a grounded Actor (inAir = false) with a recorded horizontal
    motion (fallLeft set) starts falling, jumpDirection takes the direction
    it was moving in, inAir becomes true and numJumps is unchanged; from
    then on every airborne step under GRAVITY (ambientAcceleration) sets the
    horizontal velocity to -MOVEAMOUNT or +MOVEAMOUNT from that
    jumpDirection; so does the very next step when no direction is given. *)
Theorem ledge_walk_off_momentum (env : Env N) (a : Actor N)
    (movingLeft : bool) :
  inAir a = false ->
  fallLeft a = Some movingLeft ->
  let a' := startFalling a in
  JumpDirection.left (jumpDirection a') = movingLeft /\
  JumpDirection.right (jumpDirection a') = negb movingLeft /\
  inAir a' = true /\
  numJumps a' = numJumps a /\
  (forall b : Actor N,
     GRAVITY b = true -> inAir b = true ->
     jumpDirection b = jumpDirection a' ->
     xVelocity (ambientAcceleration b)
     = if movingLeft then - MOVEAMOUNT b else MOVEAMOUNT b) /\
  (GRAVITY a = true -> CONTINUOUS_MOVEMENT a = false ->
   xVelocity (ambientAcceleration (processInput env None a'))
   = if movingLeft then - MOVEAMOUNT a else MOVEAMOUNT a).
Proof.
  intros Hi Hf a'.
  assert (Hj : jumpDirection a' = JumpDirection.mk (negb movingLeft) movingLeft)
    by (subst a'; unfold startFalling; rewrite Hi, Hf; reflexivity).
  assert (Hframe : inAir a' = true /\ numJumps a' = numJumps a /\
                   GRAVITY a' = GRAVITY a /\ MOVEAMOUNT a' = MOVEAMOUNT a /\
                   CONTINUOUS_MOVEMENT a' = CONTINUOUS_MOVEMENT a)
    by (subst a'; unfold startFalling; rewrite Hi, Hf; repeat split).
  destruct Hframe as (Fi & Fn & Fg & Fm & Fc).
  assert (Hstep : forall b : Actor N,
             GRAVITY b = true -> inAir b = true ->
             jumpDirection b = jumpDirection a' ->
             xVelocity (ambientAcceleration b)
             = if movingLeft then - MOVEAMOUNT b else MOVEAMOUNT b).
  { intros b Hg Hb Hjb. rewrite ambientAcceleration_xVelocity by assumption.
    rewrite Hjb, Hj. cbn. destruct movingLeft; reflexivity. }
  rewrite Hj. cbn [JumpDirection.left JumpDirection.right].
  split; [reflexivity|]. split; [reflexivity|]. split; [exact Fi|].
  split; [exact Fn|]. split; [rewrite <- Hj; exact Hstep|].
  intros Hg Hc. rewrite processInput_no_direction by (rewrite Fc; exact Hc).
  rewrite Hstep, Fm; auto. rewrite Fg. exact Hg.
Qed.
End Ledge.

(** Walking right off a ledge: the next airborne step moves at MOVEAMOUNT. *)
Lemma ledge_walk_off_momentum_witness :
  let a : Actor Q :=
    set_fallLeft (Some false) (set_GRAVITY true (init 81 70 20 30)) in
  JumpDirection.right (jumpDirection (startFalling a)) = true /\
  isFalling (startFalling a) = true /\
  xVelocity (ambientAcceleration
               (processInput (sampleEnv (1 # 60)) None (startFalling a)))
  = 400.
Proof.
  intros a.
  destruct (ledge_walk_off_momentum (sampleEnv (1 # 60)) a
              (movingLeft := false))
    as (_ & Hr & _ & _ & _ & Hv); [reflexivity | reflexivity |].
  split; [exact Hr|]. split; [reflexivity|].
  apply Hv; reflexivity.
Defined.

(** ** Damping *)

Section Damping.
Context {N : Type} `{Number N}.
Local Open Scope num_scope.

(** C7, amended: with a DAMPING_FACTOR and a horizontal velocity that is
    not within 0.0001 of zero, xVelocity is multiplied by
    (1 - DAMPING_FACTOR * dt); yVelocity is left alone under GRAVITY and
    otherwise multiplied by the same factor unless it is within 0.0001 of
    zero (then it is left alone).  With a DAMPING_FACTOR and a horizontal
    velocity within 0.0001 of zero, xVelocity is set to zero.  With no
    DAMPING_FACTOR, xVelocity is set to zero, and so is yVelocity unless
    GRAVITY is on, in which case it is left alone. *)
Theorem dampVelocity_cases (env : Env N) (a : Actor N) :
  let a' := dampVelocity env a in
  let nearZero v := almostEqual v (ofZ 0) (ofZ 1 / ofZ 10000) in
  (forall damping : N,
     DAMPING_FACTOR a = Some damping ->
     nearZero (xVelocity a) = false ->
     let factor := ofZ 1 - damping * physicsDelta env in
     xVelocity a' = xVelocity a * factor /\
     (GRAVITY a = true -> yVelocity a' = yVelocity a) /\
     (GRAVITY a = false ->
        yVelocity a'
        = if nearZero (yVelocity a) then yVelocity a
          else yVelocity a * factor)) /\
  (forall damping : N,
     DAMPING_FACTOR a = Some damping ->
     nearZero (xVelocity a) = true ->
     xVelocity a' = ofZ 0 /\
     (GRAVITY a = true -> yVelocity a' = yVelocity a)) /\
  (DAMPING_FACTOR a = None ->
     xVelocity a' = ofZ 0 /\
     (GRAVITY a = true -> yVelocity a' = yVelocity a) /\
     (GRAVITY a = false -> yVelocity a' = ofZ 0)).
Proof.
  intros a' nearZero. subst a' nearZero. unfold dampVelocity, dampTolerance.
  split; [| split].
  - intros damping Hd Hx. rewrite Hd, Hx. cbn.
    destruct (GRAVITY a); cbn.
    + repeat split; intros; first [reflexivity | congruence].
    + destruct (almostEqual (yVelocity a) _ _); cbn;
        repeat split; intros; first [reflexivity | congruence].
  - intros damping Hd Hx. rewrite Hd, Hx. cbn.
    destruct (GRAVITY a); cbn;
      repeat split; intros; first [reflexivity | congruence].
  - intros Hd. rewrite Hd. cbn.
    destruct (GRAVITY a); cbn;
      repeat split; intros; first [reflexivity | congruence].
Qed.
End Damping.

(** A damped top-down Actor sliding at (300, 100) with factor 1 and
    dt = 1/2: both components are halved. *)
Lemma dampVelocity_cases_witness :
  let a : Actor Q :=
    set_yVelocity 100 (set_xVelocity 300
      (set_DAMPING_FACTOR (Some 1) (init 5 5 10 10))) in
  let a' := dampVelocity (sampleEnv (1 # 2)) a in
  xVelocity a' = 300 * (1 - 1 * (1 # 2)) /\
  yVelocity a' = 100 * (1 - 1 * (1 # 2)).
Proof.
  intros a a'.
  destruct (dampVelocity_cases (sampleEnv (1 # 2)) a) as (Hd & _ & _).
  destruct (Hd 1 eq_refl eq_refl) as (Hx & _ & Hy).
  split; [exact Hx | exact (Hy eq_refl)].
Defined.

(** C7 as stated fails: with DAMPING_FACTOR = 1 and dt = 1/2 a velocity of
    (1/20000, 100) without gravity is not multiplied by 1/2: both
    components are set to zero. *)
Lemma dampVelocity_not_always_scaled :
  let a : Actor Q :=
    set_yVelocity 100 (set_xVelocity (1 # 20000)
      (set_DAMPING_FACTOR (Some 1) (init 5 5 10 10))) in
  let a' := dampVelocity (sampleEnv (1 # 2)) a in
  DAMPING_FACTOR a = Some 1 /\ GRAVITY a = false /\
  xVelocity a' = 0 /\ yVelocity a' = 0 /\
  ~ (xVelocity a' == xVelocity a * (1 - 1 * (1 # 2))) /\
  ~ (yVelocity a' == yVelocity a * (1 - 1 * (1 # 2))).
Proof.
  cbv zeta. repeat split; vm_compute; discriminate.
Qed.

(** ** MULTI_JUMP zero and one *)

Section MultiJump.
Context {N : Type} `{Number N}.
Local Open Scope num_scope.

(** Where the two settings agree: on the ground, or once a jump was made. *)
Lemma mayJump_zero_one (a : Actor N) :
  inAir a = false \/ (1 <= numJumps a)%nat ->
  mayJump (set_MULTI_JUMP 0 a) = mayJump (set_MULTI_JUMP 1 a).
Proof.
  unfold mayJump, isInAir. cbn. intros [Hi | Hn].
  - rewrite Hi. reflexivity.
  - rewrite !Z.gtb_ltb.
    replace (Z.of_nat (numJumps a) <? 0)%Z with false
      by (symmetry; apply Z.ltb_ge; lia).
    replace (Z.of_nat (numJumps a) <? 1)%Z with false
      by (symmetry; apply Z.ltb_ge; lia).
    reflexivity.
Qed.

(** Where they differ: in the air with no jump made (after walking off a
    ledge) the setting 1 allows a jump and the setting 0 does not. *)
Lemma mayJump_zero_one_falling (a : Actor N) :
  inAir a = true -> numJumps a = O ->
  mayJump (set_MULTI_JUMP 0 a) = false /\
  mayJump (set_MULTI_JUMP 1 a) = true.
Proof.
  unfold mayJump, isInAir. cbn. intros Hi Hn. rewrite Hi, Hn. split; reflexivity.
Qed.
End MultiJump.

(** C10 at a falling Actor (GRAVITY on, in the air since [startFalling],
    no jump made): pressing "up" is ignored with MULTI_JUMP = 0 and starts
    a jump with MULTI_JUMP = 1. *)
Theorem multi_jump_zero_is_not_one_when_falling :
  let a : Actor Q := startFalling (set_GRAVITY true (init 5 5 10 10)) in
  let zero := processInput (sampleEnv (1 # 60)) (Some ["up"%string])
                (set_MULTI_JUMP 0 a) in
  let one := processInput (sampleEnv (1 # 60)) (Some ["up"%string])
               (set_MULTI_JUMP 1 a) in
  isFalling a = true /\
  numJumps zero = O /\ yVelocity zero = 0 /\ lastJump zero = 0 /\
  numJumps one = 1%nat /\ yVelocity one = -(500) /\ lastJump one = 10.
Proof.
  cbv zeta. repeat split.
Qed.

(** ** Moving outside of a solid *)

Section MoveOutside.
Context {N : Type} `{Number N}.
Local Open Scope num_scope.

Lemma moveOutsideX_apart (a : Actor N) (other : Box.t N) :
  Box.overlaps (boxOf a) other = false ->
  moveOutsideX a other = (a, ofZ 0).
Proof. intros Ho. unfold moveOutsideX. rewrite Ho. reflexivity. Qed.

Lemma moveOutsideY_apart (a : Actor N) (other : Box.t N) :
  Box.overlaps (boxOf a) other = false ->
  moveOutsideY a other = (a, ofZ 0).
Proof. intros Ho. unfold moveOutsideY. rewrite Ho. reflexivity. Qed.

(** The resolution of an axis for an Actor that overlaps the other Box. *)
Lemma moveOutsideX_hit (a : Actor N) (other : Box.t N) :
  Box.overlaps (boxOf a) other = true ->
  moveOutsideX a other = (set_x (sideX a other) a, sideX a other - x a).
Proof.
  intros Ho. unfold moveOutsideX, sideX, Box.xC. rewrite Ho. cbn.
  destruct (x a + width a / ofZ 2 <? _); reflexivity.
Qed.

Lemma moveOutsideY_hit (a : Actor N) (other : Box.t N) :
  Box.overlaps (boxOf a) other = true ->
  moveOutsideY a other = (set_y (sideY a other) a, sideY a other - y a).
Proof.
  intros Ho. unfold moveOutsideY, sideY, Box.yC. rewrite Ho. cbn.
  destruct (y a + height a / ofZ 2 <=? _); reflexivity.
Qed.

(** C2, amended: for overlapping boxes [moveOutside] resolves the axis of
    smaller penetration depth first and the other axis second, the X axis
    first when the depths are equal.  The first axis is moved; the second
    one is moved only if the Actor still overlaps the other Box once the
    first one is resolved, and is otherwise left alone with a displacement
    of 0.  The resolution of the X axis puts the Actor at
    other.x - width - 1 when its centre is left of (less than) the centre
    of the other Box and at other.x + other.width + 1 otherwise; that of
    the Y axis puts it at other.y - height - 1 when its centre is above or
    level with (less than or equal to) the centre of the other Box and at
    other.y + other.height + 1 otherwise.  The object returned holds how
    far each axis moved the Actor, and nothing but x and y is written. *)
Theorem moveOutside_order_and_sides (a : Actor N) (other : Box.t N) :
  Box.overlaps (boxOf a) other = true ->
  let toX := sideX a other in
  let toY := sideY a other in
  if overlapsX a other <=? overlapsY a other then
    let a1 := set_x toX a in
    if Box.overlaps (boxOf a1) other
    then moveOutside a other
         = (set_y toY a1, Moved.mk (toX - x a) (toY - y a))
    else moveOutside a other = (a1, Moved.mk (toX - x a) (ofZ 0))
  else
    let a1 := set_y toY a in
    if Box.overlaps (boxOf a1) other
    then moveOutside a other
         = (set_x toX a1, Moved.mk (toX - x a) (toY - y a))
    else moveOutside a other = (a1, Moved.mk (ofZ 0) (toY - y a)).
Proof.
  intros Ho. cbv zeta. unfold moveOutside.
  destruct (overlapsX a other <=? overlapsY a other).
  - rewrite (moveOutsideX_hit a other Ho).
    destruct (Box.overlaps (boxOf (set_x (sideX a other) a)) other) eqn:Ho1.
    + rewrite (moveOutsideY_hit _ other Ho1). reflexivity.
    + rewrite (moveOutsideY_apart _ other Ho1). reflexivity.
  - rewrite (moveOutsideY_hit a other Ho).
    destruct (Box.overlaps (boxOf (set_y (sideY a other) a)) other) eqn:Ho1.
    + rewrite (moveOutsideX_hit _ other Ho1). reflexivity.
    + rewrite (moveOutsideX_apart _ other Ho1). reflexivity.
Qed.
End MoveOutside.

(** An Actor overlapping the top-left corner of a Box by 4 on both axes is
    moved on the X axis, to the left side of the Box, and not on the Y
    axis. *)
Lemma moveOutside_order_and_sides_witness :
  let a : Actor Q := init 6 6 10 10 in
  let other : Box.t Q := Box.mk 12 12 40 40 in
  Box.overlaps (boxOf a) other = true /\
  overlapsX a other = overlapsY a other /\
  moveOutside a other
  = (set_x (12 - 10 - 1) a, Moved.mk (12 - 10 - 1 - 6) 0).
Proof.
  intros a other.
  split; [reflexivity |]. split; [reflexivity |].
  exact (moveOutside_order_and_sides a other eq_refl).
Defined.

(** C2 as stated fails on the Y axis when the centres are level: the Actor
    is put above the other Box (at other.y - height - 1 = -6), not below
    it (at other.y + other.height + 1 = 16). *)
Lemma moveOutsideY_level_centres_go_up :
  let a : Actor Q := init 5 5 10 10 in
  let other : Box.t Q := Box.mk (-(5)) 5 30 10 in
  Box.overlaps (boxOf a) other = true /\
  leb (overlapsX a other) (overlapsY a other) = false /\
  ltb (Box.yC (boxOf a)) (Box.yC other) = false /\
  y (fst (moveOutside a other)) = 5 - 10 - 1 /\
  ~ (y (fst (moveOutside a other)) == 5 + 10 + 1).
Proof.
  cbv zeta. repeat split. vm_compute. discriminate.
Qed.

(** ** The array of a TileMap *)

Section Entries.
Context {N : Type}.



(** The scan of one outer array pushes an [undefined] exactly when the
    array is shorter than the scan. *)
Lemma entries_row_undefined (r : list (option (Box.t N))) : forall n,
  In None (flat_map (fun j => match nth_error r j with
                              | Some (Some b) => [Some b]
                              | Some None => []
                              | None => [None]
                              end) (seq 0 n))
  <-> Nat.leb n (List.length r) = false.
Proof.
  intros n. rewrite Nat.leb_gt, in_flat_map. split.
  - intros (j & Hj & Hin). apply in_seq in Hj.
    destruct (nth_error r j) as [[b |] |] eqn:E.
    + destruct Hin as [Hin | []]. discriminate.
    + destruct Hin.
    + apply nth_error_None in E. lia.
  - intros Hlt. exists (List.length r). split.
    + apply in_seq. lia.
    + replace (nth_error r (List.length r))
        with (@None (option (Box.t N))).
      * left. reflexivity.
      * symmetry. apply nth_error_None. lia.
Qed.


(** The array holds an [undefined] exactly when some outer array is shorter
    than the first one. *)
Lemma getAll_entries_undefined (grid : list (list (option (Box.t N)))) :
  In None (TileMap_getAll_entries grid) <-> noShortRow grid = false.
Proof.
  unfold TileMap_getAll_entries, noShortRow.
  generalize (Tiles.getCols grid) as h. intros h.
  induction grid as [| r rows IH].
  - cbn. split; [intros [] | discriminate].
  - cbn [flat_map forallb]. rewrite in_app_iff, IH, entries_row_undefined.
    rewrite andb_false_iff. reflexivity.
Qed.


End Entries.

(** On an array without [undefined] the scans return, and return what
    [collides] and [collideSolid] compute on the list of the Boxes; the loop
    of [collideSolid], which visits every entry, throws otherwise. *)
Section Scans.
Context {N : Type} `{Number N}.




Lemma collideItems_entries_boxes (items : list (Box.t N)) :
  forall s : Actor N * bool * bool,
    collideItems_entries (map Some items) s = Returns (collideItems items s).
Proof.
  unfold collideItems.
  induction items as [| item rest IH]; intros s; [reflexivity |].
  cbn [map collideItems_entries fold_left]. apply IH.
Qed.

Lemma collideItems_entries_throws (entries : list (option (Box.t N))) :
  forall s : Actor N * bool * bool,
    collideItems_entries entries s = Throws <-> In None entries.
Proof.
  induction entries as [| e rest IH]; intros s.
  - cbn. split; [discriminate | intros []].
  - destruct e as [item |]; cbn [collideItems_entries In].
    + rewrite IH. split; [auto | intros [Hn | Hin]; [discriminate | exact Hin]].
    + split; auto.
Qed.


Lemma collideSolid_throws (env : Env N) (a : Actor N)
    (collideWith : Obstacles N) :
  collideSolid_entries env a collideWith = Throws
  <-> allDefined collideWith = false.
Proof.
  unfold collideSolid_entries.
  destruct collideWith as [b | items | grid]; cbn [allDefined getAll_entries].
  - destruct (_collideSolidBox a b) as [a1 r].
    split; discriminate.
  - rewrite collideItems_entries_boxes.
    destruct (collideItems _ _) as [[a1 f] c]. split; discriminate.
  - rewrite <- getAll_entries_undefined,
      <- (collideItems_entries_throws _ (a, fallingSeed env a, false)).
    destruct (collideItems_entries _ _) as [[[a1 f] c] |];
      split; first [discriminate | reflexivity].
Qed.
End Scans.

(** ** Collision with a set of solids *)

Section CollideSolid.
Context {N : Type} `{Number N}.
Local Open Scope num_scope.

Lemma _collideSolidBox_collided (a : Actor N) (b : Box.t N) :
  Collision.collided (snd (_collideSolidBox a b)) = Box.overlaps (boxOf a) b.
Proof.
  unfold _collideSolidBox. destruct (GRAVITY (backedOut a b)); reflexivity.
Qed.



End CollideSolid.


(** For a single Box the flag is the result for that Box alone: the seed
    is not consulted.  On the world floor, next to a Box it does not stand
    on, the Actor starts falling when given the Box itself and does not
    when given a Collection holding the Box. *)
Lemma collideSolid_single_box_on_the_floor :
  let a : Actor Q := set_GRAVITY true (init 40 470 20 30) in
  let env : Env Q := sampleEnv (1 # 60) in
  let box : Box.t Q := Box.mk 200 200 50 50 in
  restsOnWorldFloor env a = true /\
  inAir (fst (collideSolid env a (OneBox box))) = true /\
  inAir (fst (collideSolid env a (Collection [box]))) = false.
Proof.
  cbv zeta. repeat split.
Qed.


(** ** Comparisons on the reals *)

Lemma Rleb_true (a b : R) : Rleb a b = true <-> (a <= b)%R.
Proof. unfold Rleb. destruct (Rle_dec a b); split; auto; discriminate. Qed.

Lemma Rleb_false (a b : R) : Rleb a b = false <-> (b < a)%R.
Proof.
  unfold Rleb. destruct (Rle_dec a b); split; try discriminate; auto; lra.
Qed.

Lemma Rltb_true (a b : R) : Rltb a b = true <-> (a < b)%R.
Proof. unfold Rltb. destruct (Rlt_dec a b); split; auto; discriminate. Qed.

Lemma Rltb_false (a b : R) : Rltb a b = false <-> (b <= a)%R.
Proof.
  unfold Rltb. destruct (Rlt_dec a b); split; try discriminate; auto; lra.
Qed.

Lemma Reqb_true (a b : R) : Reqb a b = true <-> a = b.
Proof. unfold Reqb. destruct (Req_dec_T a b); split; auto; discriminate. Qed.

Lemma Reqb_false (a b : R) : Reqb a b = false <-> a <> b.
Proof.
  unfold Reqb. destruct (Req_dec_T a b); split; try discriminate; auto.
  intros Hn. contradiction.
Qed.

(** Decide the comparisons of a goal over the reals one after the other,
    closing the branches that arithmetic refutes. *)
Ltac rcases :=
  cbn [eqb ltb leb add sub mul div neg ofZ RNumber] in *;
  unfold Rleb, Rltb, Reqb in *;
  repeat match goal with
         | |- context [Rle_dec ?a ?b] => destruct (Rle_dec a b); try lra
         | |- context [Rlt_dec ?a ?b] => destruct (Rlt_dec a b); try lra
         | |- context [Req_dec_T ?a ?b] => destruct (Req_dec_T a b); try lra
         end.

(** ** The standing test *)

Section Standing.
Context {N : Type} `{Number N}.
Local Open Scope num_scope.

(** Backing out of a solid only writes [x] and [y]. *)
Lemma moveOutside_frame (a : Actor N) (b : Box.t N) :
  exists x' y', fst (moveOutside a b) = set_y y' (set_x x' a).
Proof.
  unfold moveOutside, moveOutsideX, moveOutsideY. destruct a.
  repeat match goal with
         | |- context [if ?c then _ else _] => destruct c; cbn
         end;
    eexists; eexists; unfold set_x, set_y; cbn; reflexivity.
Qed.

Lemma backedOut_frame (a : Actor N) (b : Box.t N) :
  exists x' y', backedOut a b = set_y y' (set_x x' a).
Proof.
  unfold backedOut. destruct (Box.overlaps (boxOf a) b).
  - apply moveOutside_frame.
  - exists (x a), (y a). destruct a; reflexivity.
Qed.

Lemma stopMomentum_x (a : Actor N) (b : Box.t N) :
  x (stopMomentum a b) = x a.
Proof.
  unfold stopMomentum.
  repeat match goal with
         | |- context [if ?c then _ else _] => destruct c
         end; reflexivity.
Qed.

Lemma stopFalling_x (a : Actor N) : x (stopFalling a) = x a.
Proof.
  unfold stopFalling.
  repeat match goal with
         | |- context [if ?c then _ else _] => destruct c
         end; reflexivity.
Qed.

(** With gravity the "not standing" result is the standing test taken at
    [lastX], and [x] is put back. *)
Lemma _collideSolidBox_standing (a : Actor N) (collideWith : Box.t N) :
  GRAVITY a = true ->
  let a1 := backedOut a collideWith in
  let r := _collideSolidBox a collideWith in
  Collision.falling (snd r)
  = negb (standingOnBox (set_x (lastX a1) a1) collideWith) /\
  x (fst r) = x a1.
Proof.
  intros Hg a1 r. subst r. unfold _collideSolidBox. fold a1.
  assert (Hg1 : GRAVITY a1 = true).
  { subst a1. destruct (backedOut_frame a collideWith) as (x' & y' & E).
    rewrite E. exact Hg. }
  rewrite Hg1. cbn [fst snd Collision.falling]. split; [reflexivity|].
  destruct (standingOnBox (set_x (lastX a1) a1) collideWith); cbn [negb andb].
  - reflexivity.
  - destruct (Box.overlaps (boxOf a) collideWith).
    + rewrite stopMomentum_x. reflexivity.
    + reflexivity.
Qed.
End Standing.

Lemma standingOnBox_standsOn (a : Actor R) (box : Box.t R) :
  standingOnBox a box = true <-> standsOn a box.
Proof.
  unfold standingOnBox, standsOn, Box.overlapsX, almostEqual.
  cbn [boxOf Box.x Box.width leb add sub abs ofZ RNumber].
  rewrite !andb_true_iff, !Rleb_true. intuition lra.
Qed.

(** C3: with GRAVITY enabled, the collision with one obstacle reports "not
    falling" if and only if the Actor, once backed out of the obstacle and
    with x replaced by lastX, stands on it, that is, the horizontal ranges
    overlap and the bottom of the Actor is within one pixel of the top of
    the obstacle; afterwards x is back at the value it had before the test. *)
Theorem standing_test_at_lastX (a : Actor R) (collideWith : Box.t R) :
  GRAVITY a = true ->
  let a1 := backedOut a collideWith in
  let r := _collideSolidBox a collideWith in
  (Collision.falling (snd r) = false
   <-> standsOn (set_x (lastX a) a1) collideWith) /\
  (standsOn (set_x (lastX a) a1) collideWith
   <-> ((lastX a + width a >= Box.x collideWith)%R /\
        (Box.x collideWith + Box.width collideWith >= lastX a)%R) /\
       (Rabs (y a1 + height a - Box.y collideWith) <= 1)%R) /\
  x (fst r) = x a1.
Proof.
  intros Hg a1 r.
  destruct (_collideSolidBox_standing a collideWith Hg) as (Hf & Hx).
  fold a1 r in Hf, Hx.
  assert (Hl : lastX a1 = lastX a /\ width a1 = width a /\ height a1 = height a).
  { subst a1. destruct (backedOut_frame a collideWith) as (x' & y' & E).
    rewrite E. repeat split. }
  destruct Hl as (Hl & Hw & Hh). rewrite Hl in Hf.
  split; [| split; [| exact Hx]].
  - rewrite Hf, negb_false_iff. apply standingOnBox_standsOn.
  - unfold standsOn. cbn [x y width height set_x]. rewrite Hw, Hh. reflexivity.
Qed.

(** An Actor one pixel above a Box that walked one pixel to the right: the
    test at lastX finds it standing, and x stays where the step put it. *)
Lemma standing_test_at_lastX_witness :
  let a : Actor R := (set_x 31 (set_GRAVITY true (init 30 69 20 30)))%R in
  let box : Box.t R := (Box.mk 0 100 100 20)%R in
  Collision.falling (snd (_collideSolidBox a box)) = false /\
  x (fst (_collideSolidBox a box)) = 31%R.
Proof.
  intros a box.
  assert (Hb : backedOut a box = a).
  { unfold backedOut, Box.overlaps, Box.overlapsX, Box.overlapsY.
    subst a box. cbn [boxOf set_x set_GRAVITY init x y width height
                      Box.x Box.y Box.width Box.height].
    rcases. reflexivity. }
  destruct (standing_test_at_lastX a box eq_refl) as (Hf & Hs & Hx).
  rewrite Hb in Hf, Hs, Hx. split; [| exact Hx].
  apply Hf, Hs. subst a box.
  cbn [set_x set_GRAVITY init x y width height lastX
       Box.x Box.y Box.width Box.height ofZ RNumber].
  repeat split; try lra.
  unfold Rabs. destruct (Rcase_abs _); lra.
Defined.

(** ** Staying in the world *)

Section Clip.
Context {N : Type} `{Number N}.
Local Open Scope num_scope.

Lemma move_clips (env : Env N) (a : Actor N) :
  move env a = stayInWorld env (beforeClip env a).
Proof. reflexivity. Qed.

(** The integration leaves the size and the settings of the Actor alone. *)
Lemma beforeClip_frame (env : Env N) (a : Actor N) :
  width (beforeClip env a) = width a /\
  height (beforeClip env a) = height a /\
  STAY_IN_WORLD (beforeClip env a) = STAY_IN_WORLD a /\
  GRAVITY (beforeClip env a) = GRAVITY a.
Proof.
  unfold beforeClip, applyHalfAcceleration, applyThrust, capDiagonalSpeed.
  destruct (movesDiagonally _); repeat split; reflexivity.
Qed.
End Clip.

Lemma stopFalling_lands (a : Actor R) :
  inAir (stopFalling a) = false /\ numJumps (stopFalling a) = O /\
  (yVelocity (stopFalling a) <= 0)%R /\
  x (stopFalling a) = x a /\ y (stopFalling a) = y a.
Proof.
  unfold stopFalling. cbn [ltb ofZ RNumber]. unfold Rltb.
  destruct (Rlt_dec 0 (yAcceleration a)); cbn [yVelocity set_yAcceleration];
    destruct (Rlt_dec 0 (yVelocity a)); cbn; repeat split; lra.
Qed.

(** What the clip does to an Actor that must stay in the world. *)
Lemma stayInWorld_cases (env : Env R) (b : Actor R) :
  STAY_IN_WORLD b = true ->
  let W := World.width (world env) in
  let H := World.height (world env) in
  let a' := stayInWorld env b in
  ((x b < 0)%R -> x a' = 0%R) /\
  ((0 <= x b)%R -> (x b + width b > W)%R -> x a' = (W - width b)%R) /\
  ((0 <= x b)%R -> (x b + width b <= W)%R -> x a' = x b) /\
  ((y b < 0)%R -> y a' = 0%R) /\
  ((0 <= y b)%R -> (y b + height b > H)%R -> y a' = (H - height b)%R) /\
  ((0 <= y b)%R -> (y b + height b <= H)%R -> y a' = y b) /\
  ((0 <= y b)%R -> (y b + height b > H)%R ->
   inAir a' = false /\ numJumps a' = O /\ (yVelocity a' <= 0)%R).
Proof.
  intros Hs W H a'. subst W H a'. unfold stayInWorld. rewrite Hs.
  cbn [ltb add sub ofZ RNumber]. unfold Rltb.
  destruct (Rlt_dec (x b) 0) as [Hx | Hx];
    [| destruct (Rlt_dec (World.width (world env)) (x b + width b)) as [Hw | Hw]];
    cbn [x y width height set_x];
    (destruct (Rlt_dec (y b) 0) as [Hy | Hy];
     [| destruct (Rlt_dec (World.height (world env)) (y b + height b))
          as [Hh | Hh]]);
    cbn [x y width height set_x set_y];
    repeat match goal with
           | |- context [stopFalling ?s] =>
               destruct (stopFalling_lands s) as (L1 & L2 & L3 & L4 & L5);
               rewrite ?L1, ?L2, ?L4, ?L5
           end;
    cbn [x y set_x set_y];
    repeat split; intros; try lra; try reflexivity; try assumption.
Qed.

(** C5, amended: for an Actor with STAY_IN_WORLD, the movement step ends by
    clipping each position axis on its own: a negative coordinate becomes
    0, otherwise a coordinate whose far edge is beyond the world's becomes
    world size minus Actor size, otherwise it is kept; an Actor no larger
    than the world therefore ends inside it.  If the clip at the bottom
    edge fires (before clipping y is not negative and y + height >
    world.height) then afterwards inAir = false, numJumps = 0 and
    yVelocity <= 0. *)
Theorem move_stays_in_world_and_lands (env : Env R) (a : Actor R) :
  STAY_IN_WORLD a = true ->
  let W := World.width (world env) in
  let H := World.height (world env) in
  let b := beforeClip env a in
  let a' := move env a in
  (x a' = if Rlt_dec (x b) 0 then 0
          else if Rlt_dec W (x b + width a) then W - width a else x b)%R /\
  (y a' = if Rlt_dec (y b) 0 then 0
          else if Rlt_dec H (y b + height a) then H - height a else y b)%R /\
  ((width a <= W)%R -> (0 <= x a' /\ x a' + width a <= W)%R) /\
  ((height a <= H)%R -> (0 <= y a' /\ y a' + height a <= H)%R) /\
  ((0 <= y b)%R -> (y b + height a > H)%R ->
   inAir a' = false /\ numJumps a' = O /\ (yVelocity a' <= 0)%R).
Proof.
  intros Hs W H b a'. subst a'. rewrite move_clips. fold b.
  assert (F : STAY_IN_WORLD b = true /\ width b = width a /\
              height b = height a).
  { subst b. destruct (beforeClip_frame env a) as (Fw & Fh & Fs & _).
    rewrite Fs. auto. }
  destruct F as (Fs & Fw & Fh).
  destruct (stayInWorld_cases env b Fs)
    as (X1 & X2 & X3 & Y1 & Y2 & Y3 & L).
  rewrite Fw in X2, X3. rewrite Fh in Y2, Y3, L. fold W H in X2, X3, Y2, Y3, L.
  repeat split.
  - destruct (Rlt_dec (x b) 0); [auto|].
    destruct (Rlt_dec W (x b + width a)); [apply X2 | apply X3]; lra.
  - destruct (Rlt_dec (y b) 0); [auto|].
    destruct (Rlt_dec H (y b + height a)); [apply Y2 | apply Y3]; lra.
  - destruct (Rlt_dec (x b) 0); [rewrite X1; lra|].
    destruct (Rlt_dec W (x b + width a));
      [rewrite X2 | rewrite X3]; lra.
  - destruct (Rlt_dec (x b) 0); [rewrite X1; lra|].
    destruct (Rlt_dec W (x b + width a));
      [rewrite X2 | rewrite X3]; lra.
  - destruct (Rlt_dec (y b) 0); [rewrite Y1; lra|].
    destruct (Rlt_dec H (y b + height a));
      [rewrite Y2 | rewrite Y3]; lra.
  - destruct (Rlt_dec (y b) 0); [rewrite Y1; lra|].
    destruct (Rlt_dec H (y b + height a));
      [rewrite Y2 | rewrite Y3]; lra.
  - apply L; assumption.
  - apply L; assumption.
  - apply L; assumption.
Qed.

Section Integration.
Context {N : Type} `{Number N}.
Local Open Scope num_scope.

Lemma capDiagonalSpeed_gravity (a : Actor N) :
  GRAVITY a = true -> capDiagonalSpeed a = a.
Proof.
  intros Hg. unfold capDiagonalSpeed, movesDiagonally.
  rewrite Hg, andb_false_r. reflexivity.
Qed.

(** Under gravity the position moves by the half-kicked velocity. *)
Lemma beforeClip_gravity (env : Env N) (a : Actor N) :
  GRAVITY a = true ->
  let d2 := physicsDelta env / ofZ 2 in
  x (beforeClip env a)
  = x a + (xVelocity a + xAcceleration a * d2) * physicsDelta env /\
  y (beforeClip env a)
  = y a + (yVelocity a + yAcceleration a * d2) * physicsDelta env.
Proof.
  intros Hg d2. unfold beforeClip.
  rewrite capDiagonalSpeed_gravity by exact Hg.
  split; reflexivity.
Qed.
End Integration.

(** An Actor falling at 100 px/s, 20 px above the floor of the sample
    world, after half a second: it has landed. *)
Lemma move_stays_in_world_and_lands_witness :
  let a : Actor R :=
    (set_yVelocity 100 (set_inAir true (set_GRAVITY true
       (init 40 450 20 30))))%R in
  let a' := move (sampleEnv (1 / 2)%R) a in
  inAir a' = false /\ numJumps a' = O /\ (yVelocity a' <= 0)%R.
Proof.
  intros a a'.
  assert (Hg : GRAVITY a = true) by reflexivity.
  assert (Hs : STAY_IN_WORLD a = true) by reflexivity.
  destruct (beforeClip_gravity (sampleEnv (1 / 2)%R) a Hg) as (_ & Hy).
  destruct (move_stays_in_world_and_lands (sampleEnv (1 / 2)%R) a Hs)
    as (_ & _ & _ & _ & Hl).
  apply Hl; rewrite Hy; unfold a;
    cbn [sampleEnv world physicsDelta World.height set_yVelocity set_inAir
         set_GRAVITY init x y height yVelocity yAcceleration
         add sub mul div ofZ RNumber]; lra.
Defined.

(** C5 as stated fails for an Actor taller than the world whose top is
    above it: y + height > world.height before the clip, the top edge is
    clipped instead of the bottom one and the Actor stays in the air. *)
Lemma tall_actor_clipped_at_the_top_stays_in_air :
  let a : Actor Q := set_inAir true (set_y (-(5)) (init 40 40 20 600)) in
  let env : Env Q := sampleEnv (1 # 60) in
  STAY_IN_WORLD a = true /\
  World.height (world env) < y (beforeClip env a) + height a /\
  y (move env a) = 0 /\ inAir (move env a) = true.
Proof.
  cbv zeta. repeat split.
Qed.

(** ** The diagonal speed cap *)

Lemma movesDiagonally_true (a : Actor R) :
  movesDiagonally a = true
  <-> xVelocity a <> 0%R /\ yVelocity a <> 0%R /\ GRAVITY a = false.
Proof.
  unfold movesDiagonally. cbn [eqb ofZ RNumber].
  rewrite !andb_true_iff, !negb_true_iff, !Reqb_false. tauto.
Qed.

Lemma movesDiagonally_false (a : Actor R) :
  movesDiagonally a = false
  <-> xVelocity a = 0%R \/ yVelocity a = 0%R \/ GRAVITY a = true.
Proof.
  unfold movesDiagonally. cbn [eqb ofZ RNumber].
  rewrite !andb_false_iff, !negb_false_iff, !Reqb_true. tauto.
Qed.

(** The divisor of the rescale is positive whenever the rescale runs. *)
Lemma origMag_positive (a : Actor R) :
  xVelocity a <> 0%R -> (0 < origMag a)%R.
Proof.
  intros Hx. unfold origMag. cbn [sqrt add mul RNumber].
  apply sqrt_lt_R0. nra.
Qed.

(** The rescale writes the velocity only. *)
Lemma capDiagonalSpeed_frame (a : Actor R) :
  x (capDiagonalSpeed a) = x a /\ y (capDiagonalSpeed a) = y a /\
  width (capDiagonalSpeed a) = width a /\
  height (capDiagonalSpeed a) = height a.
Proof.
  unfold capDiagonalSpeed. destruct (movesDiagonally a);
    repeat split; reflexivity.
Qed.

Lemma capDiagonalSpeed_velocity (a : Actor R) :
  movesDiagonally a = true ->
  let scale :=
    (Rmax (Rabs (xVelocity a)) (Rabs (yVelocity a)) / origMag a)%R in
  xVelocity (capDiagonalSpeed a) = (xVelocity a * scale)%R /\
  yVelocity (capDiagonalSpeed a) = (yVelocity a * scale)%R.
Proof.
  intros Hd scale. unfold capDiagonalSpeed. rewrite Hd.
  split; reflexivity.
Qed.

(** C8: without GRAVITY and with both components of the velocity nonzero
    when the rescale of the movement step is reached, the rescaled
    velocity has Euclidean magnitude max(|vx|, |vy|) of the vector before
    the rescale; the rescale is skipped whenever a component is zero or
    GRAVITY is on. *)
Theorem diagonal_speed_is_capped (env : Env R) (a : Actor R) :
  let b := applyHalfAcceleration env a in
  let b' := capDiagonalSpeed b in
  (GRAVITY a = false -> xVelocity b <> 0%R -> yVelocity b <> 0%R ->
   R_sqrt.sqrt (xVelocity b' * xVelocity b' + yVelocity b' * yVelocity b')
   = Rmax (Rabs (xVelocity b)) (Rabs (yVelocity b))) /\
  (xVelocity b = 0%R \/ yVelocity b = 0%R \/ GRAVITY a = true -> b' = b) /\
  move env a
  = stayInWorld env (applyHalfAcceleration env (applyThrust env b')).
Proof.
  intros b b'.
  assert (Hg : GRAVITY b = GRAVITY a) by reflexivity.
  split; [| split; [| reflexivity]].
  - intros Hgf Hx Hy. subst b'. unfold capDiagonalSpeed.
    replace (movesDiagonally b) with true
      by (symmetry; apply movesDiagonally_true; rewrite Hg; auto).
    cbn [xVelocity yVelocity set_xVelocity set_yVelocity
         max abs mul div RNumber].
    pose proof (origMag_positive b Hx) as Hpos.
    set (m := Rmax (Rabs (xVelocity b)) (Rabs (yVelocity b))).
    assert (Hm : (0 <= m)%R).
    { subst m. eapply Rle_trans; [apply Rabs_pos | apply Rmax_l]. }
    assert (Hsq : (origMag b * origMag b
                   = xVelocity b * xVelocity b + yVelocity b * yVelocity b)%R).
    { unfold origMag. cbn [sqrt add mul RNumber].
      apply sqrt_sqrt. nra. }
    replace (xVelocity b * (m / origMag b) * (xVelocity b * (m / origMag b))
             + yVelocity b * (m / origMag b)
               * (yVelocity b * (m / origMag b)))%R
      with (m * m)%R.
    + apply sqrt_square. exact Hm.
    + transitivity
        ((m / origMag b) * (m / origMag b)
         * (xVelocity b * xVelocity b + yVelocity b * yVelocity b))%R;
        [| ring].
      rewrite <- Hsq. field. lra.
  - intros Hskip. subst b'. unfold capDiagonalSpeed.
    replace (movesDiagonally b) with false; [reflexivity|].
    symmetry. apply movesDiagonally_false. rewrite Hg. exact Hskip.
Qed.

(** A top-down Actor pushed right and down at 300 and 400 px/s: after the
    rescale it moves at 400 px/s along the diagonal. *)
Lemma diagonal_speed_is_capped_witness :
  let a : Actor R :=
    (set_yVelocity 400 (set_xVelocity 300 (init 40 40 20 30)))%R in
  let b' := capDiagonalSpeed (applyHalfAcceleration (sampleEnv (1 / 60)%R) a) in
  R_sqrt.sqrt (xVelocity b' * xVelocity b' + yVelocity b' * yVelocity b')
  = 400%R.
Proof.
  intros a b'.
  destruct (diagonal_speed_is_capped (sampleEnv (1 / 60)%R) a) as (Hc & _).
  subst b'. rewrite Hc.
  - subst a. cbn [applyHalfAcceleration sampleEnv physicsDelta init
                  set_xVelocity set_yVelocity xVelocity yVelocity
                  xAcceleration yAcceleration add mul div ofZ RNumber].
    replace (300 + 0 * (1 / 60 / 2))%R with 300%R by lra.
    replace (400 + 0 * (1 / 60 / 2))%R with 400%R by lra.
    rewrite !Rabs_pos_eq by lra. apply Rmax_right. lra.
  - reflexivity.
  - subst a. cbn [applyHalfAcceleration sampleEnv physicsDelta init
                  set_xVelocity set_yVelocity xVelocity yVelocity
                  xAcceleration yAcceleration add mul div ofZ RNumber]. lra.
  - subst a. cbn [applyHalfAcceleration sampleEnv physicsDelta init
                  set_xVelocity set_yVelocity xVelocity yVelocity
                  xAcceleration yAcceleration add mul div ofZ RNumber]. lra.
Defined.

(** ** A step of no duration *)

Lemma applyHalfAcceleration_zero (env : Env R) (a : Actor R) :
  physicsDelta env = 0%R -> applyHalfAcceleration env a = a.
Proof.
  intros Hd. unfold applyHalfAcceleration. rewrite Hd.
  cbn [add mul div ofZ RNumber xVelocity yVelocity xAcceleration
       yAcceleration set_xVelocity].
  replace (xVelocity a + xAcceleration a * (0 / 2))%R with (xVelocity a)
    by lra.
  replace (yVelocity a + yAcceleration a * (0 / 2))%R with (yVelocity a)
    by lra.
  destruct a; reflexivity.
Qed.

Lemma applyThrust_zero (env : Env R) (a : Actor R) :
  physicsDelta env = 0%R -> applyThrust env a = a.
Proof.
  intros Hd. unfold applyThrust. rewrite Hd.
  cbn [add mul RNumber x y xVelocity yVelocity set_x].
  replace (x a + xVelocity a * 0)%R with (x a) by lra.
  replace (y a + yVelocity a * 0)%R with (y a) by lra.
  destruct a; reflexivity.
Qed.

Lemma stayInWorld_inside (env : Env R) (a : Actor R) :
  (0 <= x a)%R -> (x a + width a <= World.width (world env))%R ->
  (0 <= y a)%R -> (y a + height a <= World.height (world env))%R ->
  stayInWorld env a = a.
Proof.
  intros Hx Hw Hy Hh. unfold stayInWorld.
  destruct (STAY_IN_WORLD a); [| reflexivity].
  cbn [ltb add sub ofZ RNumber]. unfold Rltb.
  destruct (Rlt_dec (x a) 0); [lra|].
  destruct (Rlt_dec (World.width (world env)) (x a + width a)); [lra|].
  destruct (Rlt_dec (y a) 0); [lra|].
  destruct (Rlt_dec (World.height (world env)) (y a + height a)); [lra|].
  reflexivity.
Qed.

(** With no time elapsed [move] is the rescale followed by the clip. *)
Lemma move_zero_delta_step (env : Env R) (a : Actor R) :
  physicsDelta env = 0%R ->
  move env a = stayInWorld env (capDiagonalSpeed a).
Proof.
  intros Hd. unfold move.
  rewrite (applyHalfAcceleration_zero env a Hd).
  rewrite (applyThrust_zero env (capDiagonalSpeed a) Hd).
  rewrite (applyHalfAcceleration_zero env (capDiagonalSpeed a) Hd).
  reflexivity.
Qed.

(** C9, amended: when the elapsed step time is zero the two half-kicks and
    the thrust of [move] change nothing: the step comes down to the
    diagonal rescale followed by the clip.  So position and velocity are
    unchanged whenever the rescale is skipped (a zero velocity component,
    or GRAVITY on) and the clip has nothing to do (STAY_IN_WORLD off, or
    the Actor inside the world).  The step divides by the constant 2 and,
    when the rescale runs, by the magnitude of the velocity, which is
    then not zero. *)
Theorem move_zero_delta (env : Env R) (a : Actor R) :
  physicsDelta env = 0%R ->
  move env a = stayInWorld env (capDiagonalSpeed a) /\
  (xVelocity a = 0%R \/ yVelocity a = 0%R \/ GRAVITY a = true ->
   STAY_IN_WORLD a = false \/
   ((0 <= x a)%R /\ (x a + width a <= World.width (world env))%R /\
    (0 <= y a)%R /\ (y a + height a <= World.height (world env))%R) ->
   move env a = a) /\
  (ofZ 2 <> 0%R /\ (movesDiagonally a = true -> origMag a <> 0%R)).
Proof.
  intros Hd.
  pose proof (move_zero_delta_step env a Hd) as Hm.
  split; [exact Hm|]. split.
  - intros Hskip Hclip. rewrite Hm.
    replace (capDiagonalSpeed a) with a
      by (unfold capDiagonalSpeed;
          rewrite (proj2 (movesDiagonally_false a) Hskip); reflexivity).
    destruct Hclip as [Hs | (Hx & Hw & Hy & Hh)].
    + unfold stayInWorld. rewrite Hs. reflexivity.
    + apply stayInWorld_inside; assumption.
  - split.
    + cbn [ofZ RNumber]. lra.
    + intros Hdiag. apply movesDiagonally_true in Hdiag.
      destruct Hdiag as (Hx & _ & _).
      pose proof (origMag_positive a Hx). lra.
Qed.

(** A resting Actor inside the world is left as it is by a step of no
    duration, gravity or not. *)
Lemma move_zero_delta_witness :
  let a : Actor R := (set_yAcceleration 21 (init 40 40 20 30))%R in
  move (sampleEnv 0%R) a = a.
Proof.
  intros a.
  apply (move_zero_delta (sampleEnv 0%R) a eq_refl).
  - left. reflexivity.
  - right. subst a.
    cbn [sampleEnv world World.width World.height init set_yAcceleration
         x y width height ofZ RNumber]. lra.
Defined.

(** C9 as stated fails: with no time elapsed a top-down Actor moving at
    (3, 4) leaves [move] with the velocity (12/5, 16/5). *)
Lemma move_zero_delta_rescales_velocity :
  let a : Actor R :=
    (set_yVelocity 4 (set_xVelocity 3 (init 40 40 20 30)))%R in
  let a' := move (sampleEnv 0%R) a in
  physicsDelta (sampleEnv 0%R) = 0%R /\
  xVelocity a' = (12 / 5)%R /\ yVelocity a' = (16 / 5)%R /\
  xVelocity a' <> xVelocity a /\ yVelocity a' <> yVelocity a.
Proof.
  intros a a'.
  assert (Hvx : xVelocity a = 3%R) by reflexivity.
  assert (Hvy : yVelocity a = 4%R) by reflexivity.
  assert (Hd : movesDiagonally a = true).
  { apply movesDiagonally_true. rewrite Hvx, Hvy. repeat split; lra. }
  assert (Hmag : origMag a = 5%R).
  { unfold origMag. rewrite Hvx, Hvy. cbn [sqrt add mul RNumber].
    replace (3 * 3 + 4 * 4)%R with (5 * 5)%R by lra.
    apply sqrt_square. lra. }
  destruct (capDiagonalSpeed_velocity a Hd) as (Hx' & Hy').
  rewrite Hmag, Hvx, Hvy in Hx', Hy'.
  rewrite !Rabs_pos_eq, Rmax_right in Hx', Hy' by lra.
  destruct (capDiagonalSpeed_frame a) as (Fx & Fy & Fw & Fh).
  assert (Ha : a' = capDiagonalSpeed a).
  { unfold a'. rewrite (move_zero_delta_step (sampleEnv 0%R) a eq_refl).
    apply stayInWorld_inside; rewrite ?Fx, ?Fy, ?Fw, ?Fh; unfold a;
      cbn [sampleEnv world World.width World.height init set_xVelocity
           set_yVelocity x y width height ofZ RNumber]; lra. }
  rewrite Ha, Hx', Hy', Hvx, Hvy. repeat split; lra.
Qed.

(** ** After the first axis *)

(** Once an axis is resolved the boxes are a pixel apart, so the
    resolution of the second axis finds nothing to do: [moveOutside] moves
    the Actor along one axis only. *)
Lemma moveOutsideX_separates (a : Actor R) (other : Box.t R) :
  Box.overlaps (boxOf a) other = true ->
  Box.overlaps (boxOf (fst (moveOutsideX a other))) other = false.
Proof.
  intros Ho. unfold moveOutsideX. rewrite Ho.
  destruct (ltb _ _); cbn [fst]; unfold Box.overlaps, Box.overlapsX;
    cbn [boxOf set_x x width Box.x Box.width].
  - replace (leb (Box.x other)
               (add (sub (sub (Box.x other) (width a)) (ofZ 1)) (width a)))
      with false; [reflexivity|].
    symmetry. apply Rleb_false. cbn [add sub ofZ RNumber]. lra.
  - replace (leb (add (add (Box.x other) (Box.width other)) (ofZ 1))
               (add (Box.x other) (Box.width other)))
      with false; [rewrite andb_false_r; reflexivity|].
    symmetry. apply Rleb_false. cbn [add sub ofZ RNumber]. lra.
Qed.

Lemma moveOutsideY_separates (a : Actor R) (other : Box.t R) :
  Box.overlaps (boxOf a) other = true ->
  Box.overlaps (boxOf (fst (moveOutsideY a other))) other = false.
Proof.
  intros Ho. unfold moveOutsideY. rewrite Ho.
  destruct (leb _ _); cbn [fst]; unfold Box.overlaps, Box.overlapsY;
    cbn [boxOf set_y y height Box.y Box.height].
  - replace (leb (Box.y other)
               (add (sub (sub (Box.y other) (height a)) (ofZ 1)) (height a)))
      with false; [apply andb_false_r|].
    symmetry. apply Rleb_false. cbn [add sub ofZ RNumber]. lra.
  - replace (leb (add (add (Box.y other) (Box.height other)) (ofZ 1))
               (add (Box.y other) (Box.height other)))
      with false; [rewrite andb_false_r; apply andb_false_r|].
    symmetry. apply Rleb_false. cbn [add sub ofZ RNumber]. lra.
Qed.

Lemma moveOutside_one_axis (a : Actor R) (other : Box.t R) :
  Box.overlaps (boxOf a) other = true ->
  moveOutside a other
  = if leb (overlapsX a other) (overlapsY a other)
    then (fst (moveOutsideX a other),
          Moved.mk (snd (moveOutsideX a other)) 0%R)
    else (fst (moveOutsideY a other),
          Moved.mk 0%R (snd (moveOutsideY a other))).
Proof.
  intros Ho. unfold moveOutside.
  destruct (leb (overlapsX a other) (overlapsY a other)).
  - pose proof (moveOutsideX_separates a other Ho) as Hs.
    destruct (moveOutsideX a other) as [a1 mx]. cbn [fst snd] in *.
    rewrite (moveOutsideY_apart a1 other Hs). reflexivity.
  - pose proof (moveOutsideY_separates a other Ho) as Hs.
    destruct (moveOutsideY a other) as [a1 my]. cbn [fst snd] in *.
    rewrite (moveOutsideX_apart a1 other Hs). reflexivity.
Qed.

(** * Further properties *)

(** ** Overlap and sets of Boxes *)

Section Sets.
Context {N : Type} `{Number N}.
Local Open Scope num_scope.

(** X1: overlap is symmetric: a Box overlaps another one exactly when the
    other one overlaps it, on each axis and on both. *)
Theorem overlaps_symmetric (a b : Box.t N) :
  Box.overlapsX a b = Box.overlapsX b a /\
  Box.overlapsY a b = Box.overlapsY b a /\
  Box.overlaps a b = Box.overlaps b a.
Proof.
  assert (Hx : Box.overlapsX a b = Box.overlapsX b a)
    by (unfold Box.overlapsX; apply andb_comm).
  assert (Hy : Box.overlapsY a b = Box.overlapsY b a)
    by (unfold Box.overlapsY; apply andb_comm).
  unfold Box.overlaps. rewrite Hx, Hy. auto.
Qed.



(** X3: a Collection overlaps a Box exactly when the Box collides with the
    Collection. *)
Theorem collection_overlaps_iff_collides (items : list (Box.t N))
    (box : Box.t N) :
  Items.overlaps items box = true <-> collides box (Collection items) <> None.
Proof.
  cbn [collides getAll].
  induction items as [| item rest IH]; cbn [Items.overlaps firstOverlap].
  - split; [discriminate | intros Hn; contradiction].
  - destruct (overlaps_symmetric item box) as (_ & _ & Es). rewrite Es.
    destruct (Box.overlaps box item).
    + split; [discriminate | reflexivity].
    + exact IH.
Qed.

Lemma forEachFrom_filter (f : Box.t N -> bool) (front back : list (Box.t N)) :
  Items.forEachFrom f (List.length front) (front ++ back)
  = filter (fun b => negb (f b)) front ++ back.
Proof.
  revert back. induction front as [| item front IH] using rev_ind; intros back.
  - reflexivity.
  - rewrite length_app, Nat.add_comm. cbn [List.length Nat.add Items.forEachFrom].
    rewrite <- app_assoc. cbn [app].
    assert (Hn : nth_error (front ++ item :: back) (List.length front)
                 = Some item)
      by (rewrite nth_error_app2, Nat.sub_diag by lia; reflexivity).
    rewrite Hn, filter_app. cbn [filter]. destruct (f item); cbn [negb].
    + assert (Hs : Items.splice1 (List.length front) (front ++ item :: back)
                   = front ++ back).
      { unfold Items.splice1.
        rewrite firstn_app, Nat.sub_diag, firstn_all, firstn_O, app_nil_r.
        rewrite skipn_app, skipn_all2 by lia.
        replace (S (List.length front) - List.length front)%nat with 1%nat
          by lia.
        reflexivity. }
      rewrite Hs, IH, app_nil_r. reflexivity.
    + rewrite IH, <- app_assoc. reflexivity.
Qed.

(** X4: [forEach] with a callback without effects removes exactly the
    items for which the callback is truthy and keeps the others in their
    order, although it walks the array backwards and splices as it goes. *)
Theorem forEach_removes_truthy (f : Box.t N -> bool)
    (items : list (Box.t N)) :
  Items.forEach f items = filter (fun b => negb (f b)) items.
Proof.
  unfold Items.forEach.
  rewrite <- (app_nil_r items) at 2.
  rewrite forEachFrom_filter, !app_nil_r. reflexivity.
Qed.

(** X5: adding an item and removing the last item undo each other:
    [removeLast] after [add] gives the item back and leaves the
    Collection as it was; [add] returns the new count. *)
Theorem add_removeLast (item : Box.t N) (items : list (Box.t N)) :
  Items.removeLast (fst (Items.add item items)) = (items, Some item) /\
  snd (Items.add item items) = Items.count (fst (Items.add item items)) /\
  Items.removeLast (@nil (Box.t N)) = ([], None).
Proof.
  unfold Items.add, Items.removeLast, Items.count. cbn [fst snd].
  rewrite rev_app_distr. cbn. rewrite rev_involutive, length_app. cbn.
  repeat split. lia.
Qed.
End Sets.

(** ** The cells of a TileMap *)

Section Cells.
Context {N : Type}.

Lemma index_nat {A : Type} (l : list A) (i : Z) (v : A) :
  Tiles.index l i = Some v ->
  (0 <= i)%Z /\ nth_error l (Z.to_nat i) = Some v.
Proof.
  unfold Tiles.index. destruct (i <? 0)%Z eqn:E; [discriminate|].
  apply Z.ltb_ge in E. auto.
Qed.

Lemma nth_error_assign {A : Type} (l : list A) (i j : nat) (v : A) :
  nth_error (Tiles.assign l i v) j
  = if Nat.eqb j i then
      match nth_error l i with Some _ => Some v | None => None end
    else nth_error l j.
Proof.
  revert i j. induction l as [| c rest IH]; intros i j.
  - cbn. destruct (Nat.eqb j i); destruct i, j; reflexivity.
  - destruct i as [| i], j as [| j]; cbn; try reflexivity. apply IH.
Qed.

Lemma index_assign {A : Type} (l : list A) (i : nat) (j : Z) (v : A) :
  Tiles.index (Tiles.assign l i v) j
  = if (j =? Z.of_nat i)%Z then
      match nth_error l i with Some _ => Some v | None => None end
    else Tiles.index l j.
Proof.
  unfold Tiles.index. destruct (j <? 0)%Z eqn:E.
  - apply Z.ltb_lt in E.
    replace (j =? Z.of_nat i)%Z with false
      by (symmetry; apply Z.eqb_neq; lia).
    reflexivity.
  - apply Z.ltb_ge in E. rewrite nth_error_assign.
    destruct (j =? Z.of_nat i)%Z eqn:Ej.
    + apply Z.eqb_eq in Ej. subst j. rewrite Nat2Z.id, Nat.eqb_refl.
      reflexivity.
    + apply Z.eqb_neq in Ej.
      replace (Nat.eqb (Z.to_nat j) i) with false
        by (symmetry; apply Nat.eqb_neq; lia).
      reflexivity.
Qed.

Lemma length_assign {A : Type} (l : list A) (i : nat) (v : A) :
  List.length (Tiles.assign l i v) = List.length l.
Proof.
  revert i. induction l as [| c rest IH]; intros [| i]; cbn; auto.
Qed.

(** X6: writing a cell and reading cells.  For a cell inside the grid,
    [getCell] after [setCell] returns the object written, every other
    cell reads as before and the numbers of rows and columns are kept;
    for a position outside the grid (negative or too large) [setCell]
    changes nothing.  [clearCell] is the case of writing a blank. *)
Theorem setCell_getCell (grid : list (list (option (Box.t N))))
    (row col : Z) (obj : option (Box.t N)) :
  (Tiles.getCell grid row col <> None ->
   Tiles.getCell (Tiles.setCell grid row col obj) row col = Some obj /\
   (forall row' col', (row', col') <> (row, col) ->
      Tiles.getCell (Tiles.setCell grid row col obj) row' col'
      = Tiles.getCell grid row' col') /\
   Tiles.getRows (Tiles.setCell grid row col obj) = Tiles.getRows grid /\
   Tiles.getCols (Tiles.setCell grid row col obj) = Tiles.getCols grid) /\
  (Tiles.getCell grid row col = None ->
   Tiles.setCell grid row col obj = grid) /\
  Tiles.clearCell grid row col = Tiles.setCell grid row col None.
Proof.
  split; [| split; [| reflexivity]].
  - intros Hin. unfold Tiles.getCell in Hin. unfold Tiles.setCell.
    destruct (Tiles.index grid row) as [r |] eqn:Er; [| contradiction].
    destruct (Tiles.index r col) as [c |] eqn:Ec; [| contradiction].
    destruct (index_nat _ _ Er) as (Hr0 & Hr).
    destruct (index_nat _ _ Ec) as (Hc0 & Hc).
    repeat split.
    + unfold Tiles.getCell. rewrite index_assign, Z2Nat.id, Z.eqb_refl, Hr
        by assumption.
      rewrite index_assign, Z2Nat.id, Z.eqb_refl, Hc by assumption.
      reflexivity.
    + intros row' col' Hne. unfold Tiles.getCell.
      rewrite index_assign, Z2Nat.id, Hr by assumption.
      destruct (row' =? row)%Z eqn:Erow.
      * apply Z.eqb_eq in Erow. subst row'. rewrite Er.
        rewrite index_assign, Z2Nat.id, Hc by assumption.
        destruct (col' =? col)%Z eqn:Ecol; [| reflexivity].
        apply Z.eqb_eq in Ecol. subst col'. contradiction Hne. reflexivity.
      * reflexivity.
    + unfold Tiles.getRows. apply length_assign.
    + unfold Tiles.getCols. destruct grid as [| r0 rest]; [reflexivity|].
      destruct (Z.to_nat row) eqn:En; cbn [Tiles.assign]; [| reflexivity].
      rewrite length_assign. cbn in Hr. injection Hr as ->. reflexivity.
  - intros Hout. unfold Tiles.getCell in Hout. unfold Tiles.setCell.
    destruct (Tiles.index grid row) as [r |]; [| reflexivity].
    rewrite Hout. reflexivity.
Qed.

(** X7: the Boxes that [getAll] returns are exactly the Boxes found in
    the cells of the columns below the width of the first row: the blank
    cells and the cells beyond that width are left out, and an empty grid
    gives an empty list.  (For a row shorter than the first one the array
    of the source also holds an [undefined] for each missing cell; the
    statement is about the Boxes in it.) *)
Theorem getAll_cells (grid : list (list (option (Box.t N))))
    (b : Box.t N) :
  (In b (TileMap_getAll grid) <->
   exists row col : Z,
     (col < Z.of_nat (Tiles.getCols grid))%Z /\
     Tiles.getCell grid row col = Some (Some b)) /\
  TileMap_getAll (@nil (list (option (Box.t N)))) = [].
Proof.
  split; [| reflexivity].
  unfold TileMap_getAll. fold (Tiles.getCols grid).
  set (h := Tiles.getCols grid). rewrite in_flat_map. split.
  - intros (r & Hr & Hb). apply in_flat_map in Hb.
    destruct Hb as (c & Hc & Hcb).
    destruct c as [b' |]; [| contradiction].
    destruct Hcb as [<- | []].
    apply In_nth_error in Hr. destruct Hr as (i & Hi).
    apply In_nth_error in Hc. destruct Hc as (j & Hj).
    assert (Hjh : (j < h)%nat).
    { assert (Hlt : (j < List.length (firstn h r))%nat)
        by (apply nth_error_Some; rewrite Hj; discriminate).
      rewrite length_firstn in Hlt. lia. }
    rewrite nth_error_firstn in Hj.
    replace (Nat.ltb j h) with true in Hj
      by (symmetry; apply Nat.ltb_lt; exact Hjh).
    exists (Z.of_nat i), (Z.of_nat j). split; [lia|].
    unfold Tiles.getCell, Tiles.index.
    replace (Z.of_nat i <? 0)%Z with false by (symmetry; apply Z.ltb_ge; lia).
    rewrite Nat2Z.id, Hi.
    replace (Z.of_nat j <? 0)%Z with false by (symmetry; apply Z.ltb_ge; lia).
    rewrite Nat2Z.id. exact Hj.
  - intros (row & col & Hcol & Hget). unfold Tiles.getCell in Hget.
    destruct (Tiles.index grid row) as [r |] eqn:Er; [| discriminate].
    destruct (index_nat _ _ Er) as (Hr0 & Hr).
    destruct (index_nat _ _ Hget) as (Hc0 & Hc).
    exists r. split; [eapply nth_error_In; exact Hr|].
    apply in_flat_map. exists (Some b). split; [| left; reflexivity].
    apply nth_error_In with (n := Z.to_nat col).
    rewrite nth_error_firstn.
    replace (Nat.ltb (Z.to_nat col) h) with true
      by (symmetry; apply Nat.ltb_lt; lia).
    exact Hc.
Qed.
End Cells.

(** ** More on the input step *)

Section Input.
Context {N : Type} `{Number N}.
Local Open Scope num_scope.

(** What the horizontal block does to the horizontal velocity, to the jump
    momentum and to [fallLeft]. *)
Lemma processHorizontal_effect (ks : Keys.t) (dirs : list string)
    (a : Actor N) :
  let a1 := fst (processHorizontal ks dirs a) in
  let airborne := GRAVITY a && inAir a in
  let jd := jumpDirection a in
  let cleared := JumpDirection.mk false false in
  (leftGiven ks dirs = true ->
   fallLeft a1 = Some true /\
   xVelocity a1
   = (if airborne then
        if JumpDirection.right jd || negb (JumpDirection.left jd)
        then - MOVEAMOUNT a * AIR_CONTROL a else xVelocity a
      else - MOVEAMOUNT a) /\
   jumpDirection a1
   = (if airborne
         && (JumpDirection.right jd || negb (JumpDirection.left jd))
      then cleared else jd)) /\
  (rightGiven ks dirs = true ->
   fallLeft a1 = Some false /\
   xVelocity a1
   = (if airborne then
        if JumpDirection.left jd || negb (JumpDirection.right jd)
        then MOVEAMOUNT a * AIR_CONTROL a else xVelocity a
      else MOVEAMOUNT a) /\
   jumpDirection a1
   = (if airborne
         && (JumpDirection.left jd || negb (JumpDirection.right jd))
      then cleared else jd)) /\
  (leftGiven ks dirs = false -> rightGiven ks dirs = false ->
   fst (processHorizontal ks dirs a) = a).
Proof.
  unfold processHorizontal, leftGiven, rightGiven, isInAir.
  destruct (anyIn (Keys.left ks) dirs), (anyIn (Keys.right ks) dirs);
    cbn [negb andb]; (split; [| split]); intros; try discriminate;
    try reflexivity;
    cbn [GRAVITY inAir set_fallLeft];
    destruct (GRAVITY a), (inAir a),
      (JumpDirection.right (jumpDirection a)),
      (JumpDirection.left (jumpDirection a)); cbn; repeat split.
Qed.

(** The vertical block leaves the horizontal velocity, [fallLeft] and the
    settings alone, and notes that the jump key is down. *)
Lemma processVertical_frame (env : Env N) (ks : Keys.t) (dirs : list string)
    (left right looked : bool) (a : Actor N) :
  let a1 := fst (processVertical env ks dirs left right looked a) in
  xVelocity a1 = xVelocity a /\ fallLeft a1 = fallLeft a /\
  GRAVITY a1 = GRAVITY a /\ JUMP_RELEASE a1 = JUMP_RELEASE a /\
  JUMP_DELAY a1 = JUMP_DELAY a /\ MULTI_JUMP a1 = MULTI_JUMP a /\
  lastLooked a1 = lastLooked a /\
  (anyIn (Keys.up ks) dirs = true -> jumpKeyDown a1 = true) /\
  (anyIn (Keys.up ks) dirs = false ->
   jumpDirection a1 = jumpDirection a /\ jumpKeyDown a1 = jumpKeyDown a /\
   numJumps a1 = numJumps a /\ inAir a1 = inAir a).
Proof.
  unfold processVertical.
  destruct (anyIn (Keys.up ks) dirs).
  - destruct (GRAVITY a) eqn:Eg; cbn [negb].
    + destruct (mayJump a); [destruct (mayJumpNow env a)|];
        cbn; rewrite ?Eg; repeat split; intros; discriminate.
    + cbn. rewrite ?Eg. repeat split; intros; discriminate.
  - destruct (anyIn (Keys.down ks) dirs);
      [destruct (negb (isInAir a) || negb (GRAVITY a))|];
      cbn; repeat split; intros; discriminate.
Qed.

Lemma processLooked_frame2 (ks : Keys.t) (dirs : list string) (looked : bool)
    (a : Actor N) :
  let a1 := processLooked ks dirs looked a in
  xVelocity a1 = xVelocity a /\ fallLeft a1 = fallLeft a /\
  GRAVITY a1 = GRAVITY a /\ JUMP_RELEASE a1 = JUMP_RELEASE a /\
  JUMP_DELAY a1 = JUMP_DELAY a /\ MULTI_JUMP a1 = MULTI_JUMP a /\
  jumpKeyDown a1 = jumpKeyDown a /\
  (lastLooked a1 = lastLooked a \/
   (GRAVITY a = true /\
    lastLooked a1 = filter (isSideKey ks) dirs)
   \/ (GRAVITY a = false /\ lastLooked a1 = dirs)).
Proof.
  unfold processLooked. destruct looked; cbn.
  - destruct (GRAVITY a); repeat split; auto.
  - repeat split; auto.
Qed.

(** [processInput] in three blocks. *)
Lemma processInput_blocks (env : Env N) (ks : Keys.t)
    (direction : option (list string)) (dirs : list string) (a : Actor N) :
  keys env = Some ks ->
  directionsUsed direction a = Some dirs ->
  exists looked,
    let a1 := fst (processHorizontal ks dirs (set_lastDirection dirs a)) in
    let a2 := fst (processVertical env ks dirs (leftGiven ks dirs)
                     (rightGiven ks dirs)
                     (leftGiven ks dirs || rightGiven ks dirs) a1) in
    processInput env direction a = processLooked ks dirs looked a2.
Proof.
  intros Hk Hd. unfold processInput. rewrite Hk, Hd.
  pose proof (processHorizontal_flags ks dirs (set_lastDirection dirs a)) as G.
  destruct (processHorizontal ks dirs (set_lastDirection dirs a)) as [a1 fl].
  cbn [fst snd] in *. subst fl. cbn [fst snd].
  destruct (processVertical env ks dirs (leftGiven ks dirs)
              (rightGiven ks dirs)
              (leftGiven ks dirs || rightGiven ks dirs) a1) as [a2 looked].
  exists looked. reflexivity.
Qed.

(** X8: steering.  A "left" key wins over a "right" key.  On the ground
    (or without GRAVITY) the Actor is given the full speed MOVEAMOUNT in
    the direction asked; in the air under GRAVITY it is given the fraction
    AIR_CONTROL of it, but only if its jump momentum is not already in
    that direction, and otherwise keeps its horizontal velocity.  The
    direction asked is remembered in fallLeft. *)
Theorem processInput_steering (env : Env N) (ks : Keys.t)
    (direction : option (list string)) (dirs : list string) (a : Actor N) :
  keys env = Some ks ->
  directionsUsed direction a = Some dirs ->
  let a' := processInput env direction a in
  let airborne := GRAVITY a && inAir a in
  let jd := jumpDirection a in
  (anyIn (Keys.left ks) dirs = true ->
   fallLeft a' = Some true /\
   xVelocity a'
   = (if airborne then
        if JumpDirection.right jd || negb (JumpDirection.left jd)
        then - MOVEAMOUNT a * AIR_CONTROL a else xVelocity a
      else - MOVEAMOUNT a)) /\
  (anyIn (Keys.left ks) dirs = false ->
   anyIn (Keys.right ks) dirs = true ->
   fallLeft a' = Some false /\
   xVelocity a'
   = (if airborne then
        if JumpDirection.left jd || negb (JumpDirection.right jd)
        then MOVEAMOUNT a * AIR_CONTROL a else xVelocity a
      else MOVEAMOUNT a)) /\
  (anyIn (Keys.left ks) dirs = false ->
   anyIn (Keys.right ks) dirs = false ->
   fallLeft a' = fallLeft a /\ xVelocity a' = xVelocity a).
Proof.
  intros Hk Hd a' airborne jd. subst a'.
  destruct (processInput_blocks env direction a Hk Hd) as (looked & E).
  cbv zeta in E. rewrite E. clear E.
  match goal with
  | |- context [processLooked ks dirs looked ?b] =>
      destruct (processLooked_frame2 ks dirs looked b) as (L1 & L2 & _)
  end.
  rewrite L1, L2. clear L1 L2.
  match goal with
  | |- context [processVertical env ks dirs ?l ?r ?k ?b] =>
      destruct (processVertical_frame env ks dirs l r k b) as (V1 & V2 & _)
  end.
  rewrite V1, V2. clear V1 V2.
  destruct (processHorizontal_effect ks dirs (set_lastDirection dirs a))
    as (Pl & Pr & Pn).
  unfold leftGiven, rightGiven in Pl, Pr, Pn.
  cbn [GRAVITY inAir jumpDirection MOVEAMOUNT AIR_CONTROL xVelocity
       set_lastDirection] in Pl, Pr.
  split; [| split].
  - intros Hl. destruct (Pl Hl) as (P1 & P2 & _). auto.
  - intros Hl Hr. rewrite Hl, Hr in Pr.
    destruct (Pr eq_refl) as (P1 & P2 & _). auto.
  - intros Hl Hr. rewrite Hl, Hr in Pn. rewrite (Pn eq_refl eq_refl).
    split; reflexivity.
Qed.
End Input.

Section Input2.
Context {N : Type} `{Number N}.
Local Open Scope num_scope.

Lemma processHorizontal_lastLooked (ks : Keys.t) (dirs : list string)
    (a : Actor N) :
  lastLooked (fst (processHorizontal ks dirs a)) = lastLooked a.
Proof.
  unfold processHorizontal, isInAir.
  destruct (anyIn (Keys.left ks) dirs), (anyIn (Keys.right ks) dirs);
    cbn [GRAVITY inAir set_fallLeft];
    destruct (GRAVITY a), (inAir a),
      (JumpDirection.right (jumpDirection a)),
      (JumpDirection.left (jumpDirection a)); reflexivity.
Qed.

(** The settings [processInput] leaves alone, and the jump key. *)
Lemma processInput_frame (env : Env N) (ks : Keys.t)
    (direction : option (list string)) (dirs : list string) (a : Actor N) :
  keys env = Some ks ->
  directionsUsed direction a = Some dirs ->
  let a' := processInput env direction a in
  GRAVITY a' = GRAVITY a /\ JUMP_RELEASE a' = JUMP_RELEASE a /\
  JUMP_DELAY a' = JUMP_DELAY a /\ MULTI_JUMP a' = MULTI_JUMP a /\
  (anyIn (Keys.up ks) dirs = true -> jumpKeyDown a' = true) /\
  (anyIn (Keys.up ks) dirs = false ->
   jumpKeyDown a' = jumpKeyDown a /\ numJumps a' = numJumps a /\
   inAir a' = inAir a).
Proof.
  intros Hk Hd a'. subst a'.
  destruct (processInput_blocks env direction a Hk Hd) as (looked & E).
  cbv zeta in E. rewrite E. clear E.
  match goal with
  | |- context [processLooked ks dirs looked ?b] =>
      destruct (processLooked_frame2 ks dirs looked b)
        as (_ & _ & L3 & L4 & L5 & L6 & L7 & _);
      destruct (processLooked_frame ks dirs looked b)
        as (_ & _ & L8 & L9 & _)
  end.
  rewrite L3, L4, L5, L6, L7, L8, L9. clear L3 L4 L5 L6 L7 L8 L9.
  match goal with
  | |- context [processVertical env ks dirs ?l ?r ?k ?b] =>
      destruct (processVertical_frame env ks dirs l r k b)
        as (_ & _ & V3 & V4 & V5 & V6 & _ & V8 & V9)
  end.
  rewrite V3, V4, V5, V6. clear V3 V4 V5 V6.
  destruct (processHorizontal_frame ks dirs (set_lastDirection dirs a))
    as (F1 & F2 & F3 & F4 & F5 & F6 & F7 & F8 & _).
  cbv zeta in *. rewrite F1, F4, F6, F7.
  do 4 (split; [reflexivity|]). split; [exact V8|].
  intros Hu. destruct (V9 Hu) as (_ & Vk & Vn & Vi).
  rewrite Vk, Vn, Vi, F8, F3, F2. repeat split.
Qed.

(** X9: with JUMP_RELEASE and GRAVITY, once an "up" key was given a
    further "up" input never starts a jump, however much time has passed:
    the jump counter, the vertical velocity and lastJump stay as they are. *)
Theorem held_jump_key_never_jumps (env1 env2 : Env N) (ks1 ks2 : Keys.t)
    (d1 d2 : option (list string)) (dirs1 dirs2 : list string)
    (a : Actor N) :
  GRAVITY a = true -> JUMP_RELEASE a = true ->
  keys env1 = Some ks1 -> directionsUsed d1 a = Some dirs1 ->
  anyIn (Keys.up ks1) dirs1 = true ->
  let a1 := processInput env1 d1 a in
  keys env2 = Some ks2 -> directionsUsed d2 a1 = Some dirs2 ->
  anyIn (Keys.up ks2) dirs2 = true ->
  let a2 := processInput env2 d2 a1 in
  numJumps a2 = numJumps a1 /\ yVelocity a2 = yVelocity a1 /\
  lastJump a2 = lastJump a1.
Proof.
  intros Hg Hr Hk1 Hd1 Hu1 a1 Hk2 Hd2 Hu2 a2.
  destruct (processInput_frame env1 d1 a Hk1 Hd1)
    as (Fg & Fr & _ & _ & Fk & _).
  fold a1 in Fg, Fr, Fk. specialize (Fk Hu1).
  assert (Hg1 : GRAVITY a1 = true) by (rewrite Fg; exact Hg).
  pose proof (processInput_up env2 d2 a1 Hk2 Hd2 Hu2 Hg1) as P.
  fold a2 in P. cbv zeta in P.
  replace (mayJumpNow env2 a1) with false in P.
  - rewrite andb_false_r in P. destruct P as (P1 & P2 & P3). auto.
  - unfold mayJumpNow. rewrite Fr, Hr, Fk. cbn. rewrite andb_false_r.
    reflexivity.
Qed.

(** X10: [release] of an "up" key under GRAVITY puts the jump key up
    again and changes nothing else, so that afterwards the next jump
    depends on the delay only; [release] of other keys, or without
    GRAVITY, or without the global [keys], changes nothing. *)
Theorem release_lets_jump_again (env env' : Env N) (released : list string)
    (a : Actor N) :
  (forall ks, keys env = Some ks -> GRAVITY a = true ->
     anyIn (Keys.up ks) released = true ->
     release env released a = set_jumpKeyDown false a /\
     mayJumpNow env' (release env released a)
     = (physicsTimeElapsed env' - lastJump a >? JUMP_DELAY a)) /\
  (forall ks, keys env = Some ks ->
     GRAVITY a && anyIn (Keys.up ks) released = false ->
     release env released a = a) /\
  (keys env = None -> release env released a = a).
Proof.
  unfold release. split; [| split].
  - intros ks Hk Hg Hu. rewrite Hk, Hg, Hu. split; [reflexivity|].
    unfold mayJumpNow. cbn. rewrite orb_true_r, andb_true_r. reflexivity.
  - intros ks Hk Hn. rewrite Hk, Hn. reflexivity.
  - intros Hk. rewrite Hk. reflexivity.
Qed.

(** X11: two jumps are more than JUMP_DELAY apart: after an accepted jump
    at one physics time, an "up" input at a physics time that is not more
    than JUMP_DELAY later never starts a jump. *)
Theorem jumps_are_delayed (env1 env2 : Env N) (ks1 ks2 : Keys.t)
    (d1 d2 : option (list string)) (dirs1 dirs2 : list string)
    (a : Actor N) :
  GRAVITY a = true ->
  keys env1 = Some ks1 -> directionsUsed d1 a = Some dirs1 ->
  anyIn (Keys.up ks1) dirs1 = true ->
  jumpAccepted env1 a = true ->
  let a1 := processInput env1 d1 a in
  keys env2 = Some ks2 -> directionsUsed d2 a1 = Some dirs2 ->
  anyIn (Keys.up ks2) dirs2 = true ->
  (physicsTimeElapsed env2 - physicsTimeElapsed env1 >? JUMP_DELAY a)
  = false ->
  let a2 := processInput env2 d2 a1 in
  numJumps a1 = S (numJumps a) /\
  numJumps a2 = numJumps a1 /\ yVelocity a2 = yVelocity a1 /\
  lastJump a2 = lastJump a1.
Proof.
  intros Hg Hk1 Hd1 Hu1 Hacc a1 Hk2 Hd2 Hu2 Hsoon a2.
  destruct (processInput_frame env1 d1 a Hk1 Hd1)
    as (Fg & _ & Fd & _ & _ & _).
  fold a1 in Fg, Fd.
  pose proof (processInput_up env1 d1 a Hk1 Hd1 Hu1 Hg) as P1.
  fold a1 in P1. cbv zeta in P1.
  rewrite <- jumpAccepted_guards, Hacc in P1.
  destruct P1 as (_ & Hl & Hn & _).
  assert (Hg1 : GRAVITY a1 = true) by (rewrite Fg; exact Hg).
  pose proof (processInput_up env2 d2 a1 Hk2 Hd2 Hu2 Hg1) as P2.
  fold a2 in P2. cbv zeta in P2.
  replace (mayJumpNow env2 a1) with false in P2.
  - rewrite andb_false_r in P2. destruct P2 as (Q1 & Q2 & Q3). auto.
  - unfold mayJumpNow. rewrite Hl, Fd, Hsoon. reflexivity.
Qed.

(** X12: without directions.  When the global [keys] is missing, or when
    no direction is given (none or an empty array) and
    CONTINUOUS_MOVEMENT is off, [processInput] changes nothing; with
    CONTINUOUS_MOVEMENT it then acts as if the last looked directions
    had been given. *)
Theorem processInput_without_directions (env : Env N)
    (direction : option (list string)) (a : Actor N) :
  (keys env = None -> processInput env direction a = a) /\
  (CONTINUOUS_MOVEMENT a = false ->
   processInput env None a = a /\ processInput env (Some []) a = a) /\
  (CONTINUOUS_MOVEMENT a = true ->
   processInput env None a = processInput env (Some (lastLooked a)) a /\
   processInput env (Some []) a
   = processInput env (Some (lastLooked a)) a).
Proof.
  unfold processInput, directionsUsed. split; [| split].
  - intros Hk. rewrite Hk. reflexivity.
  - intros Hc. rewrite Hc. destruct (keys env); split; reflexivity.
  - intros Hc. rewrite Hc. destruct (keys env); [| split; reflexivity].
    destruct (lastLooked a); split; reflexivity.
Qed.

(** X13: with GRAVITY the Actor only ever looks left or right: if
    lastLooked holds "left" and "right" keys only, it still does after
    [processInput]. *)
Theorem lastLooked_sideways (env : Env N) (ks : Keys.t)
    (direction : option (list string)) (a : Actor N) :
  keys env = Some ks ->
  GRAVITY a = true ->
  Forall (fun d => isSideKey ks d = true) (lastLooked a) ->
  Forall (fun d => isSideKey ks d = true)
         (lastLooked (processInput env direction a)).
Proof.
  intros Hk Hg Hall.
  destruct (directionsUsed direction a) as [dirs |] eqn:Hd.
  - destruct (processInput_blocks env direction a Hk Hd) as (looked & E).
    cbv zeta in E. rewrite E. clear E.
    match goal with
    | |- context [processLooked ks dirs looked ?b] =>
        destruct (processLooked_frame2 ks dirs looked b)
          as (_ & _ & _ & _ & _ & _ & _ & L);
        destruct (processVertical_frame env ks dirs (leftGiven ks dirs)
                    (rightGiven ks dirs)
                    (leftGiven ks dirs || rightGiven ks dirs)
                    (fst (processHorizontal ks dirs
                            (set_lastDirection dirs a))))
          as (_ & _ & V3 & _ & _ & _ & V7 & _)
    end.
    destruct (processHorizontal_frame ks dirs (set_lastDirection dirs a))
      as (F1 & _).
    cbv zeta in *. rewrite V3, F1 in L. cbn [GRAVITY set_lastDirection] in L.
    rewrite V7, processHorizontal_lastLooked in L.
    cbn [lastLooked set_lastDirection] in L.
    destruct L as [L | [(_ & L) | (L & _)]].
    + rewrite L. exact Hall.
    + rewrite L. apply Forall_forall. intros d Hin.
      apply filter_In in Hin. apply Hin.
    + congruence.
  - unfold processInput. rewrite Hk, Hd. exact Hall.
Qed.
End Input2.

(** ** The airborne state *)

Section Air.
Context {N : Type} `{Number N}.
Local Open Scope num_scope.

Lemma airStep_refl (a : Actor N) : airStep a a.
Proof. unfold airStep. auto. Qed.

Lemma airStep_same (a a' : Actor N) :
  MULTI_JUMP a' = MULTI_JUMP a -> numJumps a' = numJumps a ->
  inAir a' = inAir a -> airStep a a'.
Proof. unfold airStep. auto. Qed.

Lemma airStep_trans (a b c : Actor N) :
  airStep a b -> airStep b c -> airStep a c.
Proof.
  unfold airStep. intros (Mb & Hb) (Mc & Hc). split; [congruence|].
  destruct Hc as [Hc | (Nc & Ic)]; [auto|].
  destruct Hb as [Hb | (Nb & Ib)]; [left; congruence|].
  right. split; [congruence|].
  destruct Ic as [Ic | Ic]; [| auto].
  destruct Ib as [Ib | Ib]; [left | right]; congruence.
Qed.

Lemma airStep_stopFalling (a : Actor N) : airStep a (stopFalling a).
Proof.
  unfold airStep, stopFalling.
  destruct (yAcceleration a >? ofZ 0); cbn [yVelocity set_yAcceleration];
    destruct (yVelocity a >? ofZ 0); cbn; auto.
Qed.

Lemma airStep_startFalling (a : Actor N) : airStep a (startFalling a).
Proof.
  unfold airStep, startFalling.
  destruct (negb (inAir a)), (fallLeft a); cbn; auto.
Qed.

Lemma airStep_ambientAcceleration (a : Actor N) :
  airStep a (ambientAcceleration a).
Proof.
  unfold ambientAcceleration, isInAir.
  destruct (GRAVITY a); [| apply airStep_refl].
  destruct (inAir a); [| apply airStep_stopFalling].
  cbn [jumpDirection set_yAcceleration].
  destruct (JumpDirection.left (jumpDirection a));
    [| destruct (JumpDirection.right (jumpDirection a))];
    apply airStep_same; reflexivity.
Qed.

Lemma airStep_capDiagonalSpeed (a : Actor N) : airStep a (capDiagonalSpeed a).
Proof.
  unfold capDiagonalSpeed. destruct (movesDiagonally a);
    apply airStep_same; reflexivity.
Qed.

Lemma airStep_stayInWorld (env : Env N) (a : Actor N) :
  airStep a (stayInWorld env a).
Proof.
  unfold stayInWorld. destruct (STAY_IN_WORLD a); [| apply airStep_refl].
  set (a1 := if x a <? ofZ 0 then set_x (ofZ 0) a
             else if x a + width a >? World.width (world env)
                  then set_x (World.width (world env) - width a) a
                  else a).
  assert (H1 : airStep a a1).
  { subst a1. destruct (x a <? ofZ 0);
      [| destruct (x a + width a >? World.width (world env))];
      apply airStep_same; reflexivity. }
  destruct (y a1 <? ofZ 0);
    [| destruct (y a1 + height a1 >? World.height (world env))].
  - eapply airStep_trans; [exact H1 | apply airStep_same; reflexivity].
  - eapply airStep_trans; [exact H1|].
    eapply airStep_trans; [| apply airStep_stopFalling].
    apply airStep_same; reflexivity.
  - exact H1.
Qed.

Lemma airStep_move (env : Env N) (a : Actor N) : airStep a (move env a).
Proof.
  unfold move.
  eapply airStep_trans; [| apply airStep_stayInWorld].
  eapply airStep_trans; [| apply airStep_same; reflexivity].
  eapply airStep_trans; [| apply airStep_same; reflexivity].
  eapply airStep_trans; [| apply airStep_capDiagonalSpeed].
  apply airStep_same; reflexivity.
Qed.

Lemma airStep_dampVelocity (env : Env N) (a : Actor N) :
  airStep a (dampVelocity env a).
Proof.
  unfold dampVelocity.
  destruct (DAMPING_FACTOR a) as [d |].
  - destruct (negb (almostEqual (xVelocity a) (ofZ 0) dampTolerance)).
    + cbn [GRAVITY yVelocity set_xVelocity].
      destruct (negb (GRAVITY a)
                && negb (almostEqual (yVelocity a) (ofZ 0) dampTolerance));
        apply airStep_same; reflexivity.
    + cbn [GRAVITY set_xVelocity]. destruct (negb (GRAVITY a));
        apply airStep_same; reflexivity.
  - cbn [GRAVITY set_xVelocity]. destruct (negb (GRAVITY a));
      apply airStep_same; reflexivity.
Qed.

Lemma airStep_stopMomentum (a : Actor N) (b : Box.t N) :
  airStep a (stopMomentum a b).
Proof.
  unfold stopMomentum.
  destruct (almostEqual _ _ _); [| apply airStep_same; reflexivity].
  destruct (yAcceleration a <? ofZ 0); cbn [yVelocity set_yAcceleration];
    destruct (yVelocity a <? ofZ 0); apply airStep_same; reflexivity.
Qed.

Lemma airStep__collideSolidBox (a : Actor N) (b : Box.t N) :
  airStep a (fst (_collideSolidBox a b)).
Proof.
  unfold _collideSolidBox.
  destruct (backedOut_frame a b) as (x' & y' & E).
  assert (H0 : airStep a (backedOut a b))
    by (rewrite E; apply airStep_same; reflexivity).
  set (a1 := backedOut a b) in *.
  destruct (GRAVITY a1); cbn [fst]; [| exact H0].
  eapply airStep_trans; [exact H0|].
  set (a2 := set_x (lastX a1) a1).
  destruct (standingOnBox a2 b); cbn [negb andb].
  - eapply airStep_trans; [apply airStep_same with (a' := a2); reflexivity|].
    eapply airStep_trans; [apply airStep_stopFalling|].
    apply airStep_same; reflexivity.
  - assert (H2 : airStep a1 (set_x (x a1) a2))
      by (apply airStep_same; reflexivity).
    destruct (Box.overlaps (boxOf a) b); [| exact H2].
    eapply airStep_trans; [exact H2 | apply airStep_stopMomentum].
Qed.

Lemma airStep_collideItems (items : list (Box.t N)) :
  forall (a : Actor N) (falling collided : bool),
    airStep a (fst (fst (collideItems items (a, falling, collided)))).
Proof.
  unfold collideItems. induction items as [| item rest IH];
    intros a falling collided.
  - apply airStep_refl.
  - cbn [fold_left]. unfold collideStep at 2.
    pose proof (airStep__collideSolidBox a item) as H1.
    destruct (_collideSolidBox a item) as [a1 r]. cbn [fst] in H1.
    eapply airStep_trans; [exact H1 | apply IH].
Qed.

Lemma airStep_collideSolid (env : Env N) (a : Actor N)
    (collideWith : Obstacles N) :
  airStep a (fst (collideSolid env a collideWith)).
Proof.
  unfold collideSolid.
  assert (Hloop : forall items,
             let '(a0, falling, _) :=
               collideItems items (a, fallingSeed env a, false) in
             airStep a (if falling then startFalling a0 else a0)).
  { intros items.
    pose proof (airStep_collideItems items a (fallingSeed env a) false) as H1.
    destruct (collideItems items (a, fallingSeed env a, false))
      as [[a1 f] c]. cbn [fst] in *.
    destruct f; [| exact H1].
    eapply airStep_trans; [exact H1 | apply airStep_startFalling]. }
  destruct collideWith as [b | items | grid].
  - pose proof (airStep__collideSolidBox a b) as H1.
    destruct (_collideSolidBox a b) as [a1 r]. cbn [fst] in *.
    destruct (Collision.falling r); [| exact H1].
    eapply airStep_trans; [exact H1 | apply airStep_startFalling].
  - specialize (Hloop items). cbn [getAll].
    destruct (collideItems items (a, fallingSeed env a, false))
      as [[a1 f] c]. exact Hloop.
  - specialize (Hloop (TileMap_getAll grid)). cbn [getAll].
    destruct (collideItems (TileMap_getAll grid) (a, fallingSeed env a, false))
      as [[a1 f] c]. exact Hloop.
Qed.
End Air.

Section AirInvariants.
Context {N : Type} `{Number N}.
Local Open Scope num_scope.

Lemma jumpStep_processVertical (env : Env N) (ks : Keys.t)
    (dirs : list string) (left right looked : bool) (a : Actor N) :
  jumpStep a (fst (processVertical env ks dirs left right looked a)).
Proof.
  unfold jumpStep, processVertical.
  destruct (anyIn (Keys.up ks) dirs).
  - destruct (negb (GRAVITY a)); [cbn; auto|].
    destruct (mayJump a) eqn:Em; [destruct (mayJumpNow env a)|]; cbn; auto.
  - destruct (anyIn (Keys.down ks) dirs);
      [destruct (negb (isInAir a) || negb (GRAVITY a))|]; cbn; auto.
Qed.

Lemma jumpStep_processInput (env : Env N)
    (direction : option (list string)) (a : Actor N) :
  jumpStep a (processInput env direction a).
Proof.
  destruct (keys env) as [ks |] eqn:Hk;
    [| unfold processInput, jumpStep; rewrite Hk; auto].
  destruct (directionsUsed direction a) as [dirs |] eqn:Hd;
    [| unfold processInput, jumpStep; rewrite Hk, Hd; auto].
  destruct (processInput_blocks env direction a Hk Hd) as (looked & E).
  cbv zeta in E. rewrite E. clear E.
  set (a1 := fst (processHorizontal ks dirs (set_lastDirection dirs a))).
  pose proof (jumpStep_processVertical env ks dirs (leftGiven ks dirs)
                (rightGiven ks dirs)
                (leftGiven ks dirs || rightGiven ks dirs) a1) as J.
  set (a2 := fst (processVertical env ks dirs (leftGiven ks dirs)
                    (rightGiven ks dirs)
                    (leftGiven ks dirs || rightGiven ks dirs) a1)) in *.
  destruct (processLooked_frame ks dirs looked a2) as (_ & _ & L3 & L4 & _).
  destruct (processLooked_frame2 ks dirs looked a2)
    as (_ & _ & _ & _ & _ & L6 & _).
  destruct (processHorizontal_frame ks dirs (set_lastDirection dirs a))
    as (_ & F2 & F3 & F4 & _).
  fold a1 in F2, F3, F4.
  cbn [inAir numJumps MULTI_JUMP set_lastDirection] in F2, F3, F4.
  assert (Hm : mayJump a1 = mayJump a)
    by (unfold mayJump, isInAir; rewrite F2, F3, F4; reflexivity).
  unfold jumpStep in *. rewrite L3, L4, L6.
  destruct J as (Jm & J). rewrite Hm, F2, F3, F4 in *. auto.
Qed.

Lemma airStep_update_after_input (env : Env N) (p : Pointer N)
    (direction : option (list string)) (a : Actor N) :
  exists mid,
    jumpStep a mid /\ airStep mid (update env p direction a).
Proof.
  unfold update.
  destruct (isBeingDragged p).
  - exists a. split; [unfold jumpStep; auto|].
    eapply airStep_trans; [| apply airStep_dampVelocity].
    apply airStep_same; reflexivity.
  - set (a0 := set_lastY (y (set_lastX (x a) a)) (set_lastX (x a) a)).
    exists (processInput env direction a0). split.
    + pose proof (jumpStep_processInput env direction a0) as J.
      unfold jumpStep in *. exact J.
    + eapply airStep_trans; [| apply airStep_dampVelocity].
      set (a3 := move env (ambientAcceleration
                             (processInput env direction a0))).
      assert (H3 : airStep (processInput env direction a0) a3).
      { eapply airStep_trans; [apply airStep_ambientAcceleration|].
        apply airStep_move. }
      destruct (almostEqual (lastX a3) (x a3) stillTolerance); [| exact H3].
      eapply airStep_trans; [exact H3 | apply airStep_same; reflexivity].
Qed.

Lemma grounded_airStep (a a' : Actor N) :
  airStep a a' -> groundedHasNoJumps a -> groundedHasNoJumps a'.
Proof.
  unfold airStep, groundedHasNoJumps.
  intros (_ & [Hz | (Hn & [Hi | Hi])]) Hg Ha; auto; try congruence.
  rewrite Hn. apply Hg. congruence.
Qed.

Lemma grounded_jumpStep (a a' : Actor N) :
  jumpStep a a' -> groundedHasNoJumps a -> groundedHasNoJumps a'.
Proof.
  unfold jumpStep, groundedHasNoJumps.
  intros (_ & [(Hi & Hn) | (_ & Hi & _)]) Hg Ha; [| congruence].
  rewrite Hn. apply Hg. congruence.
Qed.

Lemma bounded_airStep (a a' : Actor N) :
  airStep a a' -> jumpsBounded a -> jumpsBounded a'.
Proof.
  unfold airStep, jumpsBounded.
  intros (Hm & [Hz | (Hn & _)]) [Hb | Hb]; rewrite ?Hm, ?Hz, ?Hn; auto.
  right. cbn. lia.
Qed.

Lemma bounded_jumpStep (a a' : Actor N) :
  jumpStep a a' -> groundedHasNoJumps a -> jumpsBounded a ->
  jumpsBounded a'.
Proof.
  unfold jumpStep, jumpsBounded, groundedHasNoJumps, mayJump, isInAir.
  intros (Hm & [(Hi & Hn) | (Hj & Hi & Hn)]) Hg [Hb | Hb];
    rewrite ?Hm, ?Hn; auto.
  apply orb_true_iff in Hj. destruct Hj as [Hj | Hj].
  - apply orb_true_iff in Hj. destruct Hj as [Hj | Hj].
    + apply negb_true_iff in Hj. rewrite (Hg Hj). right. cbn. lia.
    + rewrite Z.gtb_ltb in Hj. apply Z.ltb_lt in Hj. right. lia.
  - apply Z.eqb_eq in Hj. auto.
Qed.

(** X14: on the ground no jump is counted.  If inAir = false implies
    numJumps = 0 before, it does after [processInput], [update],
    [collideSolid] and [release]; a new Actor has the property.  So an
    Actor that is jumping (numJumps > 0) is in the air. *)
Theorem grounded_has_no_jumps (env : Env N) (p : Pointer N)
    (direction : option (list string)) (collideWith : Obstacles N)
    (released : list string) (a : Actor N) :
  groundedHasNoJumps a ->
  groundedHasNoJumps (processInput env direction a) /\
  groundedHasNoJumps (update env p direction a) /\
  groundedHasNoJumps (fst (collideSolid env a collideWith)) /\
  groundedHasNoJumps (release env released a) /\
  (isJumping a = true -> isInAir a = true) /\
  forall x y w h : N, groundedHasNoJumps (init x y w h).
Proof.
  intros Hg. repeat split.
  - eapply grounded_jumpStep; [apply jumpStep_processInput | exact Hg].
  - destruct (airStep_update_after_input env p direction a)
      as (mid & J & A).
    eapply grounded_airStep; [exact A|].
    eapply grounded_jumpStep; [exact J | exact Hg].
  - eapply grounded_airStep; [apply airStep_collideSolid | exact Hg].
  - unfold release. destruct (keys env) as [ks |]; [| exact Hg].
    destruct (GRAVITY a && anyIn (Keys.up ks) released); exact Hg.
  - unfold isJumping, isInAir. intros Hj.
    destruct (inAir a) eqn:Ei; [reflexivity|].
    rewrite (Hg Ei) in Hj. discriminate.
Qed.

(** X15: the number of jumps counted never exceeds max(1, MULTI_JUMP)
    (unless MULTI_JUMP is -1): for an Actor with no jump counted on the
    ground, the bound is kept by [processInput], [update], [collideSolid]
    and [release], and it holds for a new Actor. *)
Theorem jumps_are_bounded (env : Env N) (p : Pointer N)
    (direction : option (list string)) (collideWith : Obstacles N)
    (released : list string) (a : Actor N) :
  groundedHasNoJumps a -> jumpsBounded a ->
  jumpsBounded (processInput env direction a) /\
  jumpsBounded (update env p direction a) /\
  jumpsBounded (fst (collideSolid env a collideWith)) /\
  jumpsBounded (release env released a) /\
  forall x y w h : N, jumpsBounded (init x y w h).
Proof.
  intros Hg Hb. repeat split.
  - eapply bounded_jumpStep; [apply jumpStep_processInput | exact Hg | exact Hb].
  - destruct (airStep_update_after_input env p direction a)
      as (mid & J & A).
    eapply bounded_airStep; [exact A|].
    eapply bounded_jumpStep; [exact J | exact Hg | exact Hb].
  - eapply bounded_airStep; [apply airStep_collideSolid | exact Hb].
  - unfold release. destruct (keys env) as [ks |]; [| exact Hb].
    destruct (GRAVITY a && anyIn (Keys.up ks) released); exact Hb.
  - intros x y w h. unfold jumpsBounded. right. cbn. lia.
Qed.
End AirInvariants.

(** ** Backing out of a solid, over the reals *)

Lemma moveOutsideX_moved (a : Actor R) (other : Box.t R) :
  x (fst (moveOutsideX a other)) = (x a + snd (moveOutsideX a other))%R /\
  y (fst (moveOutsideX a other)) = y a.
Proof.
  unfold moveOutsideX.
  destruct (Box.overlaps (boxOf a) other); [destruct (ltb _ _)|];
    cbn [fst snd x y set_x sub ofZ RNumber]; split; lra.
Qed.

Lemma moveOutsideY_moved (a : Actor R) (other : Box.t R) :
  y (fst (moveOutsideY a other)) = (y a + snd (moveOutsideY a other))%R /\
  x (fst (moveOutsideY a other)) = x a.
Proof.
  unfold moveOutsideY.
  destruct (Box.overlaps (boxOf a) other); [destruct (leb _ _)|];
    cbn [fst snd x y set_y sub ofZ RNumber]; split; lra.
Qed.

(** X16: [moveOutside] does what its name says.  If the Actor overlaps the
    other Box, afterwards it does not; if it does not overlap, it is not
    moved.  In both cases the object returned is the displacement of the
    Actor, and an overlapping Actor is displaced along one axis only. *)
Theorem moveOutside_separates (a : Actor R) (other : Box.t R) :
  let a' := fst (moveOutside a other) in
  let moved := snd (moveOutside a other) in
  Box.overlaps (boxOf a') other = false /\
  x a' = (x a + Moved.x moved)%R /\ y a' = (y a + Moved.y moved)%R /\
  (Moved.x moved = 0%R \/ Moved.y moved = 0%R) /\
  (Box.overlaps (boxOf a) other = false -> moveOutside a other
   = (a, Moved.mk 0%R 0%R)).
Proof.
  intros a' moved. subst a' moved.
  destruct (Box.overlaps (boxOf a) other) eqn:Ho.
  - rewrite (moveOutside_one_axis a other Ho).
    destruct (leb (overlapsX a other) (overlapsY a other)); cbn [fst snd].
    + destruct (moveOutsideX_moved a other) as (Hx & Hy).
      rewrite (moveOutsideX_separates a other Ho), Hx, Hy.
      cbn [Moved.x Moved.y]. repeat split; try lra; try discriminate.
    + destruct (moveOutsideY_moved a other) as (Hy & Hx).
      rewrite (moveOutsideY_separates a other Ho), Hx, Hy.
      cbn [Moved.x Moved.y]. repeat split; try lra; try discriminate.
  - assert (E : moveOutside a other = (a, Moved.mk 0%R 0%R)).
    { unfold moveOutside.
      rewrite (moveOutsideX_apart a other Ho), (moveOutsideY_apart a other Ho).
      destruct (leb _ _); rewrite ?(moveOutsideX_apart a other Ho),
        ?(moveOutsideY_apart a other Ho); reflexivity. }
    rewrite E. cbn [fst snd Moved.x Moved.y].
    repeat split; try lra; auto.
Qed.

Lemma stopFalling_fields (a : Actor R) :
  x (stopFalling a) = x a /\ y (stopFalling a) = y a /\
  width (stopFalling a) = width a /\ height (stopFalling a) = height a.
Proof.
  unfold stopFalling.
  destruct (ltb _ _); cbn [yVelocity set_yAcceleration];
    destruct (ltb _ _); repeat split; reflexivity.
Qed.

Lemma stopMomentum_position (a : Actor R) (b : Box.t R) :
  boxOf (stopMomentum a b) = boxOf a.
Proof.
  unfold stopMomentum.
  destruct (almostEqual _ _ _); [| reflexivity].
  destruct (ltb _ _); cbn [yVelocity set_yAcceleration];
    destruct (ltb _ _); reflexivity.
Qed.

Lemma startFalling_position (a : Actor R) :
  boxOf (startFalling a) = boxOf a.
Proof.
  unfold startFalling. destruct (negb (inAir a)), (fallLeft a); reflexivity.
Qed.

Lemma _collideSolidBox_position (a : Actor R) (b : Box.t R) :
  boxOf (fst (_collideSolidBox a b)) = boxOf (backedOut a b).
Proof.
  unfold _collideSolidBox. set (a1 := backedOut a b).
  destruct (GRAVITY a1); cbn [fst]; [| reflexivity].
  set (a2 := set_x (lastX a1) a1).
  destruct (standingOnBox a2 b); cbn [negb andb].
  - destruct (stopFalling_fields a2) as (_ & Py & Pw & Ph).
    unfold boxOf. cbn [x y width height set_x].
    rewrite Py, Pw, Ph. reflexivity.
  - destruct (Box.overlaps (boxOf a) b); [| reflexivity].
    rewrite stopMomentum_position. reflexivity.
Qed.

(** X17: after the collision with a single Box the Actor does not overlap
    that Box, whatever the settings; the value returned tells whether it
    overlapped before, and if it did not the Actor is not moved. *)
Theorem collideSolid_one_box_separates (env : Env R) (a : Actor R)
    (b : Box.t R) :
  let r := collideSolid env a (OneBox b) in
  Box.overlaps (boxOf (fst r)) b = false /\
  snd r = Box.overlaps (boxOf a) b /\
  (snd r = false -> boxOf (fst r) = boxOf a).
Proof.
  intros r. subst r. unfold collideSolid.
  pose proof (_collideSolidBox_position a b) as P.
  pose proof (_collideSolidBox_collided a b) as C.
  destruct (_collideSolidBox a b) as [a1 res]. cbn [fst snd] in *.
  assert (E : boxOf (if Collision.falling res then startFalling a1 else a1)
              = boxOf (backedOut a b))
    by (destruct (Collision.falling res);
        rewrite ?startFalling_position; exact P).
  rewrite E, C. unfold backedOut.
  destruct (Box.overlaps (boxOf a) b) eqn:Ho.
  - split; [| split; [reflexivity | discriminate]].
    apply (moveOutside_separates a b).
  - auto.
Qed.

(** ** Landing *)

Section Landing.
Context {N : Type} `{Number N}.
Local Open Scope num_scope.






End Landing.

(** ** Inside the world *)

Lemma isInWorld_full (w : World.t R) (box : Box.t R) :
  isInWorld w box false = true
  <-> (0 <= Box.x box /\ Box.x box + Box.width box <= World.width w /\
       0 <= Box.y box /\ Box.y box + Box.height box <= World.height w)%R.
Proof.
  unfold isInWorld. cbn [leb add ofZ RNumber].
  rewrite !andb_true_iff, !Rleb_true. tauto.
Qed.

Lemma isInWorld_partial (w : World.t R) (box : Box.t R) :
  isInWorld w box true = true
  <-> (0 <= Box.x box + Box.width box /\ Box.x box <= World.width w /\
       0 <= Box.y box + Box.height box /\ Box.y box <= World.height w)%R.
Proof.
  unfold isInWorld. cbn [leb add ofZ RNumber].
  rewrite !andb_true_iff, !Rleb_true. tauto.
Qed.

Lemma stayInWorld_size (env : Env R) (b : Actor R) :
  width (stayInWorld env b) = width b /\
  height (stayInWorld env b) = height b.
Proof.
  unfold stayInWorld. destruct (STAY_IN_WORLD b); [| split; reflexivity].
  set (b1 := if ltb (x b) (ofZ 0) then set_x (ofZ 0) b
             else if ltb (World.width (world env)) (add (x b) (width b))
                  then set_x (sub (World.width (world env)) (width b)) b
                  else b).
  assert (H1 : width b1 = width b /\ height b1 = height b).
  { subst b1. destruct (ltb (x b) (ofZ 0));
      [| destruct (ltb (World.width (world env)) (add (x b) (width b)))];
      split; reflexivity. }
  destruct H1 as (Hw & Hh).
  destruct (ltb (y b1) (ofZ 0));
    [| destruct (ltb (World.height (world env)) (add (y b1) (height b1)))].
  - cbn [width height set_y]. auto.
  - destruct (stopFalling_fields
                (set_y (sub (World.height (world env)) (height b1)) b1))
      as (_ & _ & Sw & Sh).
    rewrite Sw, Sh. cbn [width height set_y]. auto.
  - auto.
Qed.

(** X19: the clip and [isInWorld] agree.  An Actor that [isInWorld] finds
    fully inside the world is left as it is by [stayInWorld]; and after
    [move], an Actor with STAY_IN_WORLD that is no larger than the world
    is fully inside the world. *)
Theorem move_ends_in_world (env : Env R) (a : Actor R) :
  (isInWorld (world env) (boxOf a) false = true -> stayInWorld env a = a) /\
  (STAY_IN_WORLD a = true ->
   (width a <= World.width (world env))%R ->
   (height a <= World.height (world env))%R ->
   isInWorld (world env) (boxOf (move env a)) false = true).
Proof.
  split.
  - intros Hin. apply isInWorld_full in Hin.
    cbn [boxOf Box.x Box.y Box.width Box.height] in Hin.
    apply stayInWorld_inside; tauto.
  - intros Hs Hw Hh. rewrite move_clips.
    destruct (beforeClip_frame env a) as (Fw & Fh & Fs & _).
    set (b := beforeClip env a) in *. rewrite <- Fs in Hs.
    destruct (stayInWorld_cases env b Hs)
      as (X1 & X2 & X3 & Y1 & Y2 & Y3 & _).
    destruct (stayInWorld_size env b) as (Sw & Sh).
    rewrite Fw in Sw. rewrite Fh in Sh.
    apply isInWorld_full.
    cbn [boxOf Box.x Box.y Box.width Box.height]. rewrite Sw, Sh.
    rewrite Fw in X2, X3. rewrite Fh in Y2, Y3.
    destruct (Rlt_dec (x b) 0) as [Hx | Hx];
      [rewrite (X1 Hx) | destruct (Rlt_dec (World.width (world env))
                                     (x b + width a)) as [Hxw | Hxw];
                         [rewrite X2 by lra | rewrite X3 by lra]];
      (destruct (Rlt_dec (y b) 0) as [Hy | Hy];
       [rewrite (Y1 Hy) | destruct (Rlt_dec (World.height (world env))
                                      (y b + height a)) as [Hyh | Hyh];
                          [rewrite Y2 by lra | rewrite Y3 by lra]]);
      lra.
Qed.

(** X20: being partly inside the world is overlapping the rectangle of the
    world; and a Box of non-negative size that is fully inside the world
    is partly inside it. *)
Theorem isInWorld_partial_is_overlap (w : World.t R) (box : Box.t R) :
  isInWorld w box true
  = Box.overlaps box (Box.mk 0%R 0%R (World.width w) (World.height w)) /\
  ((0 <= Box.width box)%R -> (0 <= Box.height box)%R ->
   isInWorld w box false = true -> isInWorld w box true = true).
Proof.
  split.
  - unfold isInWorld, Box.overlaps, Box.overlapsX, Box.overlapsY.
    cbn [Box.x Box.y Box.width Box.height leb add ofZ RNumber].
    rewrite !Rplus_0_l, !andb_assoc. reflexivity.
  - intros Hw Hh Hfull. apply isInWorld_full in Hfull.
    apply isInWorld_partial. lra.
Qed.

(** ** The integration, over the reals *)

(** X21: the midpoint formula.  When the diagonal rescale is skipped (under
    GRAVITY, or with a zero component of the velocity after the first
    half-kick), [move] before the clip advances the position by
    v dt + a dt^2 / 2 and the velocity by a dt on each axis; without
    STAY_IN_WORLD there is no clip. *)
Theorem move_midpoint (env : Env R) (a : Actor R) :
  let dt := physicsDelta env in
  let b := beforeClip env a in
  (movesDiagonally (applyHalfAcceleration env a) = false ->
   x b = (x a + xVelocity a * dt + xAcceleration a * dt * dt / 2)%R /\
   y b = (y a + yVelocity a * dt + yAcceleration a * dt * dt / 2)%R /\
   xVelocity b = (xVelocity a + xAcceleration a * dt)%R /\
   yVelocity b = (yVelocity a + yAcceleration a * dt)%R) /\
  (STAY_IN_WORLD a = false -> move env a = b).
Proof.
  intros dt b. subst b. split.
  - intros Hskip. unfold beforeClip, capDiagonalSpeed. rewrite Hskip.
    unfold applyHalfAcceleration, applyThrust.
    cbn [x y xVelocity yVelocity xAcceleration yAcceleration
         set_x set_y set_xVelocity set_yVelocity add mul div ofZ RNumber].
    fold dt. repeat split; field.
  - intros Hs. rewrite move_clips. unfold stayInWorld.
    destruct (beforeClip_frame env a) as (_ & _ & Fs & _).
    rewrite Fs, Hs. reflexivity.
Qed.

Lemma origMag_bounds (a : Actor R) :
  (Rabs (xVelocity a) <= origMag a /\ Rabs (yVelocity a) <= origMag a)%R.
Proof.
  unfold origMag. cbn [sqrt add mul RNumber].
  split.
  - rewrite <- (sqrt_Rsqr_abs (xVelocity a)). apply sqrt_le_1_alt.
    unfold Rsqr. nra.
  - rewrite <- (sqrt_Rsqr_abs (yVelocity a)). apply sqrt_le_1_alt.
    unfold Rsqr. nra.
Qed.

(** X22: the diagonal rescale never speeds up an axis and never turns the
    velocity round: each component keeps its sign and does not grow in
    absolute value. *)
Theorem capDiagonalSpeed_slows (a : Actor R) :
  let a' := capDiagonalSpeed a in
  (Rabs (xVelocity a') <= Rabs (xVelocity a))%R /\
  (Rabs (yVelocity a') <= Rabs (yVelocity a))%R /\
  (0 <= xVelocity a' * xVelocity a)%R /\
  (0 <= yVelocity a' * yVelocity a)%R.
Proof.
  intros a'. subst a'.
  destruct (movesDiagonally a) eqn:Hd.
  - destruct (capDiagonalSpeed_velocity a Hd) as (Hx & Hy).
    cbv zeta in Hx, Hy. rewrite Hx, Hy.
    apply movesDiagonally_true in Hd. destruct Hd as (Hvx & _ & _).
    pose proof (origMag_positive a Hvx) as Hpos.
    destruct (origMag_bounds a) as (Bx & By).
    set (m := Rmax (Rabs (xVelocity a)) (Rabs (yVelocity a))).
    assert (Hm0 : (0 <= m)%R)
      by (subst m; eapply Rle_trans; [apply Rabs_pos | apply Rmax_l]).
    assert (Hmo : (m <= origMag a)%R) by (subst m; apply Rmax_lub; assumption).
    set (s := (m / origMag a)%R).
    assert (Hs : (0 <= s <= 1)%R).
    { subst s. split.
      - apply Rmult_le_pos; [exact Hm0|].
        apply Rlt_le, Rinv_0_lt_compat, Hpos.
      - apply Rmult_le_reg_r with (r := origMag a); [exact Hpos|].
        unfold Rdiv. rewrite Rmult_assoc, Rinv_l by lra. lra. }
    rewrite !Rabs_mult, (Rabs_pos_eq s) by lra.
    pose proof (Rabs_pos (xVelocity a)). pose proof (Rabs_pos (yVelocity a)).
    repeat split; nra.
  - unfold capDiagonalSpeed. rewrite Hd. repeat split; try lra; nra.
Qed.

(** X23: damping never speeds the Actor up and never moves it: provided
    0 <= DAMPING_FACTOR * dt <= 2 when a DAMPING_FACTOR is set, neither
    component of the velocity grows in absolute value, and the position
    and the size are unchanged. *)
Theorem dampVelocity_slows (env : Env R) (a : Actor R) :
  match DAMPING_FACTOR a with
  | Some damping => (0 <= damping * physicsDelta env <= 2)%R
  | None => True
  end ->
  let a' := dampVelocity env a in
  (Rabs (xVelocity a') <= Rabs (xVelocity a))%R /\
  (Rabs (yVelocity a') <= Rabs (yVelocity a))%R /\
  boxOf a' = boxOf a.
Proof.
  intros Hd a'. subst a'. unfold dampVelocity.
  assert (Hz : forall v : R, (Rabs 0 <= Rabs v)%R)
    by (intros v; rewrite Rabs_R0; apply Rabs_pos).
  assert (Hf : forall v f : R, (0 <= 1 - f <= 2)%R ->
                               (Rabs (v * f) <= Rabs v)%R).
  { intros v f Hr. rewrite Rabs_mult.
    assert (Rabs f <= 1)%R by (apply Rabs_le; lra).
    pose proof (Rabs_pos v). nra. }
  destruct (DAMPING_FACTOR a) as [d |].
  - destruct (negb (almostEqual (xVelocity a) (ofZ 0) dampTolerance)).
    + cbn [GRAVITY yVelocity xVelocity set_xVelocity].
      destruct (negb (GRAVITY a)
                && negb (almostEqual (yVelocity a) (ofZ 0) dampTolerance));
        cbn [xVelocity yVelocity set_xVelocity set_yVelocity
             sub mul ofZ RNumber];
        repeat split; try apply Hf; try lra.
    + cbn [GRAVITY set_xVelocity]. destruct (negb (GRAVITY a));
        cbn [xVelocity yVelocity set_xVelocity set_yVelocity ofZ RNumber];
        repeat split; try apply Hz; lra.
  - cbn [GRAVITY set_xVelocity]. destruct (negb (GRAVITY a));
      cbn [xVelocity yVelocity set_xVelocity set_yVelocity ofZ RNumber];
      repeat split; try apply Hz; lra.
Qed.

(** ** The frame update *)

Section Update.
Context {N : Type} `{Number N}.
Local Open Scope num_scope.

Lemma sameSetup_refl (a : Actor N) : sameSetup a a.
Proof. unfold sameSetup. repeat split. Qed.

Lemma sameSetup_trans (a b c : Actor N) :
  sameSetup a b -> sameSetup b c -> sameSetup a c.
Proof.
  unfold sameSetup.
  intros (A1 & A2 & A3 & A4 & A5 & A6 & A7 & A8 & A9 & A10 & A11)
         (B1 & B2 & B3 & B4 & B5 & B6 & B7 & B8 & B9 & B10 & B11).
  repeat split; congruence.
Qed.

Ltac same_setup := unfold sameSetup; repeat split; reflexivity.

Lemma sameSetup_set_fallLeft (a : Actor N) (v : option bool) :
  sameSetup a (set_fallLeft v a).
Proof. same_setup. Qed.

Lemma sameSetup_stopFalling (a : Actor N) : sameSetup a (stopFalling a).
Proof.
  unfold stopFalling.
  destruct (yAcceleration a >? ofZ 0); cbn [yVelocity set_yAcceleration];
    destruct (yVelocity a >? ofZ 0); same_setup.
Qed.

Lemma sameSetup_processHorizontal (ks : Keys.t) (dirs : list string)
    (a : Actor N) :
  sameSetup a (fst (processHorizontal ks dirs a)).
Proof.
  unfold processHorizontal, isInAir.
  destruct (anyIn (Keys.left ks) dirs), (anyIn (Keys.right ks) dirs);
    cbn [GRAVITY inAir set_fallLeft];
    destruct (GRAVITY a), (inAir a),
      (JumpDirection.right (jumpDirection a)),
      (JumpDirection.left (jumpDirection a)); same_setup.
Qed.

Lemma sameSetup_processVertical (env : Env N) (ks : Keys.t)
    (dirs : list string) (left right looked : bool) (a : Actor N) :
  sameSetup a (fst (processVertical env ks dirs left right looked a)).
Proof.
  unfold processVertical.
  destruct (anyIn (Keys.up ks) dirs).
  - destruct (negb (GRAVITY a)); [same_setup|].
    destruct (mayJump a); [destruct (mayJumpNow env a)|]; same_setup.
  - destruct (anyIn (Keys.down ks) dirs);
      [destruct (negb (isInAir a) || negb (GRAVITY a))|]; same_setup.
Qed.

Lemma sameSetup_processLooked (ks : Keys.t) (dirs : list string)
    (looked : bool) (a : Actor N) :
  sameSetup a (processLooked ks dirs looked a).
Proof. unfold processLooked. destruct looked; same_setup. Qed.

Lemma sameSetup_processInput (env : Env N)
    (direction : option (list string)) (a : Actor N) :
  sameSetup a (processInput env direction a).
Proof.
  destruct (keys env) as [ks |] eqn:Hk;
    [| unfold processInput; rewrite Hk; apply sameSetup_refl].
  destruct (directionsUsed direction a) as [dirs |] eqn:Hd;
    [| unfold processInput; rewrite Hk, Hd; apply sameSetup_refl].
  destruct (processInput_blocks env direction a Hk Hd) as (looked & E).
  cbv zeta in E. rewrite E. clear E.
  eapply sameSetup_trans; [| apply sameSetup_processLooked].
  eapply sameSetup_trans; [| apply sameSetup_processVertical].
  eapply sameSetup_trans; [| apply sameSetup_processHorizontal].
  same_setup.
Qed.

Lemma sameSetup_ambientAcceleration (a : Actor N) :
  sameSetup a (ambientAcceleration a).
Proof.
  unfold ambientAcceleration, isInAir.
  destruct (GRAVITY a); [| apply sameSetup_refl].
  destruct (inAir a); [| apply sameSetup_stopFalling].
  cbn [jumpDirection set_yAcceleration].
  destruct (JumpDirection.left (jumpDirection a));
    [| destruct (JumpDirection.right (jumpDirection a))]; same_setup.
Qed.

Lemma sameSetup_stayInWorld (env : Env N) (a : Actor N) :
  sameSetup a (stayInWorld env a).
Proof.
  unfold stayInWorld. destruct (STAY_IN_WORLD a); [| apply sameSetup_refl].
  set (a1 := if x a <? ofZ 0 then set_x (ofZ 0) a
             else if x a + width a >? World.width (world env)
                  then set_x (World.width (world env) - width a) a
                  else a).
  assert (H1 : sameSetup a a1).
  { subst a1. destruct (x a <? ofZ 0);
      [| destruct (x a + width a >? World.width (world env))]; same_setup. }
  destruct (y a1 <? ofZ 0);
    [| destruct (y a1 + height a1 >? World.height (world env))].
  - eapply sameSetup_trans; [exact H1 | same_setup].
  - eapply sameSetup_trans; [exact H1|].
    eapply sameSetup_trans; [| apply sameSetup_stopFalling]. same_setup.
  - exact H1.
Qed.

Lemma sameSetup_move (env : Env N) (a : Actor N) : sameSetup a (move env a).
Proof.
  unfold move.
  eapply sameSetup_trans; [| apply sameSetup_stayInWorld].
  eapply sameSetup_trans with (b := capDiagonalSpeed
                                      (applyHalfAcceleration env a));
    [| same_setup].
  unfold capDiagonalSpeed.
  destruct (movesDiagonally (applyHalfAcceleration env a)); same_setup.
Qed.

(** Damping writes the velocity only. *)
Lemma dampVelocity_frame (env : Env N) (a : Actor N) :
  sameSetup a (dampVelocity env a) /\
  boxOf (dampVelocity env a) = boxOf a /\
  fallLeft (dampVelocity env a) = fallLeft a /\
  (DAMPING_FACTOR a = None ->
   xVelocity (dampVelocity env a) = ofZ 0 /\
   (GRAVITY a = false -> yVelocity (dampVelocity env a) = ofZ 0)).
Proof.
  unfold dampVelocity.
  destruct (DAMPING_FACTOR a) as [d |].
  - destruct (negb (almostEqual (xVelocity a) (ofZ 0) dampTolerance)).
    + cbn [GRAVITY yVelocity set_xVelocity].
      destruct (negb (GRAVITY a)
                && negb (almostEqual (yVelocity a) (ofZ 0) dampTolerance));
        (split; [same_setup|]); repeat split; discriminate.
    + cbn [GRAVITY set_xVelocity]. destruct (negb (GRAVITY a));
        (split; [same_setup|]); repeat split; discriminate.
  - cbn [GRAVITY set_xVelocity]. destruct (GRAVITY a); cbn [negb];
      (split; [same_setup|]); repeat split; intros; discriminate.
Qed.

(** X24: what every [update] does.  It records the position before the
    step in lastX and lastY, leaves the size and the settings alone, and,
    when no DAMPING_FACTOR is set, ends with a horizontal velocity of zero
    (and a vertical velocity of zero without GRAVITY): the velocity does
    not carry over to the next frame. *)
Theorem update_bookkeeping (env : Env N) (p : Pointer N)
    (direction : option (list string)) (a : Actor N) :
  let a' := update env p direction a in
  lastX a' = x a /\ lastY a' = y a /\
  width a' = width a /\ height a' = height a /\
  GRAVITY a' = GRAVITY a /\ DAMPING_FACTOR a' = DAMPING_FACTOR a /\
  STAY_IN_WORLD a' = STAY_IN_WORLD a /\ MOVEAMOUNT a' = MOVEAMOUNT a /\
  MULTI_JUMP a' = MULTI_JUMP a /\
  (DAMPING_FACTOR a = None ->
   xVelocity a' = ofZ 0 /\ (GRAVITY a = false -> yVelocity a' = ofZ 0)).
Proof.
  intros a'. subst a'. unfold update.
  set (a0 := set_lastY (y (set_lastX (x a) a)) (set_lastX (x a) a)).
  set (b := if isBeingDragged p
            then set_y (mouseY p + yOffset p
                        - height (set_x (mouseX p + xOffset p
                                         - width a0 / ofZ 2) a0) / ofZ 2)
                       (set_x (mouseX p + xOffset p - width a0 / ofZ 2) a0)
            else
              if almostEqual
                   (lastX (move env (ambientAcceleration
                                       (processInput env direction a0))))
                   (x (move env (ambientAcceleration
                                   (processInput env direction a0))))
                   stillTolerance
              then set_fallLeft None
                     (move env (ambientAcceleration
                                  (processInput env direction a0)))
              else move env (ambientAcceleration
                               (processInput env direction a0))).
  assert (Hb : sameSetup a0 b).
  { subst b. destruct (isBeingDragged p); [same_setup|].
    assert (H3 : sameSetup a0 (move env (ambientAcceleration
                                           (processInput env direction a0)))).
    { eapply sameSetup_trans; [apply sameSetup_processInput|].
      eapply sameSetup_trans; [apply sameSetup_ambientAcceleration|].
      apply sameSetup_move. }
    destruct (almostEqual _ _ _); [| exact H3].
    eapply sameSetup_trans; [exact H3 | apply sameSetup_set_fallLeft]. }
  destruct (dampVelocity_frame env b) as (Hd & _ & _ & Hz).
  pose proof (sameSetup_trans Hb Hd) as S.
  unfold sameSetup in S, Hb.
  destruct S as (S1 & S2 & S3 & S4 & S5 & S6 & S7 & S8 & S9 & _).
  destruct Hb as (_ & _ & _ & _ & B5 & B6 & _).
  cbn [lastX lastY width height GRAVITY DAMPING_FACTOR STAY_IN_WORLD
       MOVEAMOUNT MULTI_JUMP x y set_lastX set_lastY a0] in S1, S2, S3, S4, S5,
    S6, S7, S8, S9, B5, B6.
  repeat split; try assumption.
  - apply Hz. rewrite B6. assumption.
  - intros Hg. apply Hz; [rewrite B6 | rewrite B5]; assumption.
Qed.
End Update.

(** X25: a dragged Actor follows the pointer: after [update] its centre is
    at the position of the mouse in the world (the mouse coordinates plus
    the offsets of the viewport); its airborne state is as before. *)
Theorem update_dragged_follows_pointer (env : Env R) (p : Pointer R)
    (direction : option (list string)) (a : Actor R) :
  isBeingDragged p = true ->
  let a' := update env p direction a in
  Box.xC (boxOf a') = (mouseX p + xOffset p)%R /\
  Box.yC (boxOf a') = (mouseY p + yOffset p)%R /\
  inAir a' = inAir a /\ numJumps a' = numJumps a.
Proof.
  intros Hp a'. subst a'. unfold update. rewrite Hp.
  match goal with
  | |- context [dampVelocity env ?b] =>
      destruct (dampVelocity_frame env b) as (_ & Hb & _);
      pose proof (airStep_dampVelocity env b) as Ha
  end.
  rewrite Hb. unfold Box.xC, Box.yC.
  cbn [boxOf Box.x Box.y Box.width Box.height x y width height
       set_x set_y set_lastX set_lastY add sub div ofZ RNumber].
  split; [field|]. split; [field|].
  unfold dampVelocity.
  repeat match goal with
         | |- context [match ?c with _ => _ end] => destruct c
         end; split; reflexivity.
Qed.

(** ** At rest *)

Section Eta.
Context {N : Type}.

(** Writing a field with its own value changes nothing. *)
Lemma set_eta (a : Actor N) :
  set_x (x a) a = a /\ set_y (y a) a = a /\
  set_lastX (lastX a) a = a /\ set_lastY (lastY a) a = a /\
  set_xVelocity (xVelocity a) a = a /\ set_yVelocity (yVelocity a) a = a /\
  set_numJumps (numJumps a) a = a /\ set_inAir (inAir a) a = a /\
  set_fallLeft (fallLeft a) a = a.
Proof. destruct a. repeat split. Qed.
End Eta.

Lemma stopFalling_rest (a : Actor R) :
  (yAcceleration a <= 0)%R -> (yVelocity a <= 0)%R ->
  numJumps a = O -> inAir a = false -> stopFalling a = a.
Proof.
  intros Ha Hv Hn Hi. unfold stopFalling.
  replace (ltb (ofZ 0) (yAcceleration a)) with false
    by (symmetry; apply Rltb_false; cbn; lra).
  replace (ltb (ofZ 0) (yVelocity a)) with false
    by (symmetry; apply Rltb_false; cbn; lra).
  destruct (set_eta a) as (_ & _ & _ & _ & _ & _ & En & Ei & _).
  rewrite <- Hn at 1. rewrite En. rewrite <- Hi at 1. exact Ei.
Qed.

(** X26: landing twice is landing once, and so is starting to fall:
    [stopFalling] and [startFalling] are idempotent. *)
Theorem stopFalling_startFalling_idempotent (a : Actor R) :
  stopFalling (stopFalling a) = stopFalling a /\
  startFalling (startFalling a) = startFalling a.
Proof.
  split.
  - destruct (stopFalling_lands a) as (Hi & Hn & Hv & _).
    apply stopFalling_rest; try assumption.
    unfold stopFalling. cbn [ltb ofZ RNumber]. unfold Rltb.
    destruct (Rlt_dec 0 (yAcceleration a));
      cbn [yVelocity set_yAcceleration];
      destruct (Rlt_dec 0 (yVelocity a)); cbn; lra.
  - set (b := startFalling a).
    assert (Hb : inAir b = true)
      by (subst b; unfold startFalling;
          destruct (negb (inAir a)), (fallLeft a); reflexivity).
    unfold startFalling at 1. rewrite Hb. cbn [negb].
    destruct (set_eta b) as (_ & _ & _ & _ & _ & _ & _ & Ei & _).
    rewrite <- Hb at 1. exact Ei.
Qed.

Lemma update_at_rest (env : Env R) (p : Pointer R) (a : Actor R)
    (box : Box.t R) :
  atRestOn env a box -> isBeingDragged p = false ->
  update env p None a = a.
Proof.
  intros (Hg & Hc & Hi & Hn & Hf & Hvx & Hvy & Hax & Hay & Hlx & Hly
          & _ & _ & Hw) Hp.
  destruct (set_eta a) as (Ex & Ey & Elx & Ely & Evx & Evy & _ & _ & Ef).
  assert (E0 : set_lastY (y (set_lastX (x a) a)) (set_lastX (x a) a) = a).
  { rewrite <- Hlx, Elx, <- Hly. exact Ely. }
  unfold update. cbv zeta. rewrite Hp, E0.
  rewrite (processInput_no_direction env a Hc).
  assert (Hamb : ambientAcceleration a = a).
  { unfold ambientAcceleration, isInAir. rewrite Hg, Hi.
    apply stopFalling_rest; try assumption; lra. }
  rewrite Hamb.
  assert (Hhalf : applyHalfAcceleration env a = a).
  { unfold applyHalfAcceleration.
    cbn [add mul div ofZ RNumber xVelocity yVelocity xAcceleration
         yAcceleration set_xVelocity].
    rewrite Hax, Hay.
    replace (xVelocity a + 0 * (physicsDelta env / 2))%R with (xVelocity a)
      by lra.
    replace (yVelocity a + 0 * (physicsDelta env / 2))%R with (yVelocity a)
      by lra.
    rewrite Evx. exact Evy. }
  assert (Hthrust : applyThrust env a = a).
  { unfold applyThrust.
    cbn [add mul RNumber x y xVelocity yVelocity set_x].
    rewrite Hvx, Hvy.
    replace (x a + 0 * physicsDelta env)%R with (x a) by lra.
    replace (y a + 0 * physicsDelta env)%R with (y a) by lra.
    rewrite Ex. exact Ey. }
  assert (Hmove : move env a = a).
  { unfold move. rewrite Hhalf, (capDiagonalSpeed_gravity a Hg), Hthrust, Hhalf.
    apply isInWorld_full in Hw.
    cbn [boxOf Box.x Box.y Box.width Box.height] in Hw.
    apply stayInWorld_inside; tauto. }
  rewrite Hmove.
  replace (almostEqual (lastX a) (x a) stillTolerance) with true.
  - rewrite <- Hf at 1. rewrite Ef.
    unfold dampVelocity.
    assert (Hzero : (if negb (GRAVITY (set_xVelocity (ofZ 0) a))
                     then set_yVelocity (ofZ 0) (set_xVelocity (ofZ 0) a)
                     else set_xVelocity (ofZ 0) a) = a).
    { cbn [GRAVITY set_xVelocity]. rewrite Hg. cbn [negb ofZ RNumber].
      rewrite <- Hvx at 1. exact Evx. }
    destruct (DAMPING_FACTOR a) as [d |]; [| exact Hzero].
    replace (almostEqual (xVelocity a) (ofZ 0) dampTolerance) with true;
      [exact Hzero|].
    symmetry. unfold almostEqual, dampTolerance.
    cbn [leb abs sub div ofZ RNumber]. apply Rleb_true.
    rewrite Hvx, Rminus_0_r, Rabs_R0. lra.
  - symmetry. unfold almostEqual, stillTolerance.
    cbn [leb abs sub div ofZ RNumber]. apply Rleb_true.
    rewrite Hlx. unfold Rminus. rewrite Rplus_opp_r, Rabs_R0. lra.
Qed.

Lemma collideSolid_at_rest (env : Env R) (a : Actor R) (box : Box.t R) :
  atRestOn env a box -> collideSolid env a (OneBox box) = (a, false).
Proof.
  intros (Hg & _ & Hi & Hn & _ & _ & Hvy & _ & Hay & Hlx & _
          & Hs & Hgap & _).
  destruct (set_eta a) as (Ex & _).
  assert (Ho : Box.overlaps (boxOf a) box = false).
  { unfold Box.overlaps, Box.overlapsY.
    cbn [boxOf Box.y Box.height leb add RNumber].
    replace (Rleb (Box.y box) (y a + height a)) with false
      by (symmetry; apply Rleb_false; lra).
    cbn [andb]. apply andb_false_r. }
  assert (Hst : standingOnBox a box = true)
    by (apply standingOnBox_standsOn; exact Hs).
  unfold collideSolid, _collideSolidBox, backedOut.
  rewrite Ho, Hg, Hlx, Ex, Hst.
  rewrite (stopFalling_rest a) by (assumption || lra).
  rewrite Ex. reflexivity.
Qed.

(** X27: standing still is stable.  An Actor at rest on top of a Box
    (under GRAVITY, on the ground, without velocity or acceleration,
    standing on the Box and inside the world) that is given no direction
    is left exactly as it is by a frame ([update], then [collideSolid]
    with the Box), and so by any number of frames. *)
Theorem resting_actor_stays (env : Env R) (a : Actor R) (box : Box.t R)
    (frames : nat) :
  atRestOn env a box ->
  frame env (OneBox box) a = a /\
  Nat.iter frames (frame env (OneBox box)) a = a.
Proof.
  intros Hr.
  assert (H1 : frame env (OneBox box) a = a).
  { unfold frame. cbv zeta.
    rewrite update_at_rest with (box := box); [| exact Hr | reflexivity].
    rewrite (collideSolid_at_rest Hr). reflexivity. }
  split; [exact H1|].
  induction frames as [| n IH]; [reflexivity|].
  rewrite Nat.iter_succ, IH. exact H1.
Qed.

(** ** Choosing the animation *)

Section Animation.
Context {N : Type} `{Number N}.

Lemma useAnimation_first (maps names : list string) :
  match useAnimation maps names with
  | Some name =>
    exists before after,
      names = before ++ name :: after /\
      existsb (String.eqb name) maps = true /\
      forall n, In n before -> existsb (String.eqb n) maps = false
  | None => forall n, In n names -> existsb (String.eqb n) maps = false
  end.
Proof.
  induction names as [| name rest IH]; cbn [useAnimation].
  - intros n [].
  - destruct (existsb (String.eqb name) maps) eqn:E.
    + exists [], rest. repeat split; [exact E | intros n []].
    + destruct (useAnimation maps rest) as [found |].
      * destruct IH as (before & after & En & Ef & Hb).
        exists (name :: before), after. rewrite En. repeat split; auto.
        intros n [<- | Hin]; auto.
      * intros n [<- | Hin]; auto.
Qed.

Lemma updateAnimation_ends_with_stand (env : Env N)
    (shoot : option (list string)) (p : Pointer N) (a : Actor N) :
  exists front,
    updateAnimation env shoot p a = front ++ ["stand"%string] /\
    (isBeingDragged p = true -> front = ["drag"%string]) /\
    (isBeingDragged p = false -> inAir a = true ->
     exists first rest,
       front = first :: rest /\
       In first ["jumpRight"; "jumpLeft"; "jump"; "fall"]%string) /\
    (isBeingDragged p = false -> inAir a = false ->
     ~ In "jump"%string front /\ ~ In "fall"%string front /\
     ~ In "jumpRight"%string front /\ ~ In "jumpLeft"%string front).
Proof.
  unfold updateAnimation, isInAir.
  destruct (isBeingDragged p).
  - exists ["drag"%string]. repeat split; discriminate.
  - destruct (inAir a).
    + repeat match goal with
             | |- context [if ?c then _ else _] => destruct c
             end;
        match goal with
        | |- exists front, ?L = _ /\ _ => exists (removelast L)
        end;
        cbn [removelast app];
        (split; [reflexivity|]); (split; [discriminate|]);
        (split; [| discriminate]);
        intros _ _; do 2 eexists; (split; [reflexivity|]); cbn; auto.
    + repeat match goal with
             | |- context [if ?c then _ else _] => destruct c
             end;
        match goal with
        | |- exists front, ?L = _ /\ _ => exists (removelast L)
        end;
        cbn [removelast app];
        (split; [reflexivity|]); (split; [discriminate|]);
        (split; [discriminate|]);
        intros _ _; cbn; repeat split; intros Hin;
        repeat (destruct Hin as [Hin | Hin]; [discriminate|]);
        exact Hin.
Qed.

(** X28: the animation always falls back on "stand".  [useAnimation]
    switches to the first of the names that the SpriteMap defines, and
    the names [updateAnimation] asks for always end with "stand": with a
    SpriteMap that defines "stand" some sequence is always found.  A
    dragged Actor is shown as "drag"; otherwise an Actor in the air is
    shown jumping or falling first, and an Actor on the ground never is. *)
Theorem animation_falls_back_to_stand (env : Env N)
    (shoot : option (list string)) (p : Pointer N) (a : Actor N)
    (maps : list string) :
  let names := updateAnimation env shoot p a in
  (existsb (String.eqb "stand") maps = true ->
   exists name,
     useAnimation maps names = Some name /\ In name names /\
     existsb (String.eqb name) maps = true) /\
  (forall name, useAnimation maps names = Some name ->
     exists before after,
       names = before ++ name :: after /\
       forall n, In n before -> existsb (String.eqb n) maps = false) /\
  (isBeingDragged p = true -> names = ["drag"; "stand"]%string) /\
  (isBeingDragged p = false -> inAir a = true ->
   exists first rest,
     names = first :: rest /\
     In first ["jumpRight"; "jumpLeft"; "jump"; "fall"]%string) /\
  (isBeingDragged p = false -> inAir a = false ->
   forall name, useAnimation maps names = Some name ->
     ~ In name ["jumpRight"; "jumpLeft"; "jump"; "fall"]%string).
Proof.
  intros names.
  destruct (updateAnimation_ends_with_stand env shoot p a)
    as (front & E & Hdrag & Hair & Hground).
  fold names in E.
  pose proof (useAnimation_first maps names) as U.
  split; [| split; [| split; [| split]]].
  - intros Hstand. destruct (useAnimation maps names) as [name |].
    + destruct U as (before & after & En & Ef & _).
      exists name. repeat split; [| exact Ef].
      rewrite En. apply in_or_app. right. left. reflexivity.
    + rewrite U in Hstand; [discriminate|].
      rewrite E. apply in_or_app. right. left. reflexivity.
  - intros name Hn. rewrite Hn in U.
    destruct U as (before & after & En & _ & Hb). eauto.
  - intros Hp. rewrite E, (Hdrag Hp). reflexivity.
  - intros Hp Hi. destruct (Hair Hp Hi) as (first & rest & Ef & Hin).
    exists first, (rest ++ ["stand"%string]). rewrite E, Ef. auto.
  - intros Hp Hi name Hn. rewrite Hn in U.
    destruct U as (before & after & En & _ & _).
    destruct (Hground Hp Hi) as (G1 & G2 & G3 & G4).
    assert (Hin : In name (front ++ ["stand"%string]))
      by (rewrite <- E, En; apply in_or_app; right; left; reflexivity).
    apply in_app_or in Hin.
    intros [<- | [<- | [<- | [<- | []]]]];
      (destruct Hin as [Hin | [Hin | []]]; [auto | discriminate]).
Qed.
End Animation.

(** ** The further properties at sample inputs *)

(** Left and right held together on the ground: the Actor runs left. *)
Lemma processInput_steering_witness :
  let a : Actor Q := init 5 5 10 10 in
  let a' := processInput (sampleEnv (1 # 60))
              (Some ["left"; "right"]%string) a in
  fallLeft a' = Some true /\ xVelocity a' = - (400).
Proof.
  intros a a'.
  destruct (processInput_steering (sampleEnv (1 # 60)) (ks := arrowKeys)
              (Some ["left"; "right"]%string)
              (dirs := ["left"; "right"]%string) a eq_refl eq_refl)
    as (Hl & _).
  apply Hl. reflexivity.
Defined.

(** The jump key held over two inputs: one jump only. *)
Lemma held_jump_key_never_jumps_witness :
  let a : Actor Q := set_JUMP_RELEASE true (set_GRAVITY true (init 5 5 10 10)) in
  let a1 := processInput (sampleEnv (1 # 60)) (Some ["up"%string]) a in
  let a2 := processInput (sampleEnv (1 # 60)) (Some ["up"%string]) a1 in
  numJumps a1 = 1%nat /\ numJumps a2 = numJumps a1.
Proof.
  intros a a1 a2. split; [reflexivity|].
  apply (held_jump_key_never_jumps (sampleEnv (1 # 60)) (sampleEnv (1 # 60))
           (ks1 := arrowKeys) (ks2 := arrowKeys)
           (Some ["up"%string]) (Some ["up"%string])
           (dirs1 := ["up"%string]) (dirs2 := ["up"%string]) a);
    reflexivity.
Defined.

(** Infinite jumps, but not a tenth of a second after the last one. *)
Lemma jumps_are_delayed_witness :
  let a : Actor Q := set_MULTI_JUMP (-1) (set_GRAVITY true (init 5 5 10 10)) in
  let later : Env Q :=
    {| keys := Some arrowKeys; world := World.mk 1000 500;
       physicsTimeElapsed := 101 # 10; physicsDelta := 1 # 60 |} in
  let a1 := processInput (sampleEnv (1 # 60)) (Some ["up"%string]) a in
  let a2 := processInput later (Some ["up"%string]) a1 in
  numJumps a1 = S (numJumps a) /\ numJumps a2 = numJumps a1.
Proof.
  intros a later a1 a2.
  destruct (jumps_are_delayed (sampleEnv (1 # 60)) later
              (ks1 := arrowKeys) (ks2 := arrowKeys)
              (Some ["up"%string]) (Some ["up"%string])
              (dirs1 := ["up"%string]) (dirs2 := ["up"%string]) a)
    as (H1 & H2 & _); try (vm_compute; reflexivity).
  exact (conj H1 H2).
Defined.

(** Looking up and right under GRAVITY: only "right" is remembered. *)
Lemma lastLooked_sideways_witness :
  let a : Actor Q := set_GRAVITY true (init 5 5 10 10) in
  Forall (fun d => isSideKey arrowKeys d = true)
         (lastLooked (processInput (sampleEnv (1 # 60))
                        (Some ["up"; "right"]%string) a)).
Proof.
  intros a.
  apply (lastLooked_sideways (sampleEnv (1 # 60)) (ks := arrowKeys));
    [reflexivity | reflexivity | constructor].
Defined.

(** A new Actor keeps both properties of the jump counter over a frame. *)
Lemma grounded_has_no_jumps_witness :
  let a : Actor Q := set_GRAVITY true (init 5 5 10 10) in
  let p : Pointer Q :=
    {| isBeingDragged := false; mouseX := 0; mouseY := 0;
       xOffset := 0; yOffset := 0 |} in
  groundedHasNoJumps (update (sampleEnv (1 # 60)) p (Some ["up"%string]) a).
Proof.
  intros a p.
  assert (Hg : groundedHasNoJumps a) by (intros _; reflexivity).
  destruct (grounded_has_no_jumps (sampleEnv (1 # 60)) p
              (Some ["up"%string]) (Collection []) [] Hg)
    as (_ & Hu & _).
  exact Hu.
Defined.

Lemma jumps_are_bounded_witness :
  let a : Actor Q := set_GRAVITY true (init 5 5 10 10) in
  let p : Pointer Q :=
    {| isBeingDragged := false; mouseX := 0; mouseY := 0;
       xOffset := 0; yOffset := 0 |} in
  jumpsBounded (update (sampleEnv (1 # 60)) p (Some ["up"%string]) a).
Proof.
  intros a p.
  assert (Hg : groundedHasNoJumps a) by (intros _; reflexivity).
  assert (Hb : jumpsBounded a) by (right; cbn; lia).
  destruct (jumps_are_bounded (sampleEnv (1 # 60)) p
              (Some ["up"%string]) (Collection []) [] Hg Hb)
    as (_ & Hu & _).
  exact Hu.
Defined.

(** Damping with factor 1 over half a second. *)
Lemma dampVelocity_slows_witness :
  let a : Actor R :=
    (set_xVelocity 300 (set_DAMPING_FACTOR (Some 1) (init 5 5 10 10)))%R in
  (Rabs (xVelocity (dampVelocity (sampleEnv (1 / 2)%R) a)) <= Rabs 300)%R.
Proof.
  intros a.
  assert (Hd : match DAMPING_FACTOR a with
               | Some damping =>
                 (0 <= damping * physicsDelta (sampleEnv (1 / 2)%R) <= 2)%R
               | None => True
               end).
  { cbn [a DAMPING_FACTOR set_xVelocity set_DAMPING_FACTOR sampleEnv
         physicsDelta]. lra. }
  destruct (dampVelocity_slows (sampleEnv (1 / 2)%R) a Hd) as (Hx & _).
  exact Hx.
Defined.

(** Dragged to the mouse at (100, 50) in a viewport scrolled by (20, 10). *)
Lemma update_dragged_follows_pointer_witness :
  let a : Actor R := (init 5 5 10 10)%R in
  let p : Pointer R :=
    {| isBeingDragged := true; mouseX := 100; mouseY := 50;
       xOffset := 20; yOffset := 10 |}%R in
  Box.xC (boxOf (update (sampleEnv (1 / 60)%R) p None a)) = (100 + 20)%R.
Proof.
  intros a p.
  assert (Hp : isBeingDragged p = true) by reflexivity.
  destruct (update_dragged_follows_pointer (sampleEnv (1 / 60)%R) p None a Hp)
    as (Hx & _).
  exact Hx.
Defined.

(** An Actor standing one pixel above a platform stays there for a
    hundred frames. *)
Lemma resting_actor_stays_witness :
  let a : Actor R := (set_GRAVITY true (init 30 69 20 30))%R in
  let box : Box.t R := (Box.mk 0 100 100 20)%R in
  Nat.iter 100 (frame (sampleEnv (1 / 60)%R) (OneBox box)) a = a.
Proof.
  intros a box.
  refine (proj2 (resting_actor_stays (env := sampleEnv (1 / 60)%R)
                   (a := a) (box := box) 100 _)).
  unfold atRestOn. do 11 (split; [reflexivity|]).
  split; [| split].
  - unfold standsOn.
    cbn [a box set_GRAVITY init x y width height Box.x Box.y Box.width
         ofZ RNumber].
    repeat split; try lra. unfold Rabs. destruct (Rcase_abs _); lra.
  - cbn [a box set_GRAVITY init y height Box.y ofZ RNumber]. lra.
  - apply isInWorld_full.
    cbn [a boxOf set_GRAVITY init x y width height Box.x Box.y Box.width
         Box.height sampleEnv world World.width World.height ofZ RNumber].
    lra.
Defined.


